(** * BoringPomodoro: the timer state machine, the task lists, the
      session analytics, the settings rows, the audio service and the
      purchases, embedded from the TypeScript sources.

    JavaScript numbers that hold counters, minutes, seconds and epoch
    milliseconds are integers here ([Z]).  [Date.now()] is an explicit
    argument [now] of every function that reads the clock.  A React
    handler is modelled as a function of the state of the render it runs
    in: the values a closure captured are the fields of the state it is
    applied to, unless the closure is stored and run later (the callback
    of the interval, time-outs, the completion callback), in which case
    the render it was made in is an argument of its own, or the captured
    values are kept in the stored closure. *)

From Stdlib Require Import ZArith List String Ascii Bool Lia.
From Stdlib Require Import DecimalString DecimalPos DecimalZ Sorted Permutation.
Import ListNotations.

Local Open Scope Z_scope.

(** ** JavaScript primitives used by the sources *)
Module JS.

  (** [a % b] on integers: the sign of the dividend, [NaN] ([None]) when the
      divisor is zero. *)
Definition rem (a b : Z) : option Z :=
  if b =? 0 then None else Some (Z.rem a b).

  (** [x === 0] for a possibly-NaN number. *)
Definition isZero (x : option Z) : bool :=
  match x with
  | Some v => v =? 0
  | None => false
  end.

  (** [Math.round(a / b)] for integers [a] and [b > 0]: the nearest integer,
      halves towards plus infinity. *)
Definition roundDiv (a b : Z) : Z := (2 * a + b) / (2 * b).

  (** [Math.floor(a / b)] for integers [a] and [b > 0]. *)
Definition floorDiv (a b : Z) : Z := a / b.

  (** [n.toString()] for an integer. *)
Definition toString (n : Z) : string := NilZero.string_of_int (Z.to_int n).

Definition isWhiteSpace (c : ascii) : bool :=
  match nat_of_ascii c with
  | 9%nat | 10%nat | 11%nat | 12%nat | 13%nat | 32%nat => true
  | _ => false
  end.

Fixpoint trimStart (s : string) : string :=
  match s with
  | String c r => if isWhiteSpace c then trimStart r else s
  | EmptyString => s
  end.

Definition digitValue (c : ascii) : option Z :=
  let n := Z.of_nat (nat_of_ascii c) in
  if (48 <=? n) && (n <=? 57) then Some (n - 48) else None.

  (** The longest prefix of decimal digits, as a number; [None] when the
      prefix is empty. *)
Fixpoint digits (s : string) (acc : option Z) : option Z :=
  match s with
  | String c r =>
      match digitValue c with
      | Some d =>
          digits r (Some (10 * match acc with Some a => a | None => 0 end + d))
      | None => acc
      end
  | EmptyString => acc
  end.

  (** [parseInt(s, 10)] on ASCII input: leading white space, an optional
      sign, then decimal digits; [None] is [NaN]. *)
Definition parseInt (s : string) : option Z :=
  match trimStart s with
  | String "-"%char r => option_map Z.opp (digits r None)
  | String "+"%char r => digits r None
  | t => digits t None
  end.

  (** [s.padStart(targetLength, c)] for a pad string of one character. *)
Fixpoint padding (n : nat) (c : ascii) (s : string) : string :=
  match n with
  | O => s
  | S m => String c (padding m c s)
  end.

Definition padStart (s : string) (targetLength : nat) (c : ascii) : string :=
  padding (targetLength - String.length s) c s.

End JS.

(** ** SettingsContext *)
Module Settings.

Inductive AlarmSound := bell | chime | digital | gentle | noAlarm.
Inductive AmbientSound := noAmbient | rain | forest | cafe | ocean | fireplace.

Record TimerSettings := mkTimerSettings {
  workDuration : Z;            (* minutes *)
  shortBreakDuration : Z;
  longBreakDuration : Z;
  autoStartNext : bool;
  pomodorosUntilLongBreak : Z
}.

  (** The part of [AppSettings] the timer reads; volume, theme, accent
      colour and the premium flag are not read by the functions below. *)
Record AppSettings := mkAppSettings {
  timer : TimerSettings;
  alarmSound : AlarmSound;
  ambientSound : AmbientSound
}.

Definition defaultSettings : AppSettings :=
  {| timer := {| workDuration := 25;
                 shortBreakDuration := 5;
                 longBreakDuration := 15;
                 autoStartNext := false;
                 pomodorosUntilLongBreak := 4 |};
     alarmSound := bell;
     ambientSound := noAmbient |}.

  (** [Partial<TimerSettings>]: a field is [Some] when the update carries it. *)
Record TimerUpdates := mkTimerUpdates {
  u_workDuration : option Z;
  u_shortBreakDuration : option Z;
  u_longBreakDuration : option Z;
  u_autoStartNext : option bool;
  u_pomodorosUntilLongBreak : option Z
}.

Definition spread {A : Type} (old : A) (new : option A) : A :=
  match new with
  | Some v => v
  | None => old
  end.

  (** [timer: { ...prev.timer, ...updates }] *)
Definition updateTimerSettings (updates : TimerUpdates) (prev : AppSettings)
  : AppSettings :=
  {| timer :=
       {| workDuration := spread (workDuration (timer prev)) (u_workDuration updates);
          shortBreakDuration :=
            spread (shortBreakDuration (timer prev)) (u_shortBreakDuration updates);
          longBreakDuration :=
            spread (longBreakDuration (timer prev)) (u_longBreakDuration updates);
          autoStartNext := spread (autoStartNext (timer prev)) (u_autoStartNext updates);
          pomodorosUntilLongBreak :=
            spread (pomodorosUntilLongBreak (timer prev))
                   (u_pomodorosUntilLongBreak updates) |};
     alarmSound := alarmSound prev;
     ambientSound := ambientSound prev |}.

End Settings.

(** ** SettingsScreen: the three [DurationRow]s *)
Module SettingsScreen.
Import Settings.

Inductive DurationField := WorkDuration | ShortBreak | LongBreak.

  (** The [value] prop of a row. *)
Definition value (f : DurationField) (s : AppSettings) : Z :=
  match f with
  | WorkDuration => workDuration (timer s)
  | ShortBreak => shortBreakDuration (timer s)
  | LongBreak => longBreakDuration (timer s)
  end.

  (** The [onChange] prop of a row. *)
Definition onChange (f : DurationField) (val : Z) (s : AppSettings) : AppSettings :=
  match f with
  | WorkDuration =>
      updateTimerSettings
        (mkTimerUpdates (Some val) None None None None) s
  | ShortBreak =>
      updateTimerSettings
        (mkTimerUpdates None (Some val) None None None) s
  | LongBreak =>
      updateTimerSettings
        (mkTimerUpdates None None (Some val) None None) s
  end.

  (** [handleBlur]: the number committed for the text [inputValue] of a row
      whose current setting is [value]. *)
Definition handleBlurNum (inputValue : string) (value : Z) : Z :=
  let num := match JS.parseInt inputValue with
             | Some n => n
             | None => value           (* isNaN(num) *)
             end in
  Z.max 1 (Z.min 90 num).

  (** [handleBlur] of the row [f]: the new text of the input and the
      settings after [onChange(num)]. *)
Definition handleBlur (f : DurationField) (inputValue : string) (s : AppSettings)
  : string * AppSettings :=
  let num := handleBlurNum inputValue (value f s) in
  (JS.toString num, onChange f num s).

  (** The minus and plus buttons of a row. *)
Definition pressMinus (f : DurationField) (s : AppSettings) : string * AppSettings :=
  let newVal := Z.max 1 (value f s - 1) in
  (JS.toString newVal, onChange f newVal s).

Definition pressPlus (f : DurationField) (s : AppSettings) : string * AppSettings :=
  let newVal := Z.min 90 (value f s + 1) in
  (JS.toString newVal, onChange f newVal s).

  (** What a user does to a row: type into its input, leave the input, press
      one of its buttons. *)
Inductive RowAction := TypeText (text : string) | Blur | Minus | Plus.

  (** The three rows of the screen: the [inputValue] state of each and the
      settings they share. *)
Record Rows := mkRows {
  workInput : string;
  shortInput : string;
  longInput : string;
  settings : AppSettings
}.

  (** [useState(value.toString())] in each row. *)
Definition mount (s : AppSettings) : Rows :=
  {| workInput := JS.toString (workDuration (timer s));
     shortInput := JS.toString (shortBreakDuration (timer s));
     longInput := JS.toString (longBreakDuration (timer s));
     settings := s |}.

Definition inputValue (f : DurationField) (r : Rows) : string :=
  match f with
  | WorkDuration => workInput r
  | ShortBreak => shortInput r
  | LongBreak => longInput r
  end.

Definition setInputValue (f : DurationField) (text : string) (r : Rows) : Rows :=
  match f with
  | WorkDuration =>
      {| workInput := text; shortInput := shortInput r; longInput := longInput r;
         settings := settings r |}
  | ShortBreak =>
      {| workInput := workInput r; shortInput := text; longInput := longInput r;
         settings := settings r |}
  | LongBreak =>
      {| workInput := workInput r; shortInput := shortInput r; longInput := text;
         settings := settings r |}
  end.

Definition commit (f : DurationField) (result : string * AppSettings) (r : Rows)
  : Rows :=
  let r := setInputValue f (fst result) r in
  {| workInput := workInput r; shortInput := shortInput r; longInput := longInput r;
     settings := snd result |}.

Definition act (r : Rows) (step : DurationField * RowAction) : Rows :=
  let '(f, a) := step in
  match a with
  | TypeText text => setInputValue f text r
  | Blur => commit f (handleBlur f (inputValue f r) (settings r)) r
  | Minus => commit f (pressMinus f (settings r)) r
  | Plus => commit f (pressPlus f (settings r)) r
  end.

Definition run (steps : list (DurationField * RowAction)) (r : Rows) : Rows :=
  fold_left act steps r.

End SettingsScreen.

(** ** InsightsContext *)
Module Insights.

Inductive FocusCategory := work | study | personal | health | other.

  (** A session.  The [date] string YYYY-MM-DD is held as the number of
      that UTC day since the epoch: the order of well-formed date strings is
      the order of their day numbers, and [new Date(date).getTime()] is the
      day number times the milliseconds of a day. *)
Record FocusSession := mkFocusSession {
  id : string;
  date : Z;
  duration : Z;                (* minutes *)
  category : FocusCategory;
  taskId : option string;
  taskTitle : option string;
  completedAt : Z
}.

  (** [Omit<FocusSession, "id" | "completedAt">] *)
Record SessionData := mkSessionData {
  d_date : Z;
  d_duration : Z;
  d_category : FocusCategory;
  d_taskId : option string;
  d_taskTitle : option string
}.

Record State := mkState {
  sessions : list FocusSession;
  selectedCategory : FocusCategory
}.

Definition initialState : State :=
  {| sessions := []; selectedCategory := work |}.

Definition msPerDay : Z := 86400000.

  (** [getDateString(new Date(t))]: the UTC day of the instant [t]. *)
Definition getDateString (t : Z) : Z := JS.floorDiv t msPerDay.

  (** [new Date(dateString).getTime()] *)
Definition getTime (day : Z) : Z := day * msPerDay.

Definition dayDiff (previousDate currentDate : Z) : Z :=
  JS.roundDiv (getTime previousDate - getTime currentDate) msPerDay.

  (** [[...new Set(xs)]]: the first occurrence of every value, in order. *)
Fixpoint newSet (xs : list Z) : list Z :=
  match xs with
  | [] => []
  | x :: r => x :: filter (fun y => negb (y =? x)) (newSet r)
  end.

Fixpoint insert (x : Z) (l : list Z) : list Z :=
  match l with
  | [] => [x]
  | y :: r => if x <=? y then x :: l else y :: insert x r
  end.

  (** [xs.sort()]: ascending. *)
Definition sort (xs : list Z) : list Z := fold_right insert [] xs.

Definition uniqueDates (ss : list FocusSession) : list Z :=
  rev (sort (newSet (map date ss))).

Record Streaks := mkStreaks { current : Z; best : Z }.

  (** The first loop of [calculateStreaks], from index [i] on:
      [previousDate] is [uniqueDates[i - 1]], absent when [i = 0]; the result
      is [(bestStreak, tempStreak)] when the loop ends. *)
Fixpoint bestLoop (previousDate : option Z) (dates : list Z)
    (bestStreak tempStreak : Z) : Z * Z :=
  match dates with
  | [] => (bestStreak, tempStreak)
  | currentDate :: rest =>
      match previousDate with
      | Some p =>
          if dayDiff p currentDate =? 1
          then bestLoop (Some currentDate) rest bestStreak (tempStreak + 1)
          else bestLoop (Some currentDate) rest (Z.max bestStreak tempStreak) 1
      | None => bestLoop (Some currentDate) rest bestStreak 1
      end
  end.

  (** The second loop, from index [i >= 1] on, with its [break]. *)
Fixpoint currentLoop (previousDate : Z) (dates : list Z) (tempStreak : Z) : Z :=
  match dates with
  | [] => tempStreak
  | currentDate :: rest =>
      if dayDiff previousDate currentDate =? 1
      then currentLoop currentDate rest (tempStreak + 1)
      else tempStreak
  end.

Definition calculateStreaks (now : Z) (ss : list FocusSession) : Streaks :=
  match ss with
  | [] => {| current := 0; best := 0 |}
  | _ =>
      match uniqueDates ss with
      | [] => {| current := 0; best := 0 |}
      | first :: rest =>
          let today := getDateString now in
          let yesterday := getDateString (now - 86400000) in
          let streakActive := (first =? today) || (first =? yesterday) in
          let '(bestStreak, tempStreak) := bestLoop None (first :: rest) 0 0 in
          let bestStreak := Z.max bestStreak tempStreak in
          let currentStreak :=
            if streakActive then currentLoop first rest 1 else 0 in
          {| current := currentStreak; best := bestStreak |}
      end
  end.

Definition addSession (now : Z) (sessionData : SessionData) (st : State) : State :=
  let newSession :=
    {| id := JS.toString now;
       date := d_date sessionData;
       duration := d_duration sessionData;
       category := d_category sessionData;
       taskId := d_taskId sessionData;
       taskTitle := d_taskTitle sessionData;
       completedAt := now |} in
  {| sessions := sessions st ++ [newSession];
     selectedCategory := selectedCategory st |}.

Definition setSelectedCategory (c : FocusCategory) (st : State) : State :=
  {| sessions := sessions st; selectedCategory := c |}.

  (** *** The streak algorithm in the words of the specification *)

  (** Lengths of the runs of a list of days walked pairwise: a gap of
      exactly one day extends the run, any other gap starts a new one. *)
Fixpoint runLengths (dates : list Z) : list Z :=
  match dates with
  | [] => []
  | d :: rest =>
      match runLengths rest with
      | n :: ns =>
          match rest with
          | d' :: _ => if d - d' =? 1 then (n + 1) :: ns else 1 :: n :: ns
          | [] => [1]
          end
      | [] => [1]
      end
  end.

Definition longest (runs : list Z) : Z := fold_right Z.max 0 runs.

Definition streakAlgorithm (today : Z) (distinctDatesDescending : list Z) : Streaks :=
  let runs := runLengths distinctDatesDescending in
  let active :=
    match distinctDatesDescending with
    | mostRecent :: _ => (mostRecent =? today) || (mostRecent =? today - 1)
    | [] => false
    end in
  {| current := if active then hd 0 runs else 0;
     best := longest runs |}.

  (** *** The derived views of the provider *)

Module Daily.
Record DailyStats := mkDailyStats {
  date : Z;
  totalMinutes : Z;
  pomodorosCompleted : Z;
  sessions : list FocusSession
}.
End Daily.

  (** The body of the [forEach] that fills the [Map] of daily stats, the map
      being the list of its values in insertion order. *)
Fixpoint recordSession (session : FocusSession) (stats : list Daily.DailyStats)
  : list Daily.DailyStats :=
  match stats with
  | [] =>
      [ {| Daily.date := date session;
           Daily.totalMinutes := duration session;
           Daily.pomodorosCompleted := 1;
           Daily.sessions := [session] |} ]
  | existing :: rest =>
      if Daily.date existing =? date session then
        {| Daily.date := Daily.date existing;
           Daily.totalMinutes := Daily.totalMinutes existing + duration session;
           Daily.pomodorosCompleted := Daily.pomodorosCompleted existing + 1;
           Daily.sessions := Daily.sessions existing ++ [session] |} :: rest
      else existing :: recordSession session rest
  end.

Definition dailyStats (ss : list FocusSession) : list Daily.DailyStats :=
  fold_left (fun stats session => recordSession session stats) ss [].

  (** [dailyStats.get(dateStr)] *)
Definition getDaily (dateStr : Z) (stats : list Daily.DailyStats)
  : option Daily.DailyStats :=
  find (fun d => Daily.date d =? dateStr) stats.

Record CategoryStats := mkCategoryStats {
  cs_work : Z;
  cs_study : Z;
  cs_personal : Z;
  cs_health : Z;
  cs_other : Z
}.

  (** [categoryStats[c]] *)
Definition minutesOf (c : FocusCategory) (stats : CategoryStats) : Z :=
  match c with
  | work => cs_work stats
  | study => cs_study stats
  | personal => cs_personal stats
  | health => cs_health stats
  | other => cs_other stats
  end.

  (** [categoryStats[c] += minutes] *)
Definition addMinutes (c : FocusCategory) (minutes : Z) (stats : CategoryStats)
  : CategoryStats :=
  match c with
  | work =>
      mkCategoryStats (cs_work stats + minutes) (cs_study stats) (cs_personal stats)
        (cs_health stats) (cs_other stats)
  | study =>
      mkCategoryStats (cs_work stats) (cs_study stats + minutes) (cs_personal stats)
        (cs_health stats) (cs_other stats)
  | personal =>
      mkCategoryStats (cs_work stats) (cs_study stats) (cs_personal stats + minutes)
        (cs_health stats) (cs_other stats)
  | health =>
      mkCategoryStats (cs_work stats) (cs_study stats) (cs_personal stats)
        (cs_health stats + minutes) (cs_other stats)
  | other =>
      mkCategoryStats (cs_work stats) (cs_study stats) (cs_personal stats)
        (cs_health stats) (cs_other stats + minutes)
  end.

Definition categoryStats (ss : list FocusSession) : CategoryStats :=
  fold_left (fun stats session => addMinutes (category session) (duration session) stats)
            ss (mkCategoryStats 0 0 0 0 0).

  (** The local time zone of the host, as ECMAScript reads it:
      [tza t true] is the offset of local time in milliseconds at the UTC
      time [t], [tza t false] the offset at the local time [t]. *)
Definition LocalTZA : Type := Z -> bool -> Z.

Definition LocalTime (tza : LocalTZA) (t : Z) : Z := t + tza t true.

Definition UTC (tza : LocalTZA) (t : Z) : Z := t - tza t false.

  (** [date.setDate(date.getDate() - i)] on a copy of [new Date()], then
      [getDateString(date)]: [setDate] takes the local time, moves its day
      by [- i] and keeps the time within the day, and goes back to UTC;
      [toISOString] reads the UTC date. *)
Definition dateDaysAgo (tza : LocalTZA) (now : Z) (i : nat) : Z :=
  getDateString (UTC tza (LocalTime tza now - Z.of_nat i * msPerDay)).

  (** [getHeatmapData(weeks)] *)
Definition getHeatmapData (tza : LocalTZA) (now : Z) (ss : list FocusSession)
    (weeks : Z) : list (Z * Z) :=
  let daysToShow := weeks * 7 in
  map (fun i =>
         let dateStr := dateDaysAgo tza now i in
         (dateStr,
          match getDaily dateStr (dailyStats ss) with
          | Some stats => Daily.pomodorosCompleted stats     (* || 0 *)
          | None => 0
          end))
      (rev (seq 0 (Z.to_nat daysToShow))).

  (** The sessions of one day, and their minutes. *)
Definition sessionsOn (day : Z) (ss : list FocusSession) : list FocusSession :=
  filter (fun s => date s =? day) ss.

Definition minutes (ss : list FocusSession) : Z :=
  fold_right (fun s total => duration s + total) 0 ss.

  (** What the daily stats of a day should hold. *)
Definition statsOfDay (ss : list FocusSession) (day : Z) : Daily.DailyStats :=
  {| Daily.date := day;
     Daily.totalMinutes := minutes (sessionsOn day ss);
     Daily.pomodorosCompleted := Z.of_nat (List.length (sessionsOn day ss));
     Daily.sessions := sessionsOn day ss |}.

  (** The sessions of one category. *)
Definition sameCategory (a b : FocusCategory) : bool :=
  match a, b with
  | work, work | study, study | personal, personal
  | health, health | other, other => true
  | _, _ => false
  end.

Definition sessionsIn (c : FocusCategory) (ss : list FocusSession)
  : list FocusSession :=
  filter (fun s => sameCategory (category s) c) ss.

  (** The [n] days ending with [day] all are among [days]. *)
Definition consecutive (n day : Z) (days : list Z) : Prop :=
  forall i, 0 <= i < n -> In (day - i) days.

End Insights.

(** ** TaskContext *)
Module Tasks.

Record Task := mkTask {
  id : string;
  title : string;
  description : option string;
  category : Insights.FocusCategory;
  pomodoroEstimate : Z;
  pomodorosCompleted : Z;
  completed : bool;
  completedAt : option Z;
  createdAt : Z;
  order : Z
}.

Record State := mkState {
  tasks : list Task;
  archivedTasks : list Task;
  currentTaskId : option string
}.

Definition initialState : State :=
  {| tasks := []; archivedTasks := []; currentTaskId := None |}.

  (** [task.id === id] *)
Definition hasId (i : string) (task : Task) : bool := String.eqb (id task) i.

  (** [currentTaskId === id] *)
Definition isCurrent (st : State) (i : string) : bool :=
  match currentTaskId st with
  | Some c => String.eqb c i
  | None => false
  end.

Definition addTask (now : Z) (title : string) (description : option string)
    (pomodoroEstimate : Z) (category : Insights.FocusCategory) (st : State) : State :=
  let newTask :=
    {| id := JS.toString now;
       title := title;
       description := description;
       category := category;
       pomodoroEstimate := pomodoroEstimate;
       pomodorosCompleted := 0;
       completed := false;
       completedAt := None;
       createdAt := now;
       order := Z.of_nat (List.length (tasks st)) |} in
  {| tasks := tasks st ++ [newTask];
     archivedTasks := archivedTasks st;
     currentTaskId := currentTaskId st |}.

Definition deleteTask (i : string) (st : State) : State :=
  {| tasks := filter (fun task => negb (hasId i task)) (tasks st);
     archivedTasks := archivedTasks st;
     currentTaskId := if isCurrent st i then None else currentTaskId st |}.

Definition completeTask (now : Z) (i : string) (st : State) : State :=
  let '(tasks', archived') :=
    match find (hasId i) (tasks st) with
    | None => (tasks st, archivedTasks st)
    | Some taskToComplete =>
        let completedTask :=
          {| id := id taskToComplete;
             title := title taskToComplete;
             description := description taskToComplete;
             category := category taskToComplete;
             pomodoroEstimate := pomodoroEstimate taskToComplete;
             pomodorosCompleted := pomodorosCompleted taskToComplete;
             completed := true;
             completedAt := Some now;
             createdAt := createdAt taskToComplete;
             order := order taskToComplete |} in
        (filter (fun task => negb (hasId i task)) (tasks st),
         completedTask :: archivedTasks st)
    end in
  {| tasks := tasks';
     archivedTasks := archived';
     currentTaskId := if isCurrent st i then None else currentTaskId st |}.

  (** The body of the [map] of [incrementPomodoro] for one task: the new
      task, and whether [setTimeout(() => completeTask(id), 0)] was
      called. *)
Definition incrementOne (i : string) (task : Task) : Task * bool :=
  if negb (hasId i task) then (task, false)
  else
    let newCompleted := pomodorosCompleted task + 1 in
    ({| id := id task;
        title := title task;
        description := description task;
        category := category task;
        pomodoroEstimate := pomodoroEstimate task;
        pomodorosCompleted := newCompleted;
        completed := completed task;
        completedAt := completedAt task;
        createdAt := createdAt task;
        order := order task |},
     pomodoroEstimate task <=? newCompleted).

  (** [incrementPomodoro(id)]: the new state and the ids of the
      [completeTask] calls it left on the timer queue, in order. *)
Definition incrementPomodoro (i : string) (st : State) : State * list string :=
  let results := map (incrementOne i) (tasks st) in
  ({| tasks := map fst results;
      archivedTasks := archivedTasks st;
      currentTaskId := currentTaskId st |},
   map (fun _ => i) (filter snd results)).

Definition restoreTask (i : string) (st : State) : State :=
  match find (hasId i) (archivedTasks st) with
  | None => st
  | Some taskToRestore =>
      let restoredTask :=
        {| id := id taskToRestore;
           title := title taskToRestore;
           description := description taskToRestore;
           category := category taskToRestore;
           pomodoroEstimate := pomodoroEstimate taskToRestore;
           pomodorosCompleted := 0;
           completed := false;
           completedAt := None;
           createdAt := createdAt taskToRestore;
           order := Z.of_nat (List.length (tasks st)) |} in
      {| tasks := tasks st ++ [restoredTask];
         archivedTasks := filter (fun task => negb (hasId i task)) (archivedTasks st);
         currentTaskId := currentTaskId st |}
  end.

Definition clearArchive (st : State) : State :=
  {| tasks := tasks st; archivedTasks := []; currentTaskId := currentTaskId st |}.

Definition setCurrentTaskId (i : option string) (st : State) : State :=
  {| tasks := tasks st; archivedTasks := archivedTasks st; currentTaskId := i |}.

  (** [tasks.find((task) => task.id === currentTaskId) || null] *)
Definition currentTask (st : State) : option Task :=
  match currentTaskId st with
  | Some c => find (hasId c) (tasks st)
  | None => None
  end.

  (** Run the queued [completeTask] calls, oldest first. *)
Definition runCompletions (now : Z) (queue : list string) (st : State) : State :=
  fold_left (fun s i => completeTask now i s) queue st.

  (** How many tasks of a list carry the id [i]. *)
Definition occurrences (i : string) (l : list Task) : nat :=
  List.length (filter (hasId i) l).

  (** [Partial<Task>]: a field is [Some] when the update carries the key;
      for the two optional fields the carried value may be [undefined]. *)
Record TaskUpdates := mkTaskUpdates {
  u_id : option string;
  u_title : option string;
  u_description : option (option string);
  u_category : option Insights.FocusCategory;
  u_pomodoroEstimate : option Z;
  u_pomodorosCompleted : option Z;
  u_completed : option bool;
  u_completedAt : option (option Z);
  u_createdAt : option Z;
  u_order : option Z
}.

  (** [{ ...task, ...updates }] *)
Definition applyUpdates (updates : TaskUpdates) (task : Task) : Task :=
  {| id := Settings.spread (id task) (u_id updates);
     title := Settings.spread (title task) (u_title updates);
     description := Settings.spread (description task) (u_description updates);
     category := Settings.spread (category task) (u_category updates);
     pomodoroEstimate :=
       Settings.spread (pomodoroEstimate task) (u_pomodoroEstimate updates);
     pomodorosCompleted :=
       Settings.spread (pomodorosCompleted task) (u_pomodorosCompleted updates);
     completed := Settings.spread (completed task) (u_completed updates);
     completedAt := Settings.spread (completedAt task) (u_completedAt updates);
     createdAt := Settings.spread (createdAt task) (u_createdAt updates);
     order := Settings.spread (order task) (u_order updates) |}.

Definition updateTask (i : string) (updates : TaskUpdates) (st : State) : State :=
  {| tasks := map (fun task => if hasId i task then applyUpdates updates task else task)
                  (tasks st);
     archivedTasks := archivedTasks st;
     currentTaskId := currentTaskId st |}.

  (** [{ ...task, order: index }] *)
Definition withOrder (index : Z) (task : Task) : Task :=
  {| id := id task;
     title := title task;
     description := description task;
     category := category task;
     pomodoroEstimate := pomodoroEstimate task;
     pomodorosCompleted := pomodorosCompleted task;
     completed := completed task;
     completedAt := completedAt task;
     createdAt := createdAt task;
     order := index |}.

  (** [reorderedTasks.map((task, index) => ...)] from position [index] on. *)
Fixpoint withOrders (index : nat) (reorderedTasks : list Task) : list Task :=
  match reorderedTasks with
  | [] => []
  | task :: rest => withOrder (Z.of_nat index) task :: withOrders (S index) rest
  end.

Definition reorderTasks (reorderedTasks : list Task) (st : State) : State :=
  {| tasks := withOrders 0 reorderedTasks;
     archivedTasks := archivedTasks st;
     currentTaskId := currentTaskId st |}.

  (** No two tasks of the two lists carry one id. *)
Definition uniqueIds (st : State) : Prop :=
  NoDup (map id (tasks st ++ archivedTasks st)).

End Tasks.

(** ** PomodoroContext *)
Module Pomodoro.
Import Settings.

Inductive TimerMode := focus | shortBreak | longBreak.

  (** The persisted [TimerState]. *)
Module Snapshot.
Record TimerState := mkTimerState {
  mode : TimerMode;
  remainingTime : Z;
  isPlaying : bool;
  completedPomodoros : Z;
  startedAt : option Z;
  pausedAt : option Z
}.
End Snapshot.

  (** The function FocusScreen hands to [setOnPomodoroComplete], as the
      values of the render that created it. *)
Record OnPomodoroComplete := mkOnPomodoroComplete {
  cb_workDuration : Z;
  cb_effectiveCategory : Insights.FocusCategory;
  cb_currentTask : option Tasks.Task
}.

  (** [timerRef.current]: null, or an interval that is still running or was
      cleared. *)
Inductive IntervalRef := NoInterval | Interval (running : bool).

  (** Calls that leave the provider: the audio and notification services,
      the completion callback and [setTimeout]. *)
Inductive Effect :=
| CancelNotification (identifier : string)
| CancelAllNotifications
| ScheduleTimerCompleteNotification (m : TimerMode) (delaySeconds : Z)
| SendImmediateNotification (focusComplete : bool)
| PlayAlarmSound (sound : AlarmSound)
| PlayAmbientSound (sound : AmbientSound)
| PauseAmbientSound
| StopAmbientSound
| CallOnPomodoroComplete (callback : OnPomodoroComplete)
| SetTimeoutStartTimerInternal (capturedMode : TimerMode) (capturedRemainingTime : Z).

  (** The [useState] cells and the [useRef] cells of the provider. *)
Record State := mkState {
  isPlaying : bool;
  timerKey : Z;
  mode : TimerMode;
  completedPomodoros : Z;
  targetPomodoros : Z;
  remainingTime : Z;
  isAmbientPlaying : bool;
  isLoaded : bool;
  onPomodoroComplete : option OnPomodoroComplete;
  timerRef : IntervalRef;
  notificationIdRef : option string;
  startTimeRef : option Z;
  userWantsAmbientRef : bool
}.

Definition setIsPlaying (v : bool) (st : State) : State :=
  {| isPlaying := v;
     timerKey := timerKey st;
     mode := mode st;
     completedPomodoros := completedPomodoros st;
     targetPomodoros := targetPomodoros st;
     remainingTime := remainingTime st;
     isAmbientPlaying := isAmbientPlaying st;
     isLoaded := isLoaded st;
     onPomodoroComplete := onPomodoroComplete st;
     timerRef := timerRef st;
     notificationIdRef := notificationIdRef st;
     startTimeRef := startTimeRef st;
     userWantsAmbientRef := userWantsAmbientRef st |}.

Definition setTimerKey (v : Z) (st : State) : State :=
  {| isPlaying := isPlaying st;
     timerKey := v;
     mode := mode st;
     completedPomodoros := completedPomodoros st;
     targetPomodoros := targetPomodoros st;
     remainingTime := remainingTime st;
     isAmbientPlaying := isAmbientPlaying st;
     isLoaded := isLoaded st;
     onPomodoroComplete := onPomodoroComplete st;
     timerRef := timerRef st;
     notificationIdRef := notificationIdRef st;
     startTimeRef := startTimeRef st;
     userWantsAmbientRef := userWantsAmbientRef st |}.

Definition setMode (v : TimerMode) (st : State) : State :=
  {| isPlaying := isPlaying st;
     timerKey := timerKey st;
     mode := v;
     completedPomodoros := completedPomodoros st;
     targetPomodoros := targetPomodoros st;
     remainingTime := remainingTime st;
     isAmbientPlaying := isAmbientPlaying st;
     isLoaded := isLoaded st;
     onPomodoroComplete := onPomodoroComplete st;
     timerRef := timerRef st;
     notificationIdRef := notificationIdRef st;
     startTimeRef := startTimeRef st;
     userWantsAmbientRef := userWantsAmbientRef st |}.

Definition setCompletedPomodoros (v : Z) (st : State) : State :=
  {| isPlaying := isPlaying st;
     timerKey := timerKey st;
     mode := mode st;
     completedPomodoros := v;
     targetPomodoros := targetPomodoros st;
     remainingTime := remainingTime st;
     isAmbientPlaying := isAmbientPlaying st;
     isLoaded := isLoaded st;
     onPomodoroComplete := onPomodoroComplete st;
     timerRef := timerRef st;
     notificationIdRef := notificationIdRef st;
     startTimeRef := startTimeRef st;
     userWantsAmbientRef := userWantsAmbientRef st |}.

Definition setTargetPomodoros (v : Z) (st : State) : State :=
  {| isPlaying := isPlaying st;
     timerKey := timerKey st;
     mode := mode st;
     completedPomodoros := completedPomodoros st;
     targetPomodoros := v;
     remainingTime := remainingTime st;
     isAmbientPlaying := isAmbientPlaying st;
     isLoaded := isLoaded st;
     onPomodoroComplete := onPomodoroComplete st;
     timerRef := timerRef st;
     notificationIdRef := notificationIdRef st;
     startTimeRef := startTimeRef st;
     userWantsAmbientRef := userWantsAmbientRef st |}.

Definition setRemainingTime (v : Z) (st : State) : State :=
  {| isPlaying := isPlaying st;
     timerKey := timerKey st;
     mode := mode st;
     completedPomodoros := completedPomodoros st;
     targetPomodoros := targetPomodoros st;
     remainingTime := v;
     isAmbientPlaying := isAmbientPlaying st;
     isLoaded := isLoaded st;
     onPomodoroComplete := onPomodoroComplete st;
     timerRef := timerRef st;
     notificationIdRef := notificationIdRef st;
     startTimeRef := startTimeRef st;
     userWantsAmbientRef := userWantsAmbientRef st |}.

Definition setIsAmbientPlaying (v : bool) (st : State) : State :=
  {| isPlaying := isPlaying st;
     timerKey := timerKey st;
     mode := mode st;
     completedPomodoros := completedPomodoros st;
     targetPomodoros := targetPomodoros st;
     remainingTime := remainingTime st;
     isAmbientPlaying := v;
     isLoaded := isLoaded st;
     onPomodoroComplete := onPomodoroComplete st;
     timerRef := timerRef st;
     notificationIdRef := notificationIdRef st;
     startTimeRef := startTimeRef st;
     userWantsAmbientRef := userWantsAmbientRef st |}.

Definition setIsLoaded (v : bool) (st : State) : State :=
  {| isPlaying := isPlaying st;
     timerKey := timerKey st;
     mode := mode st;
     completedPomodoros := completedPomodoros st;
     targetPomodoros := targetPomodoros st;
     remainingTime := remainingTime st;
     isAmbientPlaying := isAmbientPlaying st;
     isLoaded := v;
     onPomodoroComplete := onPomodoroComplete st;
     timerRef := timerRef st;
     notificationIdRef := notificationIdRef st;
     startTimeRef := startTimeRef st;
     userWantsAmbientRef := userWantsAmbientRef st |}.

Definition setOnPomodoroComplete (v : option OnPomodoroComplete) (st : State) : State :=
  {| isPlaying := isPlaying st;
     timerKey := timerKey st;
     mode := mode st;
     completedPomodoros := completedPomodoros st;
     targetPomodoros := targetPomodoros st;
     remainingTime := remainingTime st;
     isAmbientPlaying := isAmbientPlaying st;
     isLoaded := isLoaded st;
     onPomodoroComplete := v;
     timerRef := timerRef st;
     notificationIdRef := notificationIdRef st;
     startTimeRef := startTimeRef st;
     userWantsAmbientRef := userWantsAmbientRef st |}.

Definition setTimerRef (v : IntervalRef) (st : State) : State :=
  {| isPlaying := isPlaying st;
     timerKey := timerKey st;
     mode := mode st;
     completedPomodoros := completedPomodoros st;
     targetPomodoros := targetPomodoros st;
     remainingTime := remainingTime st;
     isAmbientPlaying := isAmbientPlaying st;
     isLoaded := isLoaded st;
     onPomodoroComplete := onPomodoroComplete st;
     timerRef := v;
     notificationIdRef := notificationIdRef st;
     startTimeRef := startTimeRef st;
     userWantsAmbientRef := userWantsAmbientRef st |}.

Definition setNotificationIdRef (v : option string) (st : State) : State :=
  {| isPlaying := isPlaying st;
     timerKey := timerKey st;
     mode := mode st;
     completedPomodoros := completedPomodoros st;
     targetPomodoros := targetPomodoros st;
     remainingTime := remainingTime st;
     isAmbientPlaying := isAmbientPlaying st;
     isLoaded := isLoaded st;
     onPomodoroComplete := onPomodoroComplete st;
     timerRef := timerRef st;
     notificationIdRef := v;
     startTimeRef := startTimeRef st;
     userWantsAmbientRef := userWantsAmbientRef st |}.

Definition setStartTimeRef (v : option Z) (st : State) : State :=
  {| isPlaying := isPlaying st;
     timerKey := timerKey st;
     mode := mode st;
     completedPomodoros := completedPomodoros st;
     targetPomodoros := targetPomodoros st;
     remainingTime := remainingTime st;
     isAmbientPlaying := isAmbientPlaying st;
     isLoaded := isLoaded st;
     onPomodoroComplete := onPomodoroComplete st;
     timerRef := timerRef st;
     notificationIdRef := notificationIdRef st;
     startTimeRef := v;
     userWantsAmbientRef := userWantsAmbientRef st |}.

Definition setUserWantsAmbientRef (v : bool) (st : State) : State :=
  {| isPlaying := isPlaying st;
     timerKey := timerKey st;
     mode := mode st;
     completedPomodoros := completedPomodoros st;
     targetPomodoros := targetPomodoros st;
     remainingTime := remainingTime st;
     isAmbientPlaying := isAmbientPlaying st;
     isLoaded := isLoaded st;
     onPomodoroComplete := onPomodoroComplete st;
     timerRef := timerRef st;
     notificationIdRef := notificationIdRef st;
     startTimeRef := startTimeRef st;
     userWantsAmbientRef := v |}.

Definition getDuration (s : AppSettings) (timerMode : TimerMode) : Z :=
  match timerMode with
  | focus => workDuration (timer s) * 60
  | shortBreak => shortBreakDuration (timer s) * 60
  | longBreak => longBreakDuration (timer s) * 60
  end.

Definition initialState (s : AppSettings) : State :=
  {| isPlaying := false;
     timerKey := 0;
     mode := focus;
     completedPomodoros := 0;
     targetPomodoros := 4;
     remainingTime := workDuration (timer s) * 60;
     isAmbientPlaying := false;
     isLoaded := false;
     onPomodoroComplete := None;
     timerRef := NoInterval;
     notificationIdRef := None;
     startTimeRef := None;
     userWantsAmbientRef := false |}.

  (** A number that is neither null nor zero, for [a && b] and [a || b]. *)
Definition truthy (x : option Z) : option Z :=
  match x with
  | Some v => if v =? 0 then None else Some v
  | None => None
  end.

  (** [loadTimerState]: [data] is the parsed item of the store, absent when
      there is none. *)
Definition loadTimerState (s : AppSettings) (now : Z)
    (data : option Snapshot.TimerState) (st : State) : State :=
  let st :=
    match data with
    | None => st
    | Some state =>
        match (if Snapshot.isPlaying state
               then truthy (Snapshot.startedAt state) else None) with
        | Some startedAt =>
            let elapsed := JS.floorDiv (now - startedAt) 1000 in
            let newRemaining := Z.max 0 (Snapshot.remainingTime state - elapsed) in
            if 0 <? newRemaining then
              let st := setMode (Snapshot.mode state) st in
              let st := setRemainingTime newRemaining st in
              let st := setCompletedPomodoros (Snapshot.completedPomodoros state) st in
              setIsPlaying false st
            else
              let st := setMode (Snapshot.mode state) st in
              let st := setRemainingTime 0 st in
              setCompletedPomodoros (Snapshot.completedPomodoros state) st
        | None =>
            let st := setMode (Snapshot.mode state) st in
            let st :=
              setRemainingTime
                (match truthy (Some (Snapshot.remainingTime state)) with
                 | Some r => r
                 | None => getDuration s (Snapshot.mode state)
                 end) st in
            setCompletedPomodoros (Snapshot.completedPomodoros state) st
        end
    end in
  setIsLoaded true st.

Definition saveTimerState (now : Z) (st : State) : Snapshot.TimerState :=
  {| Snapshot.mode := mode st;
     Snapshot.remainingTime := remainingTime st;
     Snapshot.isPlaying := isPlaying st;
     Snapshot.completedPomodoros := completedPomodoros st;
     Snapshot.startedAt := if isPlaying st then startTimeRef st else None;
     Snapshot.pausedAt := if negb (isPlaying st) then Some now else None |}.

  (** [startTimerInternal] of a render whose [mode] and [remainingTime]
      were [capturedMode] and [capturedRemainingTime], run on the provider
      in state [st]. *)
Definition startTimerInternalIn (capturedMode : TimerMode) (capturedRemainingTime : Z)
    (s : AppSettings) (now : Z) (st : State) : State :=
  let st :=
    setStartTimeRef
      (Some (now - (getDuration s capturedMode - capturedRemainingTime) * 1000)) st in
  let st := setIsPlaying true st in
  setTimerRef (Interval true) st.

Definition startTimerInternal (s : AppSettings) (now : Z) (st : State) : State :=
  startTimerInternalIn (mode st) (remainingTime st) s now st.

  (** [if (notificationIdRef.current) { cancelNotification; = null }] *)
Definition cancelScheduled (st : State) : State * list Effect :=
  match notificationIdRef st with
  | Some identifier =>
      if String.eqb identifier EmptyString then (st, [])
      else (setNotificationIdRef None st, [CancelNotification identifier])
  | None => (st, [])
  end.

  (** [handleTimerComplete] of the render whose state was [render], run on
      the provider in state [st]: the state cells are read from [render],
      the refs from [st]. *)
Definition handleTimerCompleteIn (render : State) (s : AppSettings) (st : State)
  : State * list Effect :=
  let st := setIsPlaying false st in
  let st := setStartTimeRef None st in
  let '(st, cancelled) := cancelScheduled st in
  let st := setIsAmbientPlaying false st in
  let notified :=
    [PlayAlarmSound (alarmSound s); StopAmbientSound;
     SendImmediateNotification
       (match mode render with focus => true | _ => false end)] in
  match mode render with
  | focus =>
      let newCount := completedPomodoros render + 1 in
      let st := setCompletedPomodoros newCount st in
      let called :=
        match onPomodoroComplete render with
        | Some callback => [CallOnPomodoroComplete callback]
        | None => []
        end in
      let nextMode :=
        if JS.isZero (JS.rem newCount (pomodorosUntilLongBreak (timer s)))
        then longBreak else shortBreak in
      let st := setMode nextMode st in
      let st := setRemainingTime (getDuration s nextMode) st in
      let st := setTimerKey (timerKey st + 1) st in
      (st, cancelled ++ notified ++ called ++
           if autoStartNext (timer s)
           then [SetTimeoutStartTimerInternal (mode render) (remainingTime render)]
           else [])
  | _ =>
      let st := setMode focus st in
      let st := setRemainingTime (getDuration s focus) st in
      let st := setTimerKey (timerKey st + 1) st in
      (st, cancelled ++ notified ++
           if autoStartNext (timer s)
           then [SetTimeoutStartTimerInternal (mode render) (remainingTime render)]
           else [])
  end.

Definition handleTimerComplete (s : AppSettings) (st : State) : State * list Effect :=
  handleTimerCompleteIn st s st.

Definition completePomodoro := handleTimerComplete.

  (** One firing of the interval set by the [startTimerInternal] of the
      render whose state was [render] and whose settings were [s], on the
      provider in state [st].  The callback of [setInterval] is a closure
      of that render: on the last second it runs the [handleTimerComplete]
      of that render, with its mode, count, completion callback and
      settings.  [useCallback] makes a new [startTimerInternal] only in a
      render where [mode], [remainingTime] or [getDuration] changed, so
      [render] is the last such render before the start, not the render
      of the start itself. *)
Definition tick (render : State) (s : AppSettings) (st : State)
  : State * list Effect :=
  match timerRef st with
  | Interval true =>
      if remainingTime st <=? 1 then
        let live := setTimerRef (Interval false) st in
        (* the updater returns 0; the setters of handleTimerComplete run
           after its first await and overwrite it *)
        handleTimerCompleteIn render s (setRemainingTime 0 live)
      else (setRemainingTime (remainingTime st - 1) st, [])
  | _ => (st, [])
  end.

Definition clearTimerRef (st : State) : State :=
  match timerRef st with
  | NoInterval => st
  | Interval _ => setTimerRef NoInterval st
  end.

  (** [startTimer]: [playing] is what [playAmbientSound] answers and
      [scheduled] what [scheduleTimerCompleteNotification] answers. *)
Definition startTimer (s : AppSettings) (now : Z) (playing : bool)
    (scheduled : option string) (st : State) : State * list Effect :=
  let live := startTimerInternal s now st in
  let '(live, played) :=
    if userWantsAmbientRef live
       && match mode st with focus => true | _ => false end
       && match ambientSound s with noAmbient => false | _ => true end
    then (setIsAmbientPlaying playing live, [PlayAmbientSound (ambientSound s)])
    else (live, []) in
  (setNotificationIdRef scheduled live,
   played ++ [ScheduleTimerCompleteNotification (mode st) (remainingTime st)]).

Definition pauseTimer (st : State) : State * list Effect :=
  let st := clearTimerRef st in
  let st := setIsPlaying false st in
  let st := setIsAmbientPlaying false st in
  let '(st, cancelled) := cancelScheduled st in
  (st, PauseAmbientSound :: cancelled).

Definition resetTimer (s : AppSettings) (st : State) : State * list Effect :=
  let m := mode st in
  let st := clearTimerRef st in
  let st := setIsPlaying false st in
  let st := setRemainingTime (getDuration s m) st in
  let st := setTimerKey (timerKey st + 1) st in
  let st := setStartTimeRef None st in
  let st := setUserWantsAmbientRef false st in
  let st := setIsAmbientPlaying false st in
  let '(st, cancelled) := cancelScheduled st in
  (st, StopAmbientSound :: cancelled).

Definition resetSession (s : AppSettings) (st : State) : State * list Effect :=
  let st := clearTimerRef st in
  let st := setCompletedPomodoros 0 st in
  let st := setMode focus st in
  let st := setIsPlaying false st in
  let st := setRemainingTime (getDuration s focus) st in
  let st := setTimerKey (timerKey st + 1) st in
  let st := setStartTimeRef None st in
  let st := setUserWantsAmbientRef false st in
  let st := setIsAmbientPlaying false st in
  let st := setNotificationIdRef None st in
  (st, [StopAmbientSound; CancelAllNotifications]).

  (** The fields of the timer state a user observes, with the pending
      notification. *)
Definition observable (st : State)
  : bool * Z * TimerMode * Z * bool * option string :=
  (isPlaying st, remainingTime st, mode st, completedPomodoros st,
   isAmbientPlaying st, notificationIdRef st).

  (** Completing the running break, when there is one, brings the timer
      back to a focus interval. *)
Definition toFocus (s : AppSettings) (st : State) : State :=
  match mode st with
  | focus => st
  | _ => fst (handleTimerComplete s st)
  end.

  (** The provider after [n] focus intervals were completed one after the
      other, the break between two of them being completed too. *)
Fixpoint focusCompletions (s : AppSettings) (n : nat) (st : State) : State :=
  match n with
  | O => st
  | S m => fst (handleTimerComplete s (toFocus s (focusCompletions s m st)))
  end.

  (** [n] firings of that interval one after the other, and the calls they
      make. *)
Fixpoint ticks (render : State) (s : AppSettings) (n : nat) (st : State)
  : State * list Effect :=
  match n with
  | O => (st, [])
  | S m =>
      let '(st1, first) := tick render s st in
      let '(st2, others) := ticks render s m st1 in
      (st2, first ++ others)
  end.

Inductive NotificationAction := START_BREAK | START_FOCUS | DISMISS.

  (** The listener given to [setActionListener] by the render whose state
      was [render], run on the provider in state [st]: the count and the
      [startTimerInternal] it calls are those of [render]. *)
Definition actionListenerIn (render : State) (s : AppSettings) (now : Z)
    (action : NotificationAction) (st : State) : State :=
  match action with
  | START_BREAK =>
      let newMode :=
        if JS.isZero (JS.rem (completedPomodoros render)
                             (pomodorosUntilLongBreak (timer s)))
        then longBreak else shortBreak in
      let st := setMode newMode st in
      let st := setRemainingTime (getDuration s newMode) st in
      let st := setTimerKey (timerKey st + 1) st in
      startTimerInternalIn (mode render) (remainingTime render) s now st
  | START_FOCUS =>
      let st := setMode focus st in
      let st := setRemainingTime (getDuration s focus) st in
      let st := setTimerKey (timerKey st + 1) st in
      startTimerInternalIn (mode render) (remainingTime render) s now st
  | DISMISS => st
  end.

End Pomodoro.

(** ** FocusScreen: the providers together, the completion callback and the
       timer queue *)
Module FocusScreen.

Inductive Timeout :=
| StartTimerInternal (capturedMode : Pomodoro.TimerMode) (capturedRemainingTime : Z)
| CompleteTask (id : string).

Record World := mkWorld {
  settings : Settings.AppSettings;
  pomodoro : Pomodoro.State;
  taskCtx : Tasks.State;
  insights : Insights.State;
  timeouts : list Timeout;                (* oldest first *)
  serviceCalls : list Pomodoro.Effect     (* oldest first *)
}.

Definition setPomodoro (p : Pomodoro.State) (w : World) : World :=
  {| settings := settings w; pomodoro := p; taskCtx := taskCtx w;
     insights := insights w; timeouts := timeouts w;
     serviceCalls := serviceCalls w |}.

Definition setTaskCtx (t : Tasks.State) (w : World) : World :=
  {| settings := settings w; pomodoro := pomodoro w; taskCtx := t;
     insights := insights w; timeouts := timeouts w;
     serviceCalls := serviceCalls w |}.

Definition setInsights (i : Insights.State) (w : World) : World :=
  {| settings := settings w; pomodoro := pomodoro w; taskCtx := taskCtx w;
     insights := i; timeouts := timeouts w;
     serviceCalls := serviceCalls w |}.

Definition setTimeouts (q : list Timeout) (w : World) : World :=
  {| settings := settings w; pomodoro := pomodoro w; taskCtx := taskCtx w;
     insights := insights w; timeouts := q;
     serviceCalls := serviceCalls w |}.

Definition setServiceCalls (c : list Pomodoro.Effect) (w : World) : World :=
  {| settings := settings w; pomodoro := pomodoro w; taskCtx := taskCtx w;
     insights := insights w; timeouts := timeouts w;
     serviceCalls := c |}.

Definition initialWorld (s : Settings.AppSettings) : World :=
  {| settings := s;
     pomodoro := Pomodoro.initialState s;
     taskCtx := Tasks.initialState;
     insights := Insights.initialState;
     timeouts := [];
     serviceCalls := [] |}.

  (** [currentTask?.category || selectedCategory] *)
Definition effectiveCategory (w : World) : Insights.FocusCategory :=
  match Tasks.currentTask (taskCtx w) with
  | Some task => Tasks.category task
  | None => Insights.selectedCategory (insights w)
  end.

  (** The callback the effect builds in the current render. *)
Definition completionCallback (w : World) : Pomodoro.OnPomodoroComplete :=
  {| Pomodoro.cb_workDuration := Settings.workDuration (Settings.timer (settings w));
     Pomodoro.cb_effectiveCategory := effectiveCategory w;
     Pomodoro.cb_currentTask := Tasks.currentTask (taskCtx w) |}.

  (** The effect that sets up the completion callback. *)
Definition registerCallback (w : World) : World :=
  setPomodoro
    (Pomodoro.setOnPomodoroComplete
       (match Pomodoro.mode (pomodoro w) with
        | Pomodoro.focus => Some (completionCallback w)
        | _ => None
        end)
       (pomodoro w)) w.

  (** The body of the registered callback. *)
Definition runCallback (callback : Pomodoro.OnPomodoroComplete) (now : Z) (w : World)
  : World :=
  let w :=
    setInsights
      (Insights.addSession now
         {| Insights.d_date := Insights.getDateString now;
            Insights.d_duration := Pomodoro.cb_workDuration callback;
            Insights.d_category := Pomodoro.cb_effectiveCategory callback;
            Insights.d_taskId := option_map Tasks.id (Pomodoro.cb_currentTask callback);
            Insights.d_taskTitle :=
              option_map Tasks.title (Pomodoro.cb_currentTask callback) |}
         (insights w)) w in
  match Pomodoro.cb_currentTask callback with
  | Some currentTask =>
      let '(t, queued) := Tasks.incrementPomodoro (Tasks.id currentTask) (taskCtx w) in
      setTimeouts (timeouts w ++ map CompleteTask queued) (setTaskCtx t w)
  | None => w
  end.

Definition perform (now : Z) (w : World) (e : Pomodoro.Effect) : World :=
  match e with
  | Pomodoro.CallOnPomodoroComplete callback => runCallback callback now w
  | Pomodoro.SetTimeoutStartTimerInternal m r =>
      setTimeouts (timeouts w ++ [StartTimerInternal m r]) w
  | _ => setServiceCalls (serviceCalls w ++ [e]) w
  end.

  (** Run a handler of the timer provider in the world. *)
Definition dispatch (now : Z)
    (handler : Settings.AppSettings -> Pomodoro.State ->
               Pomodoro.State * list Pomodoro.Effect)
    (w : World) : World :=
  let '(p, effects) := handler (settings w) (pomodoro w) in
  fold_left (perform now) effects (setPomodoro p w).

Definition handleTimerComplete (now : Z) (w : World) : World :=
  dispatch now Pomodoro.handleTimerComplete w.

  (** One firing of the interval held since the render [render], whose
      settings were [captured], in the world. *)
Definition tick (render : Pomodoro.State) (captured : Settings.AppSettings)
    (now : Z) (w : World) : World :=
  let '(p, effects) := Pomodoro.tick render captured (pomodoro w) in
  fold_left (perform now) effects (setPomodoro p w).

  (** [n] firings, one second apart, the first one second after [start]. *)
Fixpoint ticks (render : Pomodoro.State) (captured : Settings.AppSettings)
    (start : Z) (n : nat) (w : World) : World :=
  match n with
  | O => w
  | S m =>
      ticks render captured (start + 1000) m
        (tick render captured (start + 1000) w)
  end.

Definition runTimeout (now : Z) (w : World) (t : Timeout) : World :=
  match t with
  | StartTimerInternal m r =>
      setPomodoro (Pomodoro.startTimerInternalIn m r (settings w) now (pomodoro w)) w
  | CompleteTask i => setTaskCtx (Tasks.completeTask now i (taskCtx w)) w
  end.

  (** The queued time-outs fire, oldest first. *)
Definition flushTimeouts (now : Z) (w : World) : World :=
  fold_left (runTimeout now) (timeouts w) (setTimeouts [] w).

  (** One session was appended between [w] and [w'], with the work duration,
      the effective category and the selected task of [w]. *)
Definition sessionRecorded (w w' : World) : Prop :=
  exists session,
    Insights.sessions (insights w') = Insights.sessions (insights w) ++ [session]
    /\ Insights.duration session
       = Settings.workDuration (Settings.timer (settings w))
    /\ Insights.category session
       = match Tasks.currentTask (taskCtx w) with
         | Some task => Tasks.category task
         | None => Insights.selectedCategory (insights w)
         end
    /\ Insights.taskId session = option_map Tasks.id (Tasks.currentTask (taskCtx w))
    /\ Insights.taskTitle session
       = option_map Tasks.title (Tasks.currentTask (taskCtx w)).

  (** The selected task of [w], when there is one, is the selected task of
      [w'] with one more completed pomodoro. *)
Definition taskAdvanced (w w' : World) : Prop :=
  forall task,
    Tasks.currentTask (taskCtx w) = Some task ->
    exists task',
      Tasks.currentTask (taskCtx w') = Some task'
      /\ Tasks.id task' = Tasks.id task
      /\ Tasks.title task' = Tasks.title task
      /\ Tasks.pomodorosCompleted task' = Tasks.pomodorosCompleted task + 1.

  (** [sessionStarted]: the pickers of task, category and session count are
      shown only while it is false. *)
Definition sessionStarted (s : Settings.AppSettings) (st : Pomodoro.State) : bool :=
  Pomodoro.isPlaying st
  || (0 <? Pomodoro.completedPomodoros st)
  || (Pomodoro.remainingTime st <? Pomodoro.getDuration s (Pomodoro.mode st)).

  (** [formatTime(seconds)] *)
Definition formatTime (seconds : Z) : string :=
  let minutes := JS.floorDiv seconds 60 in
  let secs := Z.rem seconds 60 in
  (JS.padStart (JS.toString minutes) 2 "0" ++ ":"
   ++ JS.padStart (JS.toString secs) 2 "0")%string.

End FocusScreen.

(** ** TaskManagerScreen: editing and moving tasks *)
Module TaskManagerScreen.

  (** [[l[i], l[i + 1]] = [l[i + 1], l[i]]] on a copy of [l], both positions
      inside the list. *)
Fixpoint swapAt {A : Type} (i : nat) (l : list A) : list A :=
  match i, l with
  | O, a :: b :: rest => b :: a :: rest
  | S j, a :: rest => a :: swapAt j rest
  | _, _ => l
  end.

  (** [handleMoveUp(index)].  The rows call it with their own index; for an
      index past the list the source writes [undefined] into the copy,
      which no list of tasks holds: that case is [None]. *)
Definition handleMoveUp (index : nat) (st : Tasks.State) : option Tasks.State :=
  if (0 <? index)%nat then
    if (index <? List.length (Tasks.tasks st))%nat
    then Some (Tasks.reorderTasks (swapAt (index - 1) (Tasks.tasks st)) st)
    else None
  else Some st.

Definition handleMoveDown (index : nat) (st : Tasks.State) : Tasks.State :=
  if Z.of_nat index <? Z.of_nat (List.length (Tasks.tasks st)) - 1
  then Tasks.reorderTasks (swapAt index (Tasks.tasks st)) st
  else st.

  (** [handleEditTask] with the task being edited, if any. *)
Definition handleEditTask (editingTask : option Tasks.Task) (title description : string)
    (estimate : Z) (category : Insights.FocusCategory) (st : Tasks.State)
  : Tasks.State :=
  match editingTask with
  | Some task =>
      Tasks.updateTask (Tasks.id task)
        {| Tasks.u_id := None;
           Tasks.u_title := Some title;
           Tasks.u_description := Some (Some description);
           Tasks.u_category := Some category;
           Tasks.u_pomodoroEstimate := Some estimate;
           Tasks.u_pomodorosCompleted := None;
           Tasks.u_completed := None;
           Tasks.u_completedAt := None;
           Tasks.u_createdAt := None;
           Tasks.u_order := None |} st
  | None => st
  end.

End TaskManagerScreen.

(** ** InsightsScreen: the totals shown *)
Module InsightsScreen.

Definition totalMinutes (ss : list Insights.FocusSession) : Z :=
  fold_left (fun sum day => sum + Insights.Daily.totalMinutes day)
            (Insights.dailyStats ss) 0.

Definition totalCategoryMinutes (ss : list Insights.FocusSession) : Z :=
  let stats := Insights.categoryStats ss in
  fold_left (fun sum val => sum + val)
            [Insights.cs_work stats; Insights.cs_study stats;
             Insights.cs_personal stats; Insights.cs_health stats;
             Insights.cs_other stats] 0.

End InsightsScreen.

(** ** AudioService: the ambient sound and the alarm *)
Module AudioService.

  (** An [Audio.Sound] object of the player. *)
Definition Sound := nat.

  (** The fields of the service that its methods read; the stored volume is
      only handed on to the player.  Each method runs to its end before the
      next one starts, and what the player answers is an argument. *)
Record State := mkState {
  ambientSound : option Sound;
  alarmSound : option Sound;
  isAmbientPlaying : bool;
  currentAmbientType : Settings.AmbientSound
}.

Definition initialState : State :=
  {| ambientSound := None;
     alarmSound := None;
     isAmbientPlaying := false;
     currentAmbientType := Settings.noAmbient |}.

Definition setIsAmbientPlaying (b : bool) (st : State) : State :=
  {| ambientSound := ambientSound st;
     alarmSound := alarmSound st;
     isAmbientPlaying := b;
     currentAmbientType := currentAmbientType st |}.

Definition setAlarmSound (a : option Sound) (st : State) : State :=
  {| ambientSound := ambientSound st;
     alarmSound := a;
     isAmbientPlaying := isAmbientPlaying st;
     currentAmbientType := currentAmbientType st |}.

  (** [stopAmbientSound]: an error of the player is caught, the fields are
      reset either way. *)
Definition stopAmbientSound (st : State) : State :=
  match ambientSound st with
  | Some _ =>
      {| ambientSound := None;
         alarmSound := alarmSound st;
         isAmbientPlaying := false;
         currentAmbientType := currentAmbientType st |}
  | None => st
  end.

  (** [playAmbientSound(type, volume)]: [created] is the sound
      [Audio.Sound.createAsync] answers, [None] when it throws. *)
Definition playAmbientSound (type : Settings.AmbientSound) (created : option Sound)
    (st : State) : State * bool :=
  match type with
  | Settings.noAmbient => (stopAmbientSound st, false)
  | _ =>
      let st := stopAmbientSound st in
      match created with
      | Some sound =>
          ({| ambientSound := Some sound;
              alarmSound := alarmSound st;
              isAmbientPlaying := true;
              currentAmbientType := type |}, true)
      | None => (st, false)
      end
  end.

Definition onAmbientPlaybackStatusUpdate (isLoaded : bool) (st : State) : State :=
  if negb isLoaded then setIsAmbientPlaying false st else st.

  (** [pauseAmbientSound]: [paused] tells whether [pauseAsync] resolved. *)
Definition pauseAmbientSound (paused : bool) (st : State) : State :=
  match ambientSound st with
  | Some _ =>
      if isAmbientPlaying st
      then if paused then setIsAmbientPlaying false st else st
      else st
  | None => st
  end.

  (** [resumeAmbientSound]: [resumed] tells whether [playAsync] resolved. *)
Definition resumeAmbientSound (resumed : bool) (st : State) : State :=
  match ambientSound st with
  | Some _ =>
      if negb (isAmbientPlaying st)
      then if resumed then setIsAmbientPlaying true st else st
      else st
  | None => st
  end.

  (** [playAlarmSound(type)]: [unloaded] tells whether unloading the
      previous alarm resolved, [created] is the sound [createAsync]
      answers. *)
Definition playAlarmSound (type : Settings.AlarmSound) (unloaded : bool)
    (created : option Sound) (st : State) : State :=
  match type with
  | Settings.noAlarm => st
  | _ =>
      if match alarmSound st with Some _ => unloaded | None => true end
      then match created with
           | Some sound => setAlarmSound (Some sound) st
           | None => st
           end
      else st
  end.

  (** The status handler [playAlarmSound] gives to the sound it created. *)
Definition onAlarmPlaybackStatusUpdate (isLoaded didJustFinish : bool) (st : State)
  : State :=
  if isLoaded && didJustFinish then setAlarmSound None st else st.

Definition cleanup (st : State) : State :=
  let st := stopAmbientSound st in
  match alarmSound st with
  | Some _ => setAlarmSound None st
  | None => st
  end.

  (** A call of a method, or of a status handler by the player, with what
      the player answers. *)
Inductive Call :=
| PlayAmbientSound (type : Settings.AmbientSound) (created : option Sound)
| StopAmbientSound
| AmbientStatus (isLoaded : bool)
| PauseAmbientSound (paused : bool)
| ResumeAmbientSound (resumed : bool)
| PlayAlarmSound (type : Settings.AlarmSound) (unloaded : bool) (created : option Sound)
| AlarmStatus (isLoaded didJustFinish : bool)
| Cleanup.

Definition call (st : State) (c : Call) : State :=
  match c with
  | PlayAmbientSound type created => fst (playAmbientSound type created st)
  | StopAmbientSound => stopAmbientSound st
  | AmbientStatus isLoaded => onAmbientPlaybackStatusUpdate isLoaded st
  | PauseAmbientSound paused => pauseAmbientSound paused st
  | ResumeAmbientSound resumed => resumeAmbientSound resumed st
  | PlayAlarmSound type unloaded created => playAlarmSound type unloaded created st
  | AlarmStatus isLoaded didJustFinish =>
      onAlarmPlaybackStatusUpdate isLoaded didJustFinish st
  | Cleanup => cleanup st
  end.

  (** The service after the calls [cs], made on the fresh service. *)
Definition after (cs : list Call) : State := fold_left call cs initialState.

End AudioService.

(** ** PurchaseService in its mock mode *)
Module PurchaseService.

Module Info.

Record PurchaserInfo := mkPurchaserInfo {
  isPremium : bool;
  activeSubscriptions : list string;
  expirationDate : option string;
  originalPurchaseDate : option string
}.

End Info.

Inductive Period := monthly | annual.

Record SubscriptionProduct := mkSubscriptionProduct {
  identifier : string;
  title : string;
  description : string;
  price : string;
  priceString : string;
  period : Period;
  currencyCode : string
}.

  (** [PRODUCT_IDS] *)
Definition MONTHLY : string := "premium_monthly".
Definition ANNUAL : string := "premium_annual".

Definition MOCK_PRODUCTS : list SubscriptionProduct :=
  [ {| identifier := MONTHLY;
       title := "Premium Monthly";
       description := "Unlock all premium features";
       price := "4.99";
       priceString := "$4.99/month";
       period := monthly;
       currencyCode := "USD" |};
    {| identifier := ANNUAL;
       title := "Premium Annual";
       description := "Save 40% with annual billing";
       price := "35.99";
       priceString := "$35.99/year";
       period := annual;
       currencyCode := "USD" |} ].

  (** [{ success: boolean; error?: string }] *)
Record Result := mkResult {
  success : bool;
  error : option string
}.

Record State := mkState {
  isInitialized : bool;
  purchaserInfo : option Info.PurchaserInfo
}.

Definition initialState : State :=
  {| isInitialized := false; purchaserInfo := None |}.

  (** The record written where no subscription is active. *)
Definition notPremium : Info.PurchaserInfo :=
  {| Info.isPremium := false;
     Info.activeSubscriptions := [];
     Info.expirationDate := None;
     Info.originalPurchaseDate := None |}.

  (** [isPremium()]: [this.purchaserInfo?.isPremium ?? false] *)
Definition isPremium (st : State) : bool :=
  match purchaserInfo st with
  | Some info => Info.isPremium info
  | None => false
  end.

End PurchaseService.

(** ** PremiumContext: the provider and the service it listens to *)
Module Premium.

Record State := mkState {
  isPremium : bool;
  isLoading : bool;
  purchaserInfo : option PurchaseService.Info.PurchaserInfo;
  products : list PurchaseService.SubscriptionProduct
}.

Definition initialState : State :=
  {| isPremium := false; isLoading := true; purchaserInfo := None; products := [] |}.

Definition setIsLoading (b : bool) (p : State) : State :=
  {| isPremium := isPremium p; isLoading := b; purchaserInfo := purchaserInfo p;
     products := products p |}.

Definition setProducts (l : list PurchaseService.SubscriptionProduct) (p : State)
  : State :=
  {| isPremium := isPremium p; isLoading := isLoading p;
     purchaserInfo := purchaserInfo p; products := l |}.

  (** The listener the provider registers. *)
Definition listener (info : PurchaseService.Info.PurchaserInfo) (p : State) : State :=
  {| isPremium := PurchaseService.Info.isPremium info;
     isLoading := isLoading p;
     purchaserInfo := Some info;
     products := products p |}.

  (** The service, the [@premium_status] item of the store as the record it
      parses to, whether the listener of the provider is among the
      listeners of the service, and the provider.  A method runs to its end
      before the next one starts; whether the store fails, and the dates
      computed from the clock, are arguments. *)
Record World := mkWorld {
  service : PurchaseService.State;
  item : option PurchaseService.Info.PurchaserInfo;
  listening : bool;
  provider : State
}.

Definition initialWorld (item : option PurchaseService.Info.PurchaserInfo) : World :=
  {| service := PurchaseService.initialState;
     item := item;
     listening := false;
     provider := initialState |}.

Definition setProvider (p : State) (w : World) : World :=
  {| service := service w; item := item w; listening := listening w; provider := p |}.

Definition setItem (i : option PurchaseService.Info.PurchaserInfo) (w : World) : World :=
  {| service := service w; item := i; listening := listening w;
     provider := provider w |}.

Definition setListening (b : bool) (w : World) : World :=
  {| service := service w; item := item w; listening := b; provider := provider w |}.

Definition setPurchaserInfo (info : PurchaseService.Info.PurchaserInfo) (w : World)
  : World :=
  {| service :=
       {| PurchaseService.isInitialized := PurchaseService.isInitialized (service w);
          PurchaseService.purchaserInfo := Some info |};
     item := item w; listening := listening w; provider := provider w |}.

Definition setIsInitialized (b : bool) (w : World) : World :=
  {| service :=
       {| PurchaseService.isInitialized := b;
          PurchaseService.purchaserInfo := PurchaseService.purchaserInfo (service w) |};
     item := item w; listening := listening w; provider := provider w |}.

Definition notifyListeners (w : World) : World :=
  match PurchaseService.purchaserInfo (service w) with
  | Some info =>
      if listening w then setProvider (listener info (provider w)) w else w
  | None => w
  end.

  (** [loadMockStatus]: [readFails] when reading the store throws. *)
Definition loadMockStatus (readFails : bool) (w : World) : World :=
  if readFails then setPurchaserInfo PurchaseService.notPremium w
  else
    let w :=
      match item w with
      | Some data => setPurchaserInfo data w
      | None => setPurchaserInfo PurchaseService.notPremium w
      end in
    notifyListeners w.

Definition initialize (readFails : bool) (w : World) : World :=
  if PurchaseService.isInitialized (service w) then w
  else setIsInitialized true (loadMockStatus readFails w).

  (** [saveMockStatus]: [writeFails] when writing the store throws. *)
Definition saveMockStatus (writeFails : bool) (w : World) : World :=
  if writeFails then w
  else
    match PurchaseService.purchaserInfo (service w) with
    | Some info => setItem (Some info) w
    | None => w                    (* both callers have set the record *)
    end.

Definition addPurchaserInfoListener (w : World) : World :=
  let w := setListening true w in
  match PurchaseService.purchaserInfo (service w) with
  | Some info => setProvider (listener info (provider w)) w
  | None => w
  end.

  (** [purchaseProduct(productId)]: [inAMonth], [inAYear] and [now] are the
      ISO strings of the clock a month ahead, a year ahead and as it is. *)
Definition purchaseProduct (productId inAMonth inAYear now : string)
    (writeFails : bool) (w : World) : World * PurchaseService.Result :=
  match find (fun p => String.eqb (PurchaseService.identifier p) productId)
             PurchaseService.MOCK_PRODUCTS with
  | None =>
      (w, {| PurchaseService.success := false;
             PurchaseService.error := Some "Product not found"%string |})
  | Some product =>
      let expirationDate :=
        match PurchaseService.period product with
        | PurchaseService.annual => inAYear
        | PurchaseService.monthly => inAMonth
        end in
      let w :=
        setPurchaserInfo
          {| PurchaseService.Info.isPremium := true;
             PurchaseService.Info.activeSubscriptions := [productId];
             PurchaseService.Info.expirationDate := Some expirationDate;
             PurchaseService.Info.originalPurchaseDate := Some now |} w in
      let w := saveMockStatus writeFails w in
      (notifyListeners w,
       {| PurchaseService.success := true; PurchaseService.error := None |})
  end.

Definition restorePurchases (w : World) : World * PurchaseService.Result :=
  (w, {| PurchaseService.success := true; PurchaseService.error := None |}).

Definition toggleMockPremium (inAMonth now : string) (writeFails : bool) (w : World)
  : World :=
  let w :=
    if PurchaseService.isPremium (service w)
    then setPurchaserInfo PurchaseService.notPremium w
    else
      setPurchaserInfo
        {| PurchaseService.Info.isPremium := true;
           PurchaseService.Info.activeSubscriptions := [PurchaseService.MONTHLY];
           PurchaseService.Info.expirationDate := Some inAMonth;
           PurchaseService.Info.originalPurchaseDate := Some now |} w in
  notifyListeners (saveMockStatus writeFails w).

  (** The effect of the provider at mount: [initialize()] runs up to its
      first [await], the listener is registered, then the load ends. *)
Definition mount (readFails : bool) (w : World) : World :=
  let w := setProvider (setIsLoading true (provider w)) w in
  let w := addPurchaserInfoListener w in
  let w := initialize readFails w in
  let w := setProvider (setProducts PurchaseService.MOCK_PRODUCTS (provider w)) w in
  setProvider (setIsLoading false (provider w)) w.

  (** [purchase] and [restore] of the provider. *)
Definition purchase (productId inAMonth inAYear now : string) (writeFails : bool)
    (w : World) : World * PurchaseService.Result :=
  let w := setProvider (setIsLoading true (provider w)) w in
  let '(w, result) := purchaseProduct productId inAMonth inAYear now writeFails w in
  (setProvider (setIsLoading false (provider w)) w, result).

Definition restore (w : World) : World * PurchaseService.Result :=
  let w := setProvider (setIsLoading true (provider w)) w in
  let '(w, result) := restorePurchases w in
  (setProvider (setIsLoading false (provider w)) w, result).

  (** [FREE_TIER_LIMITS.ambientSounds.includes(soundId)] for a free user. *)
Definition canUseAmbientSound (p : State) (soundId : string) : bool :=
  if isPremium p then true
  else existsb (String.eqb soundId) ["rain"%string; "forest"%string].

  (** What the screens ask of the provider. *)
Inductive Call :=
| Purchase (productId inAMonth inAYear now : string) (writeFails : bool)
| Restore
| ToggleMockPremium (inAMonth now : string) (writeFails : bool).

Definition call (w : World) (c : Call) : World :=
  match c with
  | Purchase productId inAMonth inAYear now writeFails =>
      fst (purchase productId inAMonth inAYear now writeFails w)
  | Restore => fst (restore w)
  | ToggleMockPremium inAMonth now writeFails =>
      toggleMockPremium inAMonth now writeFails w
  end.

  (** The application started on the store item [i], then the calls [cs]. *)
Definition after (i : option PurchaseService.Info.PurchaserInfo) (readFails : bool)
    (cs : list Call) : World :=
  fold_left call cs (mount readFails (initialWorld i)).

  (** The provider listens, is not loading, and has the premium flag of the
      record the initialised service holds. *)
Definition mirrors (w : World) : Prop :=
  listening w = true
  /\ isLoading (provider w) = false
  /\ PurchaseService.isInitialized (service w) = true
  /\ exists info,
       PurchaseService.purchaserInfo (service w) = Some info
       /\ isPremium (provider w) = PurchaseService.Info.isPremium info.

End Premium.

(** * Properties *)

(** ** Durations are clamped when a row loses the focus *)

Example parseInt_digits : JS.parseInt "200" = Some 200.
Proof. reflexivity. Qed.

Example parseInt_prefix : JS.parseInt " -12.7" = Some (-12).
Proof. reflexivity. Qed.

Example parseInt_NaN : JS.parseInt "min" = None.
Proof. reflexivity. Qed.

Lemma value_onChange (f : SettingsScreen.DurationField) (v : Z)
    (s : Settings.AppSettings) :
  SettingsScreen.value f (SettingsScreen.onChange f v s) = v.
Proof. destruct f; reflexivity. Qed.

Lemma handleBlurNum_range (inputValue : string) (value : Z) :
  1 <= SettingsScreen.handleBlurNum inputValue value <= 90.
Proof. unfold SettingsScreen.handleBlurNum. lia. Qed.

(** The plus and minus buttons keep a duration inside 1..90 when it was
    inside before. *)
Lemma buttons_keep_range (f : SettingsScreen.DurationField) (s : Settings.AppSettings) :
  1 <= SettingsScreen.value f s <= 90 ->
  1 <= SettingsScreen.value f (snd (SettingsScreen.pressMinus f s)) <= 90 /\
  1 <= SettingsScreen.value f (snd (SettingsScreen.pressPlus f s)) <= 90.
Proof.
  intros H. unfold SettingsScreen.pressMinus, SettingsScreen.pressPlus. simpl.
  rewrite !value_onChange. lia.
Qed.

(** C6: whatever is typed into a duration row (work, short break, long
    break), the value stored on blur lies in 1..90; a typed number [r] is
    stored as [r] clamped to that range; for the work duration, typing 0
    stores 1 and typing 200 stores 90. *)
Theorem handleBlur_clamps (f : SettingsScreen.DurationField) (inputValue : string)
    (s : Settings.AppSettings) :
  let stored := SettingsScreen.value f (snd (SettingsScreen.handleBlur f inputValue s)) in
  1 <= stored <= 90
  /\ (forall r, JS.parseInt inputValue = Some r ->
        stored = if r <? 1 then 1 else if 90 <? r then 90 else r)
  /\ Settings.workDuration
       (Settings.timer (snd (SettingsScreen.handleBlur SettingsScreen.WorkDuration "0" s))) = 1
  /\ Settings.workDuration
       (Settings.timer (snd (SettingsScreen.handleBlur SettingsScreen.WorkDuration "200" s))) = 90.
Proof.
  cbv zeta. unfold SettingsScreen.handleBlur. cbn [snd].
  rewrite value_onChange. split; [apply handleBlurNum_range|].
  split; [|split; reflexivity].
  intros r Hr. unfold SettingsScreen.handleBlurNum. rewrite Hr.
  destruct (r <? 1) eqn:E1; [apply Z.ltb_lt in E1; lia|].
  apply Z.ltb_ge in E1.
  destruct (90 <? r) eqn:E2; [apply Z.ltb_lt in E2|apply Z.ltb_ge in E2]; lia.
Qed.

Lemma handleBlur_clamps_witness :
  SettingsScreen.value SettingsScreen.ShortBreak
    (snd (SettingsScreen.handleBlur SettingsScreen.ShortBreak "120"
            Settings.defaultSettings)) = 90.
Proof.
  exact (proj1 (proj2
           (handleBlur_clamps SettingsScreen.ShortBreak "120" Settings.defaultSettings))
         120 eq_refl).
Defined.

(** ** The persisted snapshot *)

(** C7: in the snapshot [saveTimerState] writes, [startedAt] and
    [pausedAt] are never both set: [startedAt] is null unless the timer is
    playing and [pausedAt] is null unless it is not. *)
Theorem saveTimerState_markers_exclusive (now : Z) (st : Pomodoro.State) :
  let snap := Pomodoro.saveTimerState now st in
  (Pomodoro.Snapshot.startedAt snap = None \/ Pomodoro.Snapshot.pausedAt snap = None)
  /\ (Pomodoro.Snapshot.startedAt snap = None \/ Pomodoro.Snapshot.isPlaying snap = true)
  /\ (Pomodoro.Snapshot.pausedAt snap = None \/ Pomodoro.Snapshot.isPlaying snap = false).
Proof.
  unfold Pomodoro.saveTimerState; simpl.
  destruct (Pomodoro.isPlaying st); simpl; auto.
Qed.

(** ** Pause *)

Lemma cancelScheduled_twice (st : Pomodoro.State) :
  fst (Pomodoro.cancelScheduled (fst (Pomodoro.cancelScheduled st)))
  = fst (Pomodoro.cancelScheduled st).
Proof.
  unfold Pomodoro.cancelScheduled.
  destruct (Pomodoro.notificationIdRef st) as [i|] eqn:E.
  - destruct (String.eqb i EmptyString) eqn:Ei; simpl.
    + rewrite E, Ei. reflexivity.
    + reflexivity.
  - simpl. rewrite E. reflexivity.
Qed.

(** C9: pausing twice leaves the provider, and so the fields a user
    observes, as pausing once does. *)
Theorem pauseTimer_idempotent (st : Pomodoro.State) :
  let once := fst (Pomodoro.pauseTimer st) in
  let twice := fst (Pomodoro.pauseTimer once) in
  twice = once /\ Pomodoro.observable twice = Pomodoro.observable once.
Proof.
  cbv zeta.
  assert (H : fst (Pomodoro.pauseTimer (fst (Pomodoro.pauseTimer st)))
              = fst (Pomodoro.pauseTimer st)).
  { destruct st as [pl k m c tg r amb ld cb tr nid stt uw].
    unfold Pomodoro.pauseTimer, Pomodoro.clearTimerRef, Pomodoro.cancelScheduled.
    destruct tr; destruct nid as [i|]; simpl;
      try destruct (String.eqb i EmptyString) eqn:Ei; simpl;
      try rewrite Ei; reflexivity. }
  rewrite H. split; reflexivity.
Qed.

(** A running timer with a scheduled notification is changed by the first
    pause: the interval is gone and the notification is cancelled. *)
Example pauseTimer_running :
  let running :=
    fst (Pomodoro.startTimer Settings.defaultSettings 1000 false (Some "n1"%string)
           (Pomodoro.initialState Settings.defaultSettings)) in
  Pomodoro.isPlaying running = true
  /\ Pomodoro.isPlaying (fst (Pomodoro.pauseTimer running)) = false
  /\ Pomodoro.notificationIdRef (fst (Pomodoro.pauseTimer running)) = None
  /\ snd (Pomodoro.pauseTimer running)
     = [Pomodoro.PauseAmbientSound; Pomodoro.CancelNotification "n1"%string].
Proof. repeat split. Qed.

(** ** The focus and break cycle *)








Example focusCompletions_third :
  Pomodoro.mode (Pomodoro.focusCompletions Settings.defaultSettings 3
                   (Pomodoro.initialState Settings.defaultSettings))
  = Pomodoro.shortBreak.
Proof. reflexivity. Qed.

(** ** Loading the snapshot on a cold start *)

(** The [startedAt] of a snapshot is the anchor [startTimerInternal]
    wrote: the clock minus the part of the interval that had run.  It is 0
    on one clock reading only, and it is positive on every clock later than
    that part, which for durations of at most 90 minutes is every clock
    after 01:30 on 1 January 1970. *)
Lemma startTimerInternalIn_anchor (capturedMode : Pomodoro.TimerMode)
    (capturedRemainingTime : Z) (s : Settings.AppSettings) (now tsave : Z)
    (st : Pomodoro.State) :
  let run := (Pomodoro.getDuration s capturedMode - capturedRemainingTime) * 1000 in
  let snap :=
    Pomodoro.saveTimerState tsave
      (Pomodoro.startTimerInternalIn capturedMode capturedRemainingTime s now st) in
  Pomodoro.Snapshot.isPlaying snap = true
  /\ Pomodoro.Snapshot.startedAt snap = Some (now - run)
  /\ (now - run = 0 <-> now = run)
  /\ (run < now -> 0 < now - run)
  /\ (0 <= capturedRemainingTime ->
      Pomodoro.getDuration s capturedMode <= 5400 ->
      5400000 < now -> 0 < now - run).
Proof.
  cbv zeta. unfold Pomodoro.saveTimerState, Pomodoro.startTimerInternalIn. cbn.
  repeat split; intros; lia.
Qed.

(** C2: a persisted snapshot that was playing, with a [startedAt] and with
    at least [remainingTime] seconds elapsed since, loads on a cold start
    as remaining time 0, not playing, and the stored mode and count: no
    mode advance, no count increment.  [startedAt] is a time stamp the
    program wrote with [startTimerInternal], which is not 0 on any clock
    after 01:30 on 1 January 1970 ([startTimerInternalIn_anchor]); the
    source tests it for truthiness. *)
Theorem loadTimerState_elapsed (s : Settings.AppSettings) (now : Z)
    (snap : Pomodoro.Snapshot.TimerState) (startedAt : Z) :
  Pomodoro.Snapshot.isPlaying snap = true ->
  Pomodoro.Snapshot.startedAt snap = Some startedAt ->
  startedAt <> 0 ->
  Pomodoro.Snapshot.remainingTime snap <= JS.floorDiv (now - startedAt) 1000 ->
  let st' := Pomodoro.loadTimerState s now (Some snap) (Pomodoro.initialState s) in
  Pomodoro.remainingTime st' = 0
  /\ Pomodoro.isPlaying st' = false
  /\ Pomodoro.mode st' = Pomodoro.Snapshot.mode snap
  /\ Pomodoro.completedPomodoros st' = Pomodoro.Snapshot.completedPomodoros snap.
Proof.
  intros Hp Hs Hz He. unfold Pomodoro.loadTimerState.
  rewrite Hp, Hs. unfold Pomodoro.truthy.
  destruct (startedAt =? 0) eqn:E0; [apply Z.eqb_eq in E0; contradiction|].
  destruct (0 <? _) eqn:E1; [apply Z.ltb_lt in E1; lia|].
  repeat split.
Qed.

Lemma loadTimerState_elapsed_witness :
  let s := Settings.defaultSettings in
  let snap :=
    Pomodoro.saveTimerState 1700000000000
      (Pomodoro.startTimerInternal s 1700000000000 (Pomodoro.initialState s)) in
  let st' := Pomodoro.loadTimerState s 1700001500000 (Some snap)
               (Pomodoro.initialState s) in
  Pomodoro.remainingTime st' = 0
  /\ Pomodoro.isPlaying st' = false
  /\ Pomodoro.mode st' = Pomodoro.focus
  /\ Pomodoro.completedPomodoros st' = 0.
Proof.
  intros s snap.
  apply (loadTimerState_elapsed s 1700001500000 snap 1700000000000).
  - reflexivity.
  - reflexivity.
  - discriminate.
  - vm_compute. discriminate.
Defined.

(** ** The task lists *)

Lemma occurrences_app (i : string) (l1 l2 : list Tasks.Task) :
  Tasks.occurrences i (l1 ++ l2)
  = (Tasks.occurrences i l1 + Tasks.occurrences i l2)%nat.
Proof.
  unfold Tasks.occurrences. rewrite filter_app, length_app. reflexivity.
Qed.

Lemma occurrences_none (i : string) (l : list Tasks.Task) :
  Tasks.occurrences i l = 0%nat <-> Forall (fun x => Tasks.hasId i x = false) l.
Proof.
  unfold Tasks.occurrences. induction l as [|x l IH]; simpl.
  - split; auto.
  - destruct (Tasks.hasId i x) eqn:E; simpl.
    + split; [discriminate|]. intros H. inversion H; congruence.
    + rewrite IH. split; intros H; [constructor; assumption|].
      inversion H; assumption.
Qed.

Lemma hasId_self (t : Tasks.Task) : Tasks.hasId (Tasks.id t) t = true.
Proof. unfold Tasks.hasId. apply String.eqb_refl. Qed.

Lemma hasId_eq (i : string) (t : Tasks.Task) :
  Tasks.hasId i t = true -> Tasks.id t = i.
Proof. unfold Tasks.hasId. apply String.eqb_eq. Qed.

(** A task whose id occurs once in a list splits the list in two parts
    that do not hold the id. *)
Lemma unique_split (t : Tasks.Task) (l : list Tasks.Task) :
  In t l ->
  Tasks.occurrences (Tasks.id t) l = 1%nat ->
  exists l1 l2,
    l = l1 ++ t :: l2
    /\ Forall (fun x => Tasks.hasId (Tasks.id t) x = false) l1
    /\ Forall (fun x => Tasks.hasId (Tasks.id t) x = false) l2.
Proof.
  intros Hin Hocc. destruct (in_split _ _ Hin) as [l1 [l2 ->]].
  exists l1, l2. split; [reflexivity|].
  rewrite occurrences_app in Hocc.
  change (t :: l2) with ([t] ++ l2) in Hocc. rewrite occurrences_app in Hocc.
  assert (Ht : Tasks.occurrences (Tasks.id t) [t] = 1%nat).
  { unfold Tasks.occurrences. simpl. rewrite hasId_self. reflexivity. }
  rewrite Ht in Hocc.
  split; apply occurrences_none; lia.
Qed.

Lemma find_skip (i : string) (l1 l2 : list Tasks.Task) (t : Tasks.Task) :
  Forall (fun x => Tasks.hasId i x = false) l1 ->
  Tasks.hasId i t = true ->
  find (Tasks.hasId i) (l1 ++ t :: l2) = Some t.
Proof.
  intros H Ht. induction H as [|x l Hx _ IH]; simpl.
  - rewrite Ht. reflexivity.
  - rewrite Hx. assumption.
Qed.

Lemma filter_others (i : string) (l : list Tasks.Task) :
  Forall (fun x => Tasks.hasId i x = false) l ->
  filter (fun task => negb (Tasks.hasId i task)) l = l.
Proof.
  intros H. induction H as [|x l Hx _ IH]; simpl; [reflexivity|].
  rewrite Hx. simpl. congruence.
Qed.

Lemma filter_split (i : string) (l1 l2 : list Tasks.Task) (t : Tasks.Task) :
  Forall (fun x => Tasks.hasId i x = false) l1 ->
  Forall (fun x => Tasks.hasId i x = false) l2 ->
  Tasks.hasId i t = true ->
  filter (fun task => negb (Tasks.hasId i task)) (l1 ++ t :: l2) = l1 ++ l2.
Proof.
  intros H1 H2 Ht. rewrite filter_app. simpl. rewrite Ht. simpl.
  rewrite !filter_others by assumption. reflexivity.
Qed.

Lemma not_in_others (t : Tasks.Task) (l : list Tasks.Task) :
  Forall (fun x => Tasks.hasId (Tasks.id t) x = false) l -> ~ In t l.
Proof.
  intros H Hin. rewrite Forall_forall in H. specialize (H t Hin).
  rewrite hasId_self in H. discriminate.
Qed.

Lemma nodup_occurrences (t : Tasks.Task) (l : list Tasks.Task) :
  NoDup (map Tasks.id l) -> In t l -> Tasks.occurrences (Tasks.id t) l = 1%nat.
Proof.
  intros Hn Hin. destruct (in_split _ _ Hin) as [l1 [l2 ->]].
  rewrite map_app in Hn. cbn [map] in Hn.
  pose proof (NoDup_remove_2 _ _ _ Hn) as Hnot.
  assert (Hz : forall l', incl l' (l1 ++ l2) ->
                 Tasks.occurrences (Tasks.id t) l' = 0%nat).
  { intros l' Hl'. apply occurrences_none, Forall_forall. intros x Hx.
    destruct (Tasks.hasId (Tasks.id t) x) eqn:E; [|reflexivity].
    exfalso. apply Hnot. apply hasId_eq in E. rewrite <- E, <- map_app.
    apply in_map. apply Hl'. assumption. }
  rewrite occurrences_app. change (t :: l2) with ([t] ++ l2).
  rewrite occurrences_app, (Hz l1), (Hz l2).
  - unfold Tasks.occurrences. simpl. rewrite hasId_self. reflexivity.
  - apply incl_appr, incl_refl.
  - apply incl_appl, incl_refl.
Qed.

Lemma uniqueIds_archive_free (st : Tasks.State) (t : Tasks.Task) :
  Tasks.uniqueIds st -> In t (Tasks.tasks st) ->
  Tasks.occurrences (Tasks.id t) (Tasks.tasks st) = 1%nat
  /\ Forall (fun x => Tasks.hasId (Tasks.id t) x = false) (Tasks.archivedTasks st).
Proof.
  unfold Tasks.uniqueIds. intros H Hin.
  pose proof (nodup_occurrences t _ H (in_or_app _ _ _ (or_introl Hin))) as Hocc.
  rewrite occurrences_app in Hocc.
  assert (H1 : Tasks.occurrences (Tasks.id t) (Tasks.tasks st) = 1%nat).
  { apply nodup_occurrences; [|assumption].
    rewrite map_app in H. eapply NoDup_app_remove_r. exact H. }
  split; [assumption|]. apply occurrences_none. lia.
Qed.

Lemma uniqueIds_active_free (st : Tasks.State) (t : Tasks.Task) :
  Tasks.uniqueIds st -> In t (Tasks.archivedTasks st) ->
  Tasks.occurrences (Tasks.id t) (Tasks.archivedTasks st) = 1%nat
  /\ Forall (fun x => Tasks.hasId (Tasks.id t) x = false) (Tasks.tasks st).
Proof.
  unfold Tasks.uniqueIds. intros H Hin.
  pose proof (nodup_occurrences t _ H (in_or_app _ _ _ (or_intror Hin))) as Hocc.
  rewrite occurrences_app in Hocc.
  assert (H1 : Tasks.occurrences (Tasks.id t) (Tasks.archivedTasks st) = 1%nat).
  { apply nodup_occurrences; [|assumption].
    rewrite map_app in H. eapply NoDup_app_remove_l. exact H. }
  split; [assumption|]. apply occurrences_none. lia.
Qed.

(** [restoreTask] on an archived task whose id occurs once in the
    archive. *)
Lemma restoreTask_once (st : Tasks.State) (t : Tasks.Task) :
  In t (Tasks.archivedTasks st) ->
  Tasks.occurrences (Tasks.id t) (Tasks.archivedTasks st) = 1%nat ->
  let st' := Tasks.restoreTask (Tasks.id t) st in
  exists restored before after,
    Tasks.tasks st' = Tasks.tasks st ++ [restored]
    /\ Tasks.archivedTasks st = before ++ t :: after
    /\ Tasks.archivedTasks st' = before ++ after
    /\ ~ In t (Tasks.archivedTasks st')
    /\ Tasks.pomodorosCompleted restored = 0
    /\ Tasks.completed restored = false
    /\ Tasks.completedAt restored = None
    /\ Tasks.id restored = Tasks.id t
    /\ Tasks.title restored = Tasks.title t
    /\ Tasks.description restored = Tasks.description t
    /\ Tasks.category restored = Tasks.category t
    /\ Tasks.pomodoroEstimate restored = Tasks.pomodoroEstimate t
    /\ Tasks.createdAt restored = Tasks.createdAt t.
Proof.
  intros Hin Hocc.
  destruct (unique_split t _ Hin Hocc) as [l1 [l2 [Hl [H1 H2]]]].
  unfold Tasks.restoreTask. rewrite Hl.
  rewrite (find_skip _ l1 l2 t H1 (hasId_self t)).
  rewrite (filter_split _ l1 l2 t H1 H2 (hasId_self t)). cbn.
  eexists; exists l1, l2.
  split; [reflexivity|]. split; [reflexivity|]. split; [reflexivity|].
  split.
  { intros Hc. apply in_app_or in Hc.
    destruct Hc as [Hc|Hc];
      [exact (not_in_others t l1 H1 Hc) | exact (not_in_others t l2 H2 Hc)]. }
  cbn. repeat split.
Qed.

(** C8: the ids of the tasks being distinct, as the operations on the
    lists keep them, [restoreTask] on an archived task removes it from the
    archive and appends it to the end of the active list with
    [pomodorosCompleted] 0, [completed] false and no [completedAt]; the
    other tasks of both lists stay as they are, and the id is now the id of
    one active task and of no archived one. *)
Theorem restoreTask_restores (st : Tasks.State) (t : Tasks.Task) :
  Tasks.uniqueIds st ->
  In t (Tasks.archivedTasks st) ->
  let st' := Tasks.restoreTask (Tasks.id t) st in
  exists restored before after,
    Tasks.tasks st' = Tasks.tasks st ++ [restored]
    /\ Tasks.archivedTasks st = before ++ t :: after
    /\ Tasks.archivedTasks st' = before ++ after
    /\ ~ In t (Tasks.archivedTasks st')
    /\ Tasks.occurrences (Tasks.id t) (Tasks.archivedTasks st') = 0%nat
    /\ Tasks.occurrences (Tasks.id t) (Tasks.tasks st') = 1%nat
    /\ Tasks.pomodorosCompleted restored = 0
    /\ Tasks.completed restored = false
    /\ Tasks.completedAt restored = None
    /\ Tasks.id restored = Tasks.id t
    /\ Tasks.title restored = Tasks.title t
    /\ Tasks.description restored = Tasks.description t
    /\ Tasks.category restored = Tasks.category t
    /\ Tasks.pomodoroEstimate restored = Tasks.pomodoroEstimate t
    /\ Tasks.createdAt restored = Tasks.createdAt t.
Proof.
  intros Hu Hin. destruct (uniqueIds_active_free st t Hu Hin) as [Hocc Hact].
  destruct (restoreTask_once st t Hin Hocc)
    as (restored & before & after & H1 & H2 & H3 & H4 & H5 & H6 & H7 & H8 & Hrest).
  cbv zeta. exists restored, before, after.
  split; [exact H1|]. split; [exact H2|]. split; [exact H3|]. split; [exact H4|].
  split.
  { rewrite H3. rewrite H2, occurrences_app in Hocc.
    change (t :: after) with ([t] ++ after) in Hocc.
    rewrite occurrences_app in Hocc. rewrite occurrences_app.
    assert (Ht : Tasks.occurrences (Tasks.id t) [t] = 1%nat).
    { unfold Tasks.occurrences. simpl. rewrite hasId_self. reflexivity. }
    lia. }
  split.
  { rewrite H1, occurrences_app. apply occurrences_none in Hact. rewrite Hact.
    unfold Tasks.occurrences. cbn [filter]. unfold Tasks.hasId.
    rewrite H8. rewrite String.eqb_refl. reflexivity. }
  split; [exact H5|]. split; [exact H6|]. split; [exact H7|]. split; [exact H8|].
  exact Hrest.
Qed.

Lemma restoreTask_restores_witness :
  let st :=
    Tasks.completeTask 1700000900000 "1700000000000"
      (Tasks.addTask 1700000000500 "notes" None 1 Insights.work
         (Tasks.addTask 1700000000000 "essay" None 2 Insights.study
            Tasks.initialState)) in
  exists done restored,
    Tasks.archivedTasks st = [done]
    /\ Tasks.tasks (Tasks.restoreTask (Tasks.id done) st) = Tasks.tasks st ++ [restored]
    /\ Tasks.archivedTasks (Tasks.restoreTask (Tasks.id done) st) = []
    /\ Tasks.title restored = "essay"%string
    /\ Tasks.pomodorosCompleted restored = 0
    /\ Tasks.completed restored = false
    /\ Tasks.completedAt restored = None.
Proof.
  intros st.
  assert (Hu : Tasks.uniqueIds st).
  { unfold Tasks.uniqueIds. vm_compute. repeat constructor.
    - intros [E|[]]. discriminate.
    - intros []. }
  destruct (Tasks.archivedTasks st) as [|done rest] eqn:E; [discriminate|].
  assert (Hin : In done (Tasks.archivedTasks st)) by (rewrite E; left; reflexivity).
  destruct (restoreTask_restores st done Hu Hin)
    as (restored & before & after & H1 & H2 & H3 & _ & _ & _ & H5 & H6 & H7 & _ & H9 & _).
  exists done, restored.
  assert (Hrest : rest = []) by (vm_compute in E; inversion E; reflexivity).
  subst rest. rewrite E in H2.
  assert (Hb : before = [] /\ after = []).
  { destruct before as [|b before]; [inversion H2; auto|].
    inversion H2. destruct before; discriminate. }
  destruct Hb as [-> ->].
  assert (Ht : Tasks.title done = "essay"%string)
    by (vm_compute in E; inversion E; reflexivity).
  repeat split; try assumption. congruence.
Defined.

Lemma incrementOne_others (i : string) (l : list Tasks.Task) :
  Forall (fun x => Tasks.hasId i x = false) l ->
  map (Tasks.incrementOne i) l = map (fun x => (x, false)) l.
Proof.
  intros H. induction H as [|x l Hx _ IH]; simpl; [reflexivity|].
  unfold Tasks.incrementOne at 1. rewrite Hx. simpl. congruence.
Qed.

Lemma map_fst_unflagged (l : list Tasks.Task) :
  map fst (map (fun x => (x, false)) l) = l.
Proof. induction l; simpl; congruence. Qed.

Lemma filter_snd_unflagged (l : list Tasks.Task) :
  filter snd (map (fun x : Tasks.Task => (x, false)) l) = [].
Proof. induction l as [|x l IH]; [reflexivity|exact IH]. Qed.

(** [incrementPomodoro] on an active task whose id occurs once in the
    active list, its count reaching the estimate. *)
Lemma incrementPomodoro_once (now : Z) (st : Tasks.State) (t : Tasks.Task) :
  In t (Tasks.tasks st) ->
  Tasks.occurrences (Tasks.id t) (Tasks.tasks st) = 1%nat ->
  Tasks.pomodoroEstimate t <= Tasks.pomodorosCompleted t + 1 ->
  let incremented := Tasks.incrementPomodoro (Tasks.id t) st in
  let st' := Tasks.runCompletions now (snd incremented) (fst incremented) in
  exists raised archived before after,
    Tasks.tasks st = before ++ t :: after
    /\ Tasks.tasks (fst incremented) = before ++ raised :: after
    /\ Tasks.pomodorosCompleted raised = Tasks.pomodorosCompleted t + 1
    /\ Tasks.tasks st' = before ++ after
    /\ Tasks.archivedTasks st' = archived :: Tasks.archivedTasks st
    /\ Tasks.occurrences (Tasks.id t) (Tasks.tasks st') = 0%nat
    /\ Tasks.occurrences (Tasks.id t) (Tasks.archivedTasks st')
       = S (Tasks.occurrences (Tasks.id t) (Tasks.archivedTasks st))
    /\ Tasks.completed archived = true
    /\ Tasks.completedAt archived = Some now
    /\ Tasks.pomodorosCompleted archived = Tasks.pomodorosCompleted raised
    /\ Tasks.id archived = Tasks.id t
    /\ Tasks.title archived = Tasks.title t
    /\ Tasks.description archived = Tasks.description t
    /\ Tasks.category archived = Tasks.category t
    /\ Tasks.pomodoroEstimate archived = Tasks.pomodoroEstimate t
    /\ Tasks.createdAt archived = Tasks.createdAt t
    /\ Tasks.order archived = Tasks.order t.
Proof.
  intros Hin Hocc Hest.
  destruct (unique_split t _ Hin Hocc) as [l1 [l2 [Hl [H1 H2]]]].
  assert (Hone : Tasks.incrementOne (Tasks.id t) t
                 = (fst (Tasks.incrementOne (Tasks.id t) t), true)).
  { unfold Tasks.incrementOne. rewrite hasId_self. simpl. f_equal.
    apply Z.leb_le. assumption. }
  set (raised := fst (Tasks.incrementOne (Tasks.id t) t)) in *.
  assert (Hraised : Tasks.hasId (Tasks.id t) raised = true).
  { subst raised. unfold Tasks.incrementOne. rewrite hasId_self. simpl.
    unfold Tasks.hasId. simpl. apply String.eqb_refl. }
  assert (Hcount : Tasks.pomodorosCompleted raised = Tasks.pomodorosCompleted t + 1).
  { subst raised. unfold Tasks.incrementOne. rewrite hasId_self. reflexivity. }
  assert (Hsame : Tasks.id raised = Tasks.id t /\ Tasks.title raised = Tasks.title t
                  /\ Tasks.description raised = Tasks.description t
                  /\ Tasks.category raised = Tasks.category t
                  /\ Tasks.pomodoroEstimate raised = Tasks.pomodoroEstimate t
                  /\ Tasks.createdAt raised = Tasks.createdAt t
                  /\ Tasks.order raised = Tasks.order t).
  { subst raised. unfold Tasks.incrementOne. rewrite hasId_self.
    repeat split. }
  cbv zeta. unfold Tasks.incrementPomodoro. rewrite Hl.
  rewrite map_app. cbn [map]. rewrite Hone.
  rewrite !incrementOne_others by assumption.
  rewrite map_app, filter_app. cbn [map filter fst snd].
  rewrite !map_fst_unflagged, !filter_snd_unflagged. cbn [app map].
  unfold Tasks.runCompletions. cbn [fold_left].
  unfold Tasks.completeTask. cbn [Tasks.tasks Tasks.archivedTasks].
  rewrite (find_skip _ l1 l2 raised H1 Hraised).
  rewrite (filter_split _ l1 l2 raised H1 H2 Hraised).
  cbn [Tasks.tasks Tasks.archivedTasks].
  exists raised. eexists. exists l1, l2.
  split; [reflexivity|]. split; [reflexivity|]. split; [assumption|].
  split; [reflexivity|]. split; [reflexivity|].
  split.
  { rewrite occurrences_app. apply occurrences_none in H1, H2.
    rewrite H1, H2. reflexivity. }
  split.
  { unfold Tasks.occurrences. cbn [filter]. unfold Tasks.hasId at 1.
    cbn [Tasks.id]. fold (Tasks.hasId (Tasks.id t) raised). rewrite Hraised.
    reflexivity. }
  cbn. destruct Hsame as (? & ? & ? & ? & ? & ? & ?). repeat split; assumption.
Qed.

(** C4: the ids of the tasks being distinct, as the operations on the
    lists keep them, when [incrementPomodoro] raises the count of an active
    task to its estimate or above, the queued [completeTask] removes the
    task from the active list and adds it to the archive: its id is then
    the id of no active task and of exactly one archived task, which is
    completed, has [completedAt] set and carries the raised count, the
    other tasks of both lists staying as they are. *)
Theorem incrementPomodoro_archives_once (now : Z) (st : Tasks.State) (t : Tasks.Task) :
  Tasks.uniqueIds st ->
  In t (Tasks.tasks st) ->
  Tasks.pomodoroEstimate t <= Tasks.pomodorosCompleted t + 1 ->
  let incremented := Tasks.incrementPomodoro (Tasks.id t) st in
  let st' := Tasks.runCompletions now (snd incremented) (fst incremented) in
  exists raised archived before after,
    Tasks.tasks st = before ++ t :: after
    /\ Tasks.tasks (fst incremented) = before ++ raised :: after
    /\ Tasks.pomodorosCompleted raised = Tasks.pomodorosCompleted t + 1
    /\ Tasks.tasks st' = before ++ after
    /\ Tasks.archivedTasks st' = archived :: Tasks.archivedTasks st
    /\ Tasks.occurrences (Tasks.id t) (Tasks.tasks st') = 0%nat
    /\ Tasks.occurrences (Tasks.id t) (Tasks.archivedTasks st') = 1%nat
    /\ Tasks.completed archived = true
    /\ Tasks.completedAt archived = Some now
    /\ Tasks.pomodorosCompleted archived = Tasks.pomodorosCompleted raised
    /\ Tasks.id archived = Tasks.id t
    /\ Tasks.title archived = Tasks.title t
    /\ Tasks.description archived = Tasks.description t
    /\ Tasks.category archived = Tasks.category t
    /\ Tasks.pomodoroEstimate archived = Tasks.pomodoroEstimate t
    /\ Tasks.createdAt archived = Tasks.createdAt t
    /\ Tasks.order archived = Tasks.order t.
Proof.
  intros Hu Hin Hest. destruct (uniqueIds_archive_free st t Hu Hin) as [Hocc Harch].
  destruct (incrementPomodoro_once now st t Hin Hocc Hest)
    as (raised & archived & before & after & H1 & H2 & H3 & H4 & H5 & H6 & H7 & Hrest).
  cbv zeta. exists raised, archived, before, after.
  split; [exact H1|]. split; [exact H2|]. split; [exact H3|]. split; [exact H4|].
  split; [exact H5|]. split; [exact H6|].
  split; [|exact Hrest].
  rewrite H7. apply occurrences_none in Harch. rewrite Harch. reflexivity.
Qed.

Lemma incrementPomodoro_archives_once_witness :
  let st :=
    Tasks.setCurrentTaskId (Some "1700000000500"%string)
      (Tasks.addTask 1700000000500 "notes" None 1 Insights.work
         (Tasks.addTask 1700000000000 "essay" None 2 Insights.study
            Tasks.initialState)) in
  let incremented := Tasks.incrementPomodoro "1700000000500" st in
  let st' := Tasks.runCompletions 1700001500000 (snd incremented) (fst incremented) in
  map Tasks.title (Tasks.tasks st') = ["essay"%string]
  /\ Tasks.occurrences "1700000000500" (Tasks.archivedTasks st') = 1%nat.
Proof.
  intros st.
  assert (Hu : Tasks.uniqueIds st).
  { unfold Tasks.uniqueIds. vm_compute. repeat constructor.
    - intros [E|[]]. discriminate.
    - intros []. }
  destruct (Tasks.tasks st) as [|first [|second rest]] eqn:E;
    [discriminate|discriminate|].
  assert (Hin : In second (Tasks.tasks st))
    by (rewrite E; right; left; reflexivity).
  assert (Hs : second
               = Tasks.mkTask "1700000000500" "notes" None Insights.work 1 0 false
                   None 1700000000500 1)
    by (vm_compute in E; inversion E; reflexivity).
  assert (Hest : Tasks.pomodoroEstimate second <= Tasks.pomodorosCompleted second + 1)
    by (rewrite Hs; discriminate).
  destruct (incrementPomodoro_archives_once 1700001500000 st second Hu Hin Hest)
    as (_ & _ & _ & _ & _ & _ & _ & _ & _ & _ & H7 & _).
  rewrite Hs in H7. cbn [Tasks.id] in H7.
  split; [reflexivity|exact H7].
Defined.

(** ** The completion callback *)

Lemma perform_pomodoro (now : Z) (effects : list Pomodoro.Effect)
    (w : FocusScreen.World) :
  FocusScreen.pomodoro (fold_left (FocusScreen.perform now) effects w)
  = FocusScreen.pomodoro w.
Proof.
  revert w. induction effects as [|e es IH]; intros w; [reflexivity|].
  cbn [fold_left]. rewrite IH.
  destruct e; try reflexivity.
  unfold FocusScreen.perform, FocusScreen.runCallback.
  destruct (Pomodoro.cb_currentTask callback); [|reflexivity].
  destruct (Tasks.incrementPomodoro _ _). reflexivity.
Qed.

(** Calls to the services and to [setTimeout] leave the sessions and the
    tasks alone. *)
Lemma perform_services (now : Z) (effects : list Pomodoro.Effect)
    (w : FocusScreen.World) :
  Forall (fun e => match e with
                   | Pomodoro.CallOnPomodoroComplete _ => False
                   | _ => True
                   end) effects ->
  FocusScreen.insights (fold_left (FocusScreen.perform now) effects w)
  = FocusScreen.insights w
  /\ FocusScreen.taskCtx (fold_left (FocusScreen.perform now) effects w)
     = FocusScreen.taskCtx w.
Proof.
  intros H. revert w. induction H as [|e es He _ IH]; intros w; [auto|].
  cbn [fold_left]. destruct (IH (FocusScreen.perform now w e)) as [-> ->].
  destruct e; try contradiction; auto.
Qed.

Lemma runCallback_insights (c : Pomodoro.OnPomodoroComplete) (now : Z)
    (w : FocusScreen.World) :
  FocusScreen.insights (FocusScreen.runCallback c now w)
  = Insights.addSession now
      {| Insights.d_date := Insights.getDateString now;
         Insights.d_duration := Pomodoro.cb_workDuration c;
         Insights.d_category := Pomodoro.cb_effectiveCategory c;
         Insights.d_taskId := option_map Tasks.id (Pomodoro.cb_currentTask c);
         Insights.d_taskTitle := option_map Tasks.title (Pomodoro.cb_currentTask c) |}
      (FocusScreen.insights w).
Proof.
  unfold FocusScreen.runCallback.
  destruct (Pomodoro.cb_currentTask c); [|reflexivity].
  destruct (Tasks.incrementPomodoro _ _). reflexivity.
Qed.

Lemma runCallback_taskCtx (c : Pomodoro.OnPomodoroComplete) (now : Z)
    (w : FocusScreen.World) :
  FocusScreen.taskCtx (FocusScreen.runCallback c now w)
  = match Pomodoro.cb_currentTask c with
    | Some task => fst (Tasks.incrementPomodoro (Tasks.id task) (FocusScreen.taskCtx w))
    | None => FocusScreen.taskCtx w
    end.
Proof.
  unfold FocusScreen.runCallback.
  destruct (Pomodoro.cb_currentTask c); [|reflexivity].
  cbn [FocusScreen.taskCtx FocusScreen.setInsights].
  destruct (Tasks.incrementPomodoro _ _). reflexivity.
Qed.

(** In focus mode with a callback, the effects of [handleTimerComplete]
    call the callback once, between calls to the services. *)
Lemma handleTimerCompleteIn_calls_once (render st : Pomodoro.State)
    (s : Settings.AppSettings) (c : Pomodoro.OnPomodoroComplete) :
  Pomodoro.mode render = Pomodoro.focus ->
  Pomodoro.onPomodoroComplete render = Some c ->
  exists before after,
    snd (Pomodoro.handleTimerCompleteIn render s st)
    = before ++ Pomodoro.CallOnPomodoroComplete c :: after
    /\ Forall (fun e => match e with
                        | Pomodoro.CallOnPomodoroComplete _ => False
                        | _ => True
                        end) before
    /\ Forall (fun e => match e with
                        | Pomodoro.CallOnPomodoroComplete _ => False
                        | _ => True
                        end) after.
Proof.
  intros Hm Hc. unfold Pomodoro.handleTimerCompleteIn. rewrite Hm, Hc.
  destruct (Pomodoro.cancelScheduled _) as [st1 cancelled] eqn:E.
  assert (Hq : Forall (fun e => match e with
                                | Pomodoro.CallOnPomodoroComplete _ => False
                                | _ => True
                                end) cancelled).
  { unfold Pomodoro.cancelScheduled in E.
    destruct (Pomodoro.notificationIdRef _) as [i|];
      [destruct (String.eqb i EmptyString)|]; inversion E; subst;
      repeat constructor. }
  cbn [snd].
  exists (cancelled ++ [Pomodoro.PlayAlarmSound (Settings.alarmSound s);
                        Pomodoro.StopAmbientSound;
                        Pomodoro.SendImmediateNotification true]).
  eexists. split; [rewrite <- app_assoc; reflexivity|].
  split.
  - apply Forall_app. split; [assumption|repeat constructor].
  - destruct (Settings.autoStartNext _); repeat constructor.
Qed.

Lemma find_incremented (i : string) (l : list Tasks.Task) (t : Tasks.Task) :
  find (Tasks.hasId i) l = Some t ->
  find (Tasks.hasId i) (map fst (map (Tasks.incrementOne i) l))
  = Some (fst (Tasks.incrementOne i t)).
Proof.
  induction l as [|x l IH]; simpl; [discriminate|].
  destruct (Tasks.hasId i x) eqn:Hx.
  - intros E. inversion E; subst x.
    unfold Tasks.incrementOne. rewrite Hx. simpl.
    unfold Tasks.hasId in *. simpl. rewrite Hx. reflexivity.
  - intros E. unfold Tasks.incrementOne at 1. rewrite Hx. simpl. rewrite Hx.
    apply IH. assumption.
Qed.

Lemma currentTask_id (st : Tasks.State) (t : Tasks.Task) :
  Tasks.currentTask st = Some t -> Tasks.currentTaskId st = Some (Tasks.id t).
Proof.
  unfold Tasks.currentTask. destruct (Tasks.currentTaskId st) as [c|]; [|discriminate].
  intros H. apply find_some in H. destruct H as [_ H].
  apply hasId_eq in H. congruence.
Qed.

(** The world after the effects of a focus completion run by the handler
    of a render that holds the callback of [w], applied to the provider
    [live]. *)
Lemma completion_records (render : Pomodoro.State) (now : Z) (w : FocusScreen.World)
    (live : Pomodoro.State) :
  Pomodoro.mode render = Pomodoro.focus ->
  Pomodoro.onPomodoroComplete render = Some (FocusScreen.completionCallback w) ->
  let result := Pomodoro.handleTimerCompleteIn render (FocusScreen.settings w) live in
  let w' := fold_left (FocusScreen.perform now) (snd result)
              (FocusScreen.setPomodoro (fst result) w) in
  FocusScreen.sessionRecorded w w' /\ FocusScreen.taskAdvanced w w'.
Proof.
  intros Hm Hc result w'.
  destruct (handleTimerCompleteIn_calls_once _ live (FocusScreen.settings w) _ Hm Hc)
    as [before [after [He [Hb Ha]]]].
  subst w'. fold result in He. rewrite He.
  rewrite fold_left_app. cbn [fold_left].
  destruct (perform_services now after
              (FocusScreen.perform now
                 (fold_left (FocusScreen.perform now) before
                    (FocusScreen.setPomodoro (fst result) w))
                 (Pomodoro.CallOnPomodoroComplete (FocusScreen.completionCallback w)))
              Ha) as [Hi Ht].
  destruct (perform_services now before (FocusScreen.setPomodoro (fst result) w) Hb)
    as [Hi0 Ht0].
  change (FocusScreen.perform now ?x (Pomodoro.CallOnPomodoroComplete ?c))
    with (FocusScreen.runCallback c now x) in *.
  rewrite runCallback_insights, Hi0 in Hi.
  rewrite runCallback_taskCtx, Ht0 in Ht.
  cbn [FocusScreen.insights FocusScreen.taskCtx FocusScreen.setPomodoro] in Hi, Ht.
  split.
  - unfold FocusScreen.sessionRecorded. rewrite Hi.
    eexists. split; [reflexivity|]. cbn. repeat split.
  - unfold FocusScreen.taskAdvanced. intros task Hcur. rewrite Ht.
    cbn [FocusScreen.completionCallback Pomodoro.cb_currentTask]. rewrite Hcur.
    pose proof (currentTask_id _ _ Hcur) as Hid.
    unfold Tasks.currentTask in *. rewrite Hid in Hcur.
    unfold Tasks.incrementPomodoro. cbn [fst Tasks.currentTaskId Tasks.tasks].
    rewrite Hid. rewrite (find_incremented _ _ _ Hcur).
    eexists. split; [reflexivity|].
    unfold Tasks.incrementOne. rewrite hasId_self. repeat split.
Qed.

(** A focus completion whose handler holds the callback of the current
    render appends one session with the work duration, the category of the
    selected task or else the selected category, and the id and title of
    the selected task, whose count is raised by 1.  That is the case of
    [completePomodoro], and of the last tick of an interval whose render
    [render] holds that callback: the tick at 1 second, no pomodoro
    completed in that render and more than one pomodoro until the long
    break, gives the short break, count 1 and such a session. *)
Lemma fresh_completion_records_session (render : Pomodoro.State) (now : Z)
    (w : FocusScreen.World) :
  Pomodoro.mode (FocusScreen.pomodoro w) = Pomodoro.focus ->
  Pomodoro.onPomodoroComplete (FocusScreen.pomodoro w)
  = Some (FocusScreen.completionCallback w) ->
  (FocusScreen.sessionRecorded w (FocusScreen.handleTimerComplete now w)
   /\ FocusScreen.taskAdvanced w (FocusScreen.handleTimerComplete now w))
  /\ (Pomodoro.mode render = Pomodoro.focus ->
      Pomodoro.onPomodoroComplete render = Some (FocusScreen.completionCallback w) ->
      Pomodoro.completedPomodoros render = 0 ->
      Pomodoro.timerRef (FocusScreen.pomodoro w) = Pomodoro.Interval true ->
      Pomodoro.remainingTime (FocusScreen.pomodoro w) = 1 ->
      1 < Settings.pomodorosUntilLongBreak (Settings.timer (FocusScreen.settings w)) ->
      let w' := FocusScreen.tick render (FocusScreen.settings w) now w in
      Pomodoro.mode (FocusScreen.pomodoro w') = Pomodoro.shortBreak
      /\ Pomodoro.completedPomodoros (FocusScreen.pomodoro w') = 1
      /\ FocusScreen.sessionRecorded w w'
      /\ FocusScreen.taskAdvanced w w').
Proof.
  intros Hm Hc. split.
  - unfold FocusScreen.handleTimerComplete, FocusScreen.dispatch,
      Pomodoro.handleTimerComplete.
    pose proof (completion_records (FocusScreen.pomodoro w) now w
                  (FocusScreen.pomodoro w) Hm Hc) as H.
    cbv zeta in H.
    destruct (Pomodoro.handleTimerCompleteIn _ _ _) as [p effects]. exact H.
  - intros Hrm Hrc H0 Hr H1 Hk w'. subst w'.
    unfold FocusScreen.tick, Pomodoro.tick.
    rewrite Hr, H1. change (1 <=? 1) with true. cbv iota.
    set (live := Pomodoro.setRemainingTime 0
                   (Pomodoro.setTimerRef (Pomodoro.Interval false)
                      (FocusScreen.pomodoro w))).
    pose proof (completion_records render now w live Hrm Hrc) as H. cbv zeta in H.
    assert (Hp : Pomodoro.mode
                   (fst (Pomodoro.handleTimerCompleteIn render
                           (FocusScreen.settings w) live)) = Pomodoro.shortBreak
                 /\ Pomodoro.completedPomodoros
                      (fst (Pomodoro.handleTimerCompleteIn render
                              (FocusScreen.settings w) live)) = 1).
    { unfold Pomodoro.handleTimerCompleteIn. rewrite Hrm, H0.
      destruct (Pomodoro.cancelScheduled _) as [st1 cancelled].
      unfold JS.rem.
      destruct (_ =? 0) eqn:Ek; [apply Z.eqb_eq in Ek; lia|].
      rewrite Z.rem_small by lia. cbn. auto. }
    destruct (Pomodoro.handleTimerCompleteIn _ _ _) as [p effects].
    cbn [fst snd] in *. rewrite perform_pomodoro.
    cbn [FocusScreen.pomodoro FocusScreen.setPomodoro].
    destruct Hp as [Hp1 Hp2]. destruct H as [Hs Ht]. auto.
Qed.

(** After the effect of FocusScreen ran in focus mode, the registered
    callback is the one of the current render. *)
Lemma registerCallback_registers (w : FocusScreen.World) :
  Pomodoro.mode (FocusScreen.pomodoro w) = Pomodoro.focus ->
  Pomodoro.onPomodoroComplete (FocusScreen.pomodoro (FocusScreen.registerCallback w))
  = Some (FocusScreen.completionCallback (FocusScreen.registerCallback w)).
Proof.
  intros Hm. unfold FocusScreen.registerCallback. rewrite Hm. reflexivity.
Qed.

(** Registering the callback changes neither [mode] nor [remainingTime],
    the state cells among the dependencies of [startTimerInternal]: the
    render that follows the registration holds the [startTimerInternal] of
    the render before it. *)
Lemma registerCallback_keeps_startTimerInternal (w : FocusScreen.World) :
  Pomodoro.mode (FocusScreen.pomodoro (FocusScreen.registerCallback w))
  = Pomodoro.mode (FocusScreen.pomodoro w)
  /\ Pomodoro.remainingTime (FocusScreen.pomodoro (FocusScreen.registerCallback w))
     = Pomodoro.remainingTime (FocusScreen.pomodoro w)
  /\ FocusScreen.settings (FocusScreen.registerCallback w) = FocusScreen.settings w.
Proof. unfold FocusScreen.registerCallback. repeat split. Qed.

(** C3, the code at the failing input.  On a fresh installation the
    provider mounts ([mounted], whose render has no callback) and finds no
    stored timer, the user adds a task and selects it, the effect of the
    focus screen registers the callback, and the user starts the timer:
    [mode] and [remainingTime] were never set, so the interval holds the
    closure of the first render.  After 1499 ticks one second is left; the
    tick that completes the interval gives the short break and count 1,
    calls no callback, records no session and leaves the count of the task
    at 0.  [completePomodoro], the other way into [handleTimerComplete],
    runs the handler of the current render and records the session
    ([fresh_completion_records_session]). *)
Theorem stale_interval_records_no_session :
  let s := Settings.defaultSettings in
  let mounted := FocusScreen.initialWorld s in
  let render := FocusScreen.pomodoro mounted in
  let loaded :=
    FocusScreen.setPomodoro
      (Pomodoro.loadTimerState s 1699999999000 None (FocusScreen.pomodoro mounted))
      mounted in
  let selected :=
    FocusScreen.setTaskCtx
      (Tasks.setCurrentTaskId (Some "1700000000000"%string)
         (Tasks.addTask 1700000000000 "essay" None 2 Insights.study
            (FocusScreen.taskCtx loaded)))
      loaded in
  let registered := FocusScreen.registerCallback selected in
  let started :=
    FocusScreen.setPomodoro
      (fst (Pomodoro.startTimer s 1700000100000 false None
              (FocusScreen.pomodoro registered)))
      registered in
  let last := FocusScreen.ticks render s 1700000100000 1499 started in
  let done := FocusScreen.tick render s 1700001600000 last in
  Pomodoro.mode (FocusScreen.pomodoro registered) = Pomodoro.mode render
  /\ Pomodoro.remainingTime (FocusScreen.pomodoro registered)
     = Pomodoro.remainingTime render
  /\ Pomodoro.onPomodoroComplete (FocusScreen.pomodoro started)
     = Some (FocusScreen.completionCallback started)
  /\ option_map Tasks.title (Tasks.currentTask (FocusScreen.taskCtx started))
     = Some "essay"%string
  /\ Pomodoro.onPomodoroComplete render = None
  /\ Pomodoro.mode (FocusScreen.pomodoro last) = Pomodoro.focus
  /\ Pomodoro.isPlaying (FocusScreen.pomodoro last) = true
  /\ Pomodoro.remainingTime (FocusScreen.pomodoro last) = 1
  /\ Pomodoro.mode (FocusScreen.pomodoro done) = Pomodoro.shortBreak
  /\ Pomodoro.completedPomodoros (FocusScreen.pomodoro done) = 1
  /\ Insights.sessions (FocusScreen.insights done) = []
  /\ map Tasks.pomodorosCompleted (Tasks.tasks (FocusScreen.taskCtx done)) = [0]
  /\ ~ FocusScreen.sessionRecorded last done.
Proof.
  cbv zeta. repeat split; try (vm_compute; reflexivity).
  intros [session [H _]]. vm_compute in H. discriminate H.
Qed.

(** ** Streaks *)

Lemma dayDiff_days (p c : Z) : Insights.dayDiff p c = p - c.
Proof.
  unfold Insights.dayDiff, JS.roundDiv, Insights.getTime, Insights.msPerDay.
  replace (2 * (p * 86400000 - c * 86400000) + 86400000)
    with ((p - c) * (2 * 86400000) + 86400000) by ring.
  rewrite Z.div_add_l by discriminate.
  rewrite Z.div_small; lia.
Qed.

Lemma yesterday_is_today_minus_one (now : Z) :
  Insights.getDateString (now - 86400000) = Insights.getDateString now - 1.
Proof.
  unfold Insights.getDateString, JS.floorDiv, Insights.msPerDay.
  replace (now - 86400000) with (now + (-1) * 86400000) by ring.
  rewrite Z.div_add by discriminate. ring.
Qed.

Lemma longest_nonneg (runs : list Z) : 0 <= Insights.longest runs.
Proof. induction runs; simpl; lia. Qed.

Lemma runLengths_cons (d : Z) (rest : list Z) :
  exists n ns, Insights.runLengths (d :: rest) = n :: ns /\ 1 <= n.
Proof.
  revert d. induction rest as [|d' rest IH]; intros d.
  - exists 1, []. split; [reflexivity|lia].
  - destruct (IH d') as [n [ns [E Hn]]].
    cbn [Insights.runLengths] in *. rewrite E.
    destruct (d - d' =? 1); eexists; eexists; split; try reflexivity; lia.
Qed.

(** The first loop, entered with a previous date, against the run lengths
    from that date on. *)
Lemma bestLoop_runs (l : list Z) :
  forall p b t, 1 <= t ->
    Z.max (fst (Insights.bestLoop (Some p) l b t))
          (snd (Insights.bestLoop (Some p) l b t))
    = Z.max b (match Insights.runLengths (p :: l) with
               | n :: ns => Z.max (n + t - 1) (Insights.longest ns)
               | [] => t
               end).
Proof.
  induction l as [|c rest IH]; intros p b t Ht.
  - cbn [Insights.bestLoop Insights.runLengths Insights.longest fold_right fst snd].
    lia.
  - cbn [Insights.bestLoop]. rewrite dayDiff_days.
    destruct (runLengths_cons c rest) as [n [ns [E Hn]]].
    change (Insights.runLengths (p :: c :: rest))
      with (match Insights.runLengths (c :: rest) with
            | n :: ns => if p - c =? 1 then (n + 1) :: ns else 1 :: n :: ns
            | [] => [1]
            end).
    destruct (p - c =? 1).
    + rewrite IH by lia. rewrite E. f_equal. f_equal. lia.
    + rewrite IH by lia. rewrite E.
      cbn [Insights.longest fold_right]. fold (Insights.longest ns).
      pose proof (longest_nonneg ns). lia.
Qed.

Lemma currentLoop_runs (l : list Z) :
  forall p t,
    Insights.currentLoop p l t = t - 1 + hd 0 (Insights.runLengths (p :: l)).
Proof.
  induction l as [|c rest IH]; intros p t.
  - cbn [Insights.currentLoop Insights.runLengths hd]. lia.
  - cbn [Insights.currentLoop]. rewrite dayDiff_days.
    destruct (runLengths_cons c rest) as [n [ns [E Hn]]].
    change (Insights.runLengths (p :: c :: rest))
      with (match Insights.runLengths (c :: rest) with
            | n :: ns => if p - c =? 1 then (n + 1) :: ns else 1 :: n :: ns
            | [] => [1]
            end).
    destruct (p - c =? 1).
    + rewrite IH, E. cbn [hd]. lia.
    + rewrite E. cbn [hd]. lia.
Qed.

(** [calculateStreaks] computes the algorithm of the specification on the
    list of dates it builds. *)
Lemma calculateStreaks_refines (now : Z) (ss : list Insights.FocusSession) :
  Insights.calculateStreaks now ss
  = Insights.streakAlgorithm (Insights.getDateString now) (Insights.uniqueDates ss).
Proof.
  unfold Insights.calculateStreaks, Insights.streakAlgorithm.
  destruct ss as [|s0 ss']; [reflexivity|].
  destruct (Insights.uniqueDates (s0 :: ss')) as [|first rest]; [reflexivity|].
  rewrite yesterday_is_today_minus_one.
  cbn [Insights.bestLoop].
  pose proof (bestLoop_runs rest first 0 1 ltac:(lia)) as Hb.
  pose proof (currentLoop_runs rest first 1) as Hc.
  destruct (Insights.bestLoop (Some first) rest 0 1) as [b t].
  cbn [fst snd] in Hb. rewrite Hb, Hc.
  destruct (runLengths_cons first rest) as [n [ns [E Hn]]]. rewrite E.
  cbn [hd Insights.longest fold_right].
  fold (Insights.longest ns). pose proof (longest_nonneg ns).
  replace (1 - 1 + n) with n by lia.
  replace (Z.max 0 (Z.max (n + 1 - 1) (Insights.longest ns)))
    with (Z.max n (Insights.longest ns)) by lia.
  reflexivity.
Qed.

Lemma newSet_In (xs : list Z) (d : Z) : In d (Insights.newSet xs) <-> In d xs.
Proof.
  induction xs as [|x r IH]; simpl; [tauto|].
  rewrite filter_In, IH. split.
  - intros [H|[H _]]; auto.
  - intros [H|H]; [auto|].
    destruct (Z.eq_dec d x) as [->|Hne]; [auto|].
    right. split; [assumption|]. apply negb_true_iff, Z.eqb_neq. assumption.
Qed.

Lemma newSet_NoDup (xs : list Z) : NoDup (Insights.newSet xs).
Proof.
  induction xs as [|x r IH]; simpl; constructor.
  - rewrite filter_In. intros [_ H].
    rewrite Z.eqb_refl in H. discriminate.
  - apply NoDup_filter. assumption.
Qed.

Lemma insert_In (x y : Z) (l : list Z) :
  In y (Insights.insert x l) <-> y = x \/ In y l.
Proof.
  induction l as [|z r IH]; simpl.
  - intuition.
  - destruct (x <=? z); simpl; [intuition|]. rewrite IH. intuition.
Qed.

Lemma insert_ascending (x : Z) (l : list Z) :
  StronglySorted Z.lt l -> ~ In x l -> StronglySorted Z.lt (Insights.insert x l).
Proof.
  intros H. induction H as [|y r Hr IH Hy]; intros Hx; simpl.
  - constructor; constructor.
  - destruct (x <=? y) eqn:E.
    + apply Z.leb_le in E.
      assert (x < y) by (simpl in Hx; lia).
      constructor; [constructor; assumption|].
      constructor; [assumption|].
      rewrite Forall_forall in *. intros z Hz. specialize (Hy z Hz). lia.
    + apply Z.leb_gt in E. constructor.
      * apply IH. simpl in Hx. tauto.
      * rewrite Forall_forall in *. intros z Hz.
        apply insert_In in Hz. destruct Hz as [->|Hz]; [assumption|auto].
Qed.

Lemma sort_In (xs : list Z) (d : Z) : In d (Insights.sort xs) <-> In d xs.
Proof.
  unfold Insights.sort. induction xs as [|x r IH]; simpl; [tauto|].
  rewrite insert_In, IH. intuition.
Qed.

Lemma sort_ascending (xs : list Z) :
  NoDup xs -> StronglySorted Z.lt (Insights.sort xs).
Proof.
  intros H. induction H as [|x r Hx Hr IH]; [constructor|].
  change (Insights.sort (x :: r)) with (Insights.insert x (Insights.sort r)).
  apply insert_ascending; [assumption|]. rewrite sort_In. assumption.
Qed.

Lemma descending_snoc (l : list Z) (a : Z) :
  StronglySorted Z.gt l -> Forall (fun y => y > a) l ->
  StronglySorted Z.gt (l ++ [a]).
Proof.
  intros H. induction H as [|y r Hr IH Hy]; intros Ha; simpl.
  - constructor; constructor.
  - inversion Ha; subst. constructor; [auto|].
    apply Forall_app. split; [assumption|]. constructor; [assumption|constructor].
Qed.

Lemma rev_descending (l : list Z) :
  StronglySorted Z.lt l -> StronglySorted Z.gt (rev l).
Proof.
  intros H. induction H as [|y r Hr IH Hy]; simpl; [constructor|].
  apply descending_snoc; [assumption|].
  rewrite Forall_forall in *. intros z Hz. apply in_rev in Hz.
  specialize (Hy z Hz). lia.
Qed.

(** [uniqueDates] is the distinct session dates, sorted descending. *)
Lemma uniqueDates_distinct_descending (ss : list Insights.FocusSession) :
  StronglySorted Z.gt (Insights.uniqueDates ss)
  /\ forall d, In d (Insights.uniqueDates ss) <-> In d (map Insights.date ss).
Proof.
  unfold Insights.uniqueDates. split.
  - apply rev_descending, sort_ascending, newSet_NoDup.
  - intros d. rewrite <- in_rev, sort_In, newSet_In. tauto.
Qed.

(** A strictly descending list is determined by its elements. *)
Lemma descending_unique (l1 : list Z) :
  forall l2,
    StronglySorted Z.gt l1 -> StronglySorted Z.gt l2 ->
    (forall d, In d l1 <-> In d l2) -> l1 = l2.
Proof.
  induction l1 as [|x1 r1 IH]; intros l2 H1 H2 Hin.
  - destruct l2 as [|x2 r2]; [reflexivity|].
    destruct (proj2 (Hin x2) (or_introl eq_refl)).
  - destruct l2 as [|x2 r2]; [destruct (proj1 (Hin x1) (or_introl eq_refl))|].
    inversion H1 as [|? ? Hr1 Hx1]; subst.
    inversion H2 as [|? ? Hr2 Hx2]; subst.
    rewrite Forall_forall in Hx1, Hx2.
    assert (x1 = x2).
    { destruct (proj1 (Hin x1) (or_introl eq_refl)) as [E|E]; [auto|].
      destruct (proj2 (Hin x2) (or_introl eq_refl)) as [E'|E']; [auto|].
      specialize (Hx1 _ E'). specialize (Hx2 _ E). lia. }
    subst x2. f_equal. apply IH; try assumption.
    intros d. split; intros Hd.
    + destruct (proj1 (Hin d) (or_intror Hd)) as [E|E]; [|assumption].
      specialize (Hx1 _ Hd). lia.
    + destruct (proj2 (Hin d) (or_intror Hd)) as [E|E]; [|assumption].
      specialize (Hx2 _ Hd). lia.
Qed.

Lemma uniqueDates_of_descending (ss : list Insights.FocusSession) (l : list Z) :
  StronglySorted Z.gt l ->
  (forall d, In d (map Insights.date ss) <-> In d l) ->
  Insights.uniqueDates ss = l.
Proof.
  intros Hl Hin. destruct (uniqueDates_distinct_descending ss) as [Hs Hu].
  apply descending_unique; try assumption.
  intros d. rewrite Hu. apply Hin.
Qed.

(** C5: [calculateStreaks] walks the distinct session dates sorted
    descending and returns what the streak algorithm of the specification
    returns on them: the streak is active when the most recent date is today
    or yesterday, a gap of one day extends a run and any other gap breaks
    it, the best streak is the longest run and the current streak is the
    first run when active, else 0.  Sessions on today and the two days
    before give current 3 and best at least 3; sessions only five and six
    days ago give current 0 and best 2. *)
Theorem calculateStreaks_streak_algorithm (now : Z) (ss : list Insights.FocusSession) :
  let today := Insights.getDateString now in
  StronglySorted Z.gt (Insights.uniqueDates ss)
  /\ (forall d, In d (Insights.uniqueDates ss) <-> In d (map Insights.date ss))
  /\ Insights.calculateStreaks now ss
     = Insights.streakAlgorithm today (Insights.uniqueDates ss)
  /\ ((forall d, In d (map Insights.date ss)
                 <-> d = today \/ d = today - 1 \/ d = today - 2) ->
      Insights.current (Insights.calculateStreaks now ss) = 3
      /\ 3 <= Insights.best (Insights.calculateStreaks now ss))
  /\ ((forall d, In d (map Insights.date ss) <-> d = today - 5 \/ d = today - 6) ->
      Insights.current (Insights.calculateStreaks now ss) = 0
      /\ Insights.best (Insights.calculateStreaks now ss) = 2).
Proof.
  intros today.
  destruct (uniqueDates_distinct_descending ss) as [Hs Hu].
  split; [assumption|]. split; [assumption|].
  split; [apply calculateStreaks_refines|].
  rewrite calculateStreaks_refines. fold today. split; intros Hd.
  - rewrite (uniqueDates_of_descending ss [today; today - 1; today - 2]).
    + unfold Insights.streakAlgorithm. cbn [Insights.runLengths].
      replace (today - 1 - (today - 2)) with 1 by lia.
      replace (today - (today - 1)) with 1 by lia.
      rewrite Z.eqb_refl. cbn. lia.
    + repeat constructor; lia.
    + intros d. rewrite Hd. simpl. intuition.
  - rewrite (uniqueDates_of_descending ss [today - 5; today - 6]).
    + unfold Insights.streakAlgorithm. cbn [Insights.runLengths].
      replace (today - 5 - (today - 6)) with 1 by lia.
      destruct (today - 5 =? today) eqn:E1; [apply Z.eqb_eq in E1; lia|].
      destruct (today - 5 =? today - 1) eqn:E2; [apply Z.eqb_eq in E2; lia|].
      cbn. auto.
    + repeat constructor; lia.
    + intros d. rewrite Hd. simpl. intuition.
Qed.

Lemma calculateStreaks_streak_algorithm_witness :
  let now := 1700000000000 in
  let session (day : Z) :=
    Insights.mkFocusSession "s" day 25 Insights.work None None 0 in
  let today := Insights.getDateString now in
  Insights.calculateStreaks now
    [session (today - 1); session today; session (today - 2); session today]
  = {| Insights.current := 3; Insights.best := 3 |}
  /\ Insights.current
       (Insights.calculateStreaks now [session (today - 6); session (today - 5)]) = 0.
Proof.
  intros now session today. split.
  - reflexivity.
  - apply (calculateStreaks_streak_algorithm now
             [session (today - 6); session (today - 5)]).
    intros d. vm_compute. intuition.
Defined.

(** C10: the best streak is never smaller than the current streak, and
    both are 0 when there is no session. *)
Theorem calculateStreaks_best_ge_current (now : Z) (ss : list Insights.FocusSession) :
  Insights.current (Insights.calculateStreaks now ss)
  <= Insights.best (Insights.calculateStreaks now ss)
  /\ Insights.calculateStreaks now [] = {| Insights.current := 0; Insights.best := 0 |}.
Proof.
  split; [|reflexivity].
  rewrite calculateStreaks_refines. unfold Insights.streakAlgorithm.
  cbn [Insights.current Insights.best].
  pose proof (longest_nonneg (Insights.runLengths (Insights.uniqueDates ss))) as H0.
  destruct (match Insights.uniqueDates ss with [] => false | _ => _ end); [|assumption].
  destruct (Insights.runLengths (Insights.uniqueDates ss)) as [|n ns]; [assumption|].
  cbn [hd Insights.longest fold_right]. lia.
Qed.

(** ** The pieces together *)

(** A task one pomodoro short of its estimate is selected and the focus
    interval is completed by the handler of the current render
    ([completePomodoro]): the session is recorded, [completeTask] is
    queued, and once the queue has run the task is in the archive. *)
Example last_pomodoro_archives_task :
  let task := Tasks.mkTask "7" "essay" None Insights.study 2 1 false None 10 0 in
  let w :=
    FocusScreen.registerCallback
      {| FocusScreen.settings := Settings.defaultSettings;
         FocusScreen.pomodoro :=
           Pomodoro.setRemainingTime 1
             (Pomodoro.startTimerInternal Settings.defaultSettings 1700000000000
                (Pomodoro.initialState Settings.defaultSettings));
         FocusScreen.taskCtx :=
           {| Tasks.tasks := [task]; Tasks.archivedTasks := [];
              Tasks.currentTaskId := Some "7"%string |};
         FocusScreen.insights := Insights.initialState;
         FocusScreen.timeouts := [];
         FocusScreen.serviceCalls := [] |} in
  let w1 := FocusScreen.handleTimerComplete 1700001500000 w in
  let w2 := FocusScreen.flushTimeouts 1700001500001 w1 in
  FocusScreen.timeouts w1 = [FocusScreen.CompleteTask "7"]
  /\ map Insights.taskId (Insights.sessions (FocusScreen.insights w1))
     = [Some "7"%string]
  /\ Tasks.tasks (FocusScreen.taskCtx w2) = []
  /\ map (fun t => (Tasks.pomodorosCompleted t, Tasks.completed t, Tasks.completedAt t))
         (Tasks.archivedTasks (FocusScreen.taskCtx w2))
     = [(2, true, Some 1700001500001)]
  /\ Tasks.currentTaskId (FocusScreen.taskCtx w2) = None.
Proof. repeat split. Qed.

(** [resetSession] always ends paused, in focus mode, with no completed
    pomodoro. *)
Lemma resetSession_resets (s : Settings.AppSettings) (st : Pomodoro.State) :
  let st' := fst (Pomodoro.resetSession s st) in
  Pomodoro.completedPomodoros st' = 0
  /\ Pomodoro.mode st' = Pomodoro.focus
  /\ Pomodoro.isPlaying st' = false
  /\ Pomodoro.remainingTime st' = Pomodoro.getDuration s Pomodoro.focus.
Proof. repeat split. Qed.

(** * Further properties of the code *)

(** ** Task lists: completing, deleting, restoring *)

Lemma find_filter_same (i : string) (l : list Tasks.Task) :
  find (Tasks.hasId i) (filter (fun task => negb (Tasks.hasId i task)) l) = None.
Proof.
  induction l as [|x l IH]; [reflexivity|]. simpl.
  destruct (Tasks.hasId i x) eqn:E; simpl; [assumption|].
  rewrite E. assumption.
Qed.

Lemma find_filter_other (c i : string) (l : list Tasks.Task) :
  c <> i ->
  find (Tasks.hasId c) (filter (fun task => negb (Tasks.hasId i task)) l)
  = find (Tasks.hasId c) l.
Proof.
  intros Hne. induction l as [|x l IH]; [reflexivity|]. simpl.
  destruct (Tasks.hasId i x) eqn:Ei; simpl.
  - destruct (Tasks.hasId c x) eqn:Ec; [|assumption].
    apply hasId_eq in Ei, Ec. congruence.
  - rewrite IH. reflexivity.
Qed.

Lemma isCurrent_false (st : Tasks.State) (i c : string) :
  Tasks.isCurrent st i = false -> Tasks.currentTaskId st = Some c -> c <> i.
Proof.
  unfold Tasks.isCurrent. intros H E. rewrite E in H.
  apply String.eqb_neq. assumption.
Qed.

(** X1: completing a task a second time, at any later moment, changes
    nothing: the task is archived once. *)
Theorem completeTask_idempotent (now later : Z) (i : string) (st : Tasks.State) :
  Tasks.completeTask later i (Tasks.completeTask now i st)
  = Tasks.completeTask now i st.
Proof.
  unfold Tasks.completeTask at 1.
  assert (Hf : find (Tasks.hasId i) (Tasks.tasks (Tasks.completeTask now i st)) = None).
  { unfold Tasks.completeTask.
    destruct (find (Tasks.hasId i) (Tasks.tasks st)) eqn:E; cbn [Tasks.tasks].
    - apply find_filter_same.
    - assumption. }
  rewrite Hf.
  assert (Hc : Tasks.isCurrent (Tasks.completeTask now i st) i = false).
  { unfold Tasks.completeTask, Tasks.isCurrent.
    destruct (find (Tasks.hasId i) (Tasks.tasks st)); cbn [Tasks.currentTaskId];
      destruct (Tasks.currentTaskId st) as [c|]; try reflexivity;
      destruct (String.eqb c i) eqn:Ec; try reflexivity; assumption. }
  rewrite Hc. destruct (Tasks.completeTask now i st). reflexivity.
Qed.

(** X2: completing a task deselects it when it was the selected task and
    leaves any other selected task selected and unchanged; when no active
    task has the id, neither list changes. *)
Theorem completeTask_selection (now : Z) (i : string) (st : Tasks.State) :
  let st' := Tasks.completeTask now i st in
  Tasks.currentTask st'
  = (if Tasks.isCurrent st i then None else Tasks.currentTask st)
  /\ (Tasks.occurrences i (Tasks.tasks st) = 0%nat ->
      Tasks.tasks st' = Tasks.tasks st
      /\ Tasks.archivedTasks st' = Tasks.archivedTasks st).
Proof.
  cbv zeta. split.
  - unfold Tasks.currentTask.
    destruct (Tasks.isCurrent st i) eqn:Hc.
    + unfold Tasks.completeTask. rewrite Hc.
      destruct (find (Tasks.hasId i) (Tasks.tasks st)); reflexivity.
    + unfold Tasks.completeTask. rewrite Hc.
      destruct (find (Tasks.hasId i) (Tasks.tasks st)) eqn:E;
        cbn [Tasks.currentTaskId Tasks.tasks]; [|reflexivity].
      destruct (Tasks.currentTaskId st) as [c|] eqn:Ec; [|reflexivity].
      apply find_filter_other. eapply isCurrent_false; eassumption.
  - intros H. apply occurrences_none in H.
    unfold Tasks.completeTask.
    destruct (find (Tasks.hasId i) (Tasks.tasks st)) eqn:E; [|auto].
    apply find_some in E. destruct E as [Hin Hid].
    rewrite Forall_forall in H. rewrite (H _ Hin) in Hid. discriminate.
Qed.

Lemma completeTask_selection_witness :
  let task := Tasks.mkTask "7" "essay" None Insights.study 2 1 false None 10 0 in
  let st := {| Tasks.tasks := [task]; Tasks.archivedTasks := [];
               Tasks.currentTaskId := Some "7"%string |} in
  Tasks.tasks (Tasks.completeTask 99 "8" st) = Tasks.tasks st
  /\ Tasks.archivedTasks (Tasks.completeTask 99 "8" st) = Tasks.archivedTasks st.
Proof.
  intros task st.
  exact (proj2 (completeTask_selection 99 "8" st) eq_refl).
Defined.

(** X3: after [deleteTask] no active task has the id, every other active
    task is still there, the archive is untouched, and the selected task is
    deselected exactly when it was the deleted one. *)
Theorem deleteTask_removes (i : string) (st : Tasks.State) :
  let st' := Tasks.deleteTask i st in
  Tasks.occurrences i (Tasks.tasks st') = 0%nat
  /\ (forall task, In task (Tasks.tasks st')
                   <-> In task (Tasks.tasks st) /\ Tasks.id task <> i)
  /\ Tasks.archivedTasks st' = Tasks.archivedTasks st
  /\ Tasks.currentTask st'
     = (if Tasks.isCurrent st i then None else Tasks.currentTask st).
Proof.
  cbv zeta. unfold Tasks.deleteTask. cbn [Tasks.tasks Tasks.archivedTasks].
  split.
  { apply occurrences_none, Forall_forall. intros x Hx.
    apply filter_In in Hx. destruct Hx as [_ Hx].
    apply negb_true_iff. assumption. }
  split.
  { intros task. rewrite filter_In, negb_true_iff. unfold Tasks.hasId.
    rewrite String.eqb_neq. tauto. }
  split; [reflexivity|].
  unfold Tasks.currentTask. cbn [Tasks.currentTaskId Tasks.tasks].
  destruct (Tasks.isCurrent st i) eqn:Hc; [reflexivity|].
  destruct (Tasks.currentTaskId st) as [c|] eqn:Ec; [|reflexivity].
  apply find_filter_other. eapply isCurrent_false; eassumption.
Qed.

Lemma find_split_nodup (i : string) (t : Tasks.Task) (l : list Tasks.Task) :
  NoDup (map Tasks.id l) -> find (Tasks.hasId i) l = Some t ->
  Tasks.id t = i
  /\ exists l1 l2,
       l = l1 ++ t :: l2
       /\ Forall (fun x => Tasks.hasId i x = false) l1
       /\ Forall (fun x => Tasks.hasId i x = false) l2.
Proof.
  intros Hn Hf. apply find_some in Hf. destruct Hf as [Hin Hid].
  apply hasId_eq in Hid. subst i. split; [reflexivity|].
  apply unique_split; [assumption|]. apply nodup_occurrences; assumption.
Qed.

Lemma perm_move_right {A : Type} (x : A) (l1 l2 l3 : list A) :
  Permutation ((l1 ++ x :: l2) ++ l3) ((l1 ++ l2) ++ x :: l3).
Proof.
  rewrite <- !app_assoc. apply Permutation_app_head. cbn [app].
  apply Permutation_middle.
Qed.

Lemma perm_move_left {A : Type} (x : A) (l1 l2 l3 : list A) :
  Permutation (l1 ++ l2 ++ x :: l3) ((l1 ++ [x]) ++ l2 ++ l3).
Proof.
  rewrite <- app_assoc. apply Permutation_app_head. cbn [app].
  symmetry. apply Permutation_middle.
Qed.

Lemma nodup_map_filter_app {A B : Type} (f : A -> B) (p : A -> bool)
    (l rest : list A) :
  NoDup (map f (l ++ rest)) -> NoDup (map f (filter p l ++ rest)).
Proof.
  induction l as [|x l IH]; simpl; intros H; [assumption|].
  inversion H as [|? ? Hx Hl]; subst.
  destruct (p x); simpl; [constructor|]; auto.
  intros Hin. apply Hx. rewrite map_app in Hin |- *.
  apply in_app_or in Hin. apply in_or_app.
  destruct Hin as [Hin|Hin]; [left|right; assumption].
  apply in_map_iff in Hin. destruct Hin as [y [Hy Hin]].
  apply filter_In in Hin. rewrite <- Hy. apply in_map. tauto.
Qed.

Lemma ids_incremented (i : string) (l : list Tasks.Task) :
  map Tasks.id (map fst (map (Tasks.incrementOne i) l)) = map Tasks.id l.
Proof.
  induction l as [|x l IH]; [reflexivity|]. cbn [map]. rewrite IH. f_equal.
  unfold Tasks.incrementOne. destruct (negb (Tasks.hasId i x)); reflexivity.
Qed.

Lemma ids_withOrders (l : list Tasks.Task) :
  forall k, map Tasks.id (Tasks.withOrders k l) = map Tasks.id l.
Proof.
  induction l as [|x l IH]; intros k; [reflexivity|].
  cbn [Tasks.withOrders map]. rewrite IH. reflexivity.
Qed.

Lemma swapAt_perm {A : Type} (l : list A) :
  forall i, Permutation (TaskManagerScreen.swapAt i l) l.
Proof.
  induction l as [|a l IH]; intros i.
  - destruct i; reflexivity.
  - destruct i as [|j].
    + destruct l as [|b r]; [reflexivity|]. cbn. apply perm_swap.
    + cbn. apply perm_skip. apply IH.
Qed.

Lemma ids_updated (i : string) (u : Tasks.TaskUpdates) (l : list Tasks.Task) :
  Tasks.u_id u = None ->
  map Tasks.id
      (map (fun task => if Tasks.hasId i task then Tasks.applyUpdates u task else task) l)
  = map Tasks.id l.
Proof.
  intros Hu. induction l as [|x l IH]; [reflexivity|]. cbn [map]. rewrite IH.
  f_equal. destruct (Tasks.hasId i x); [|reflexivity].
  unfold Tasks.applyUpdates. cbn [Tasks.id]. rewrite Hu. reflexivity.
Qed.

Lemma uniqueIds_reordered (st : Tasks.State) (l : list Tasks.Task) :
  Tasks.uniqueIds st -> Permutation l (Tasks.tasks st) ->
  Tasks.uniqueIds (Tasks.reorderTasks l st).
Proof.
  unfold Tasks.uniqueIds, Tasks.reorderTasks. cbn [Tasks.tasks Tasks.archivedTasks].
  intros H Hp. rewrite map_app, ids_withOrders, <- map_app.
  eapply Permutation_NoDup; [|exact H].
  apply Permutation_map, Permutation_app_tail. symmetry. assumption.
Qed.

(** X4: when no two tasks of the active list and the archive share an id,
    no operation on the lists makes two tasks share one: completing,
    restoring, deleting, counting a pomodoro, clearing the archive, moving a
    task up or down and editing keep the ids distinct, and so does adding a
    task whose new id no task has yet. *)
Theorem uniqueIds_preserved (st : Tasks.State) :
  Tasks.uniqueIds st ->
  (forall now i, Tasks.uniqueIds (Tasks.completeTask now i st))
  /\ (forall i, Tasks.uniqueIds (Tasks.restoreTask i st))
  /\ (forall i, Tasks.uniqueIds (Tasks.deleteTask i st))
  /\ (forall i, Tasks.uniqueIds (fst (Tasks.incrementPomodoro i st)))
  /\ Tasks.uniqueIds (Tasks.clearArchive st)
  /\ (forall index, Tasks.uniqueIds (TaskManagerScreen.handleMoveDown index st))
  /\ (forall index st',
        TaskManagerScreen.handleMoveUp index st = Some st' -> Tasks.uniqueIds st')
  /\ (forall editing title description estimate category,
        Tasks.uniqueIds
          (TaskManagerScreen.handleEditTask editing title description estimate
             category st))
  /\ (forall now title description estimate category,
        ~ In (JS.toString now) (map Tasks.id (Tasks.tasks st ++ Tasks.archivedTasks st)) ->
        Tasks.uniqueIds (Tasks.addTask now title description estimate category st)).
Proof.
  intros H. pose proof H as Hall. unfold Tasks.uniqueIds in H.
  assert (Ht : NoDup (map Tasks.id (Tasks.tasks st))).
  { rewrite map_app in H. eapply NoDup_app_remove_r. exact H. }
  assert (Ha : NoDup (map Tasks.id (Tasks.archivedTasks st))).
  { rewrite map_app in H. eapply NoDup_app_remove_l. exact H. }
  repeat split.
  - intros now i. unfold Tasks.uniqueIds, Tasks.completeTask.
    destruct (find (Tasks.hasId i) (Tasks.tasks st)) as [t|] eqn:E;
      cbn [Tasks.tasks Tasks.archivedTasks]; [|exact H].
    destruct (find_split_nodup i t _ Ht E) as [Hid [l1 [l2 [Hl [H1 H2]]]]].
    rewrite Hl in H |- *.
    rewrite (filter_split i l1 l2 t H1 H2) by (subst i; apply hasId_self).
    eapply Permutation_NoDup; [|exact H].
    rewrite !map_app. cbn [map Tasks.id]. rewrite <- !map_app.
    rewrite !map_app. cbn [map].
    apply (perm_move_right (Tasks.id t) (map Tasks.id l1) (map Tasks.id l2)).
  - intros i. unfold Tasks.uniqueIds, Tasks.restoreTask.
    destruct (find (Tasks.hasId i) (Tasks.archivedTasks st)) as [t|] eqn:E;
      [|exact H].
    cbn [Tasks.tasks Tasks.archivedTasks].
    destruct (find_split_nodup i t _ Ha E) as [Hid [l1 [l2 [Hl [H1 H2]]]]].
    rewrite Hl in H |- *.
    rewrite (filter_split i l1 l2 t H1 H2) by (subst i; apply hasId_self).
    eapply Permutation_NoDup; [|exact H].
    rewrite !map_app. cbn [map Tasks.id].
    apply (perm_move_left (Tasks.id t) (map Tasks.id (Tasks.tasks st))
             (map Tasks.id l1) (map Tasks.id l2)).
  - intros i. unfold Tasks.uniqueIds, Tasks.deleteTask.
    cbn [Tasks.tasks Tasks.archivedTasks].
    apply nodup_map_filter_app. exact H.
  - intros i. unfold Tasks.uniqueIds, Tasks.incrementPomodoro.
    cbn [fst Tasks.tasks Tasks.archivedTasks].
    rewrite map_app, ids_incremented, <- map_app. exact H.
  - unfold Tasks.uniqueIds, Tasks.clearArchive.
    cbn [Tasks.tasks Tasks.archivedTasks]. rewrite app_nil_r. exact Ht.
  - intros index. unfold TaskManagerScreen.handleMoveDown.
    destruct (_ <? _); [|exact Hall].
    apply uniqueIds_reordered; [assumption|apply swapAt_perm].
  - intros index st'. unfold TaskManagerScreen.handleMoveUp.
    destruct (0 <? index)%nat; [|intros E; inversion E; subst; exact Hall].
    destruct (index <? _)%nat; [|discriminate].
    intros E. inversion E; subst.
    apply uniqueIds_reordered; [assumption|apply swapAt_perm].
  - intros editing title description estimate category.
    unfold TaskManagerScreen.handleEditTask.
    destruct editing as [task|]; [|exact Hall].
    unfold Tasks.uniqueIds, Tasks.updateTask.
    cbn [Tasks.tasks Tasks.archivedTasks].
    rewrite map_app, ids_updated by reflexivity. rewrite <- map_app. exact H.
  - intros now title description estimate category Hfresh.
    unfold Tasks.uniqueIds, Tasks.addTask.
    cbn [Tasks.tasks Tasks.archivedTasks].
    eapply Permutation_NoDup;
      [|exact (NoDup_cons (JS.toString now) Hfresh H)].
    rewrite !map_app. cbn [map Tasks.id].
    rewrite <- app_assoc. cbn [app]. apply Permutation_middle.
Qed.

Lemma uniqueIds_preserved_witness :
  let task := Tasks.mkTask "7" "essay" None Insights.study 2 1 false None 10 0 in
  let st := {| Tasks.tasks := [task]; Tasks.archivedTasks := [];
               Tasks.currentTaskId := Some "7"%string |} in
  Tasks.uniqueIds (Tasks.completeTask 99 "7" st)
  /\ Tasks.uniqueIds (Tasks.addTask 8 "notes" None 1 Insights.work st).
Proof.
  intros task st.
  assert (H : Tasks.uniqueIds st).
  { unfold Tasks.uniqueIds. cbn. repeat constructor. intros []. }
  destruct (uniqueIds_preserved st H) as (Hc & _ & _ & _ & _ & _ & _ & _ & Hadd).
  split; [apply Hc|]. apply Hadd. cbn. intros [E|[]]. discriminate.
Defined.

Lemma toString_injective (a b : Z) : JS.toString a = JS.toString b -> a = b.
Proof.
  unfold JS.toString. intros H.
  assert (Hnil : forall z, Z.to_int z <> Decimal.Pos Decimal.Nil
                           /\ Z.to_int z <> Decimal.Neg Decimal.Nil).
  { intros [|p|p]; cbn; split; intros E; inversion E;
      eapply DecimalPos.Unsigned.to_uint_nonnil; eassumption. }
  assert (E : Some (Z.to_int a) = Some (Z.to_int b)).
  { destruct (Hnil a) as [Ha1 Ha2]. destruct (Hnil b) as [Hb1 Hb2].
    rewrite <- (NilZero.isi _ Ha1 Ha2), <- (NilZero.isi _ Hb1 Hb2), H.
    reflexivity. }
  inversion E as [E']. apply (f_equal Z.of_int) in E'.
  rewrite !DecimalZ.of_to in E'. assumption.
Qed.

(** X5: two tasks added one after the other land at the end of the active
    list in that order, their [order] fields continue the positions, and
    they share an id exactly when they were added at the same reading of the
    clock. *)
Theorem addTask_twice (st : Tasks.State) (now1 now2 : Z) (title1 title2 : string)
    (description1 description2 : option string) (estimate1 estimate2 : Z)
    (category1 category2 : Insights.FocusCategory) :
  let st' :=
    Tasks.addTask now2 title2 description2 estimate2 category2
      (Tasks.addTask now1 title1 description1 estimate1 category1 st) in
  exists first second,
    Tasks.tasks st' = Tasks.tasks st ++ [first; second]
    /\ Tasks.title first = title1 /\ Tasks.title second = title2
    /\ Tasks.pomodorosCompleted first = 0 /\ Tasks.pomodorosCompleted second = 0
    /\ Tasks.order first = Z.of_nat (List.length (Tasks.tasks st))
    /\ Tasks.order second = Z.of_nat (List.length (Tasks.tasks st)) + 1
    /\ (Tasks.id first = Tasks.id second <-> now1 = now2).
Proof.
  cbv zeta. unfold Tasks.addTask. cbn [Tasks.tasks].
  eexists. eexists. split; [rewrite <- app_assoc; reflexivity|].
  cbn [Tasks.title Tasks.pomodorosCompleted Tasks.order Tasks.id].
  repeat split.
  - rewrite length_app. cbn [List.length]. lia.
  - apply toString_injective.
  - intros ->. reflexivity.
Qed.

(** X6: completing an active task and restoring it, ids being distinct,
    gives back the archive as it was and moves the task to the end of the
    active list with its counters reset; the other active tasks keep their
    places. *)
Theorem completeTask_restoreTask (now : Z) (st : Tasks.State) (t : Tasks.Task) :
  Tasks.uniqueIds st ->
  In t (Tasks.tasks st) ->
  let st' := Tasks.restoreTask (Tasks.id t) (Tasks.completeTask now (Tasks.id t) st) in
  exists before after restored,
    Tasks.tasks st = before ++ t :: after
    /\ Tasks.tasks st' = (before ++ after) ++ [restored]
    /\ Tasks.archivedTasks st' = Tasks.archivedTasks st
    /\ Tasks.id restored = Tasks.id t
    /\ Tasks.title restored = Tasks.title t
    /\ Tasks.description restored = Tasks.description t
    /\ Tasks.category restored = Tasks.category t
    /\ Tasks.pomodoroEstimate restored = Tasks.pomodoroEstimate t
    /\ Tasks.createdAt restored = Tasks.createdAt t
    /\ Tasks.pomodorosCompleted restored = 0
    /\ Tasks.completed restored = false
    /\ Tasks.completedAt restored = None
    /\ Tasks.order restored = Z.of_nat (List.length (before ++ after)).
Proof.
  intros Hu Hin. destruct (uniqueIds_archive_free st t Hu Hin) as [Hocc Harch].
  destruct (unique_split t _ Hin Hocc) as [l1 [l2 [Hl [H1 H2]]]].
  cbv zeta. unfold Tasks.completeTask. rewrite Hl.
  rewrite (find_skip _ l1 l2 t H1 (hasId_self t)).
  rewrite (filter_split _ l1 l2 t H1 H2 (hasId_self t)).
  match goal with
  | |- context [?c :: Tasks.archivedTasks st] =>
      assert (Hc : Tasks.hasId (Tasks.id t) c = true)
        by (unfold Tasks.hasId; cbn [Tasks.id]; apply String.eqb_refl);
      set (archived := c) in *
  end.
  unfold Tasks.restoreTask. cbn [Tasks.archivedTasks Tasks.tasks].
  pose proof (find_skip _ [] (Tasks.archivedTasks st) archived (Forall_nil _) Hc)
    as Hf.
  pose proof (filter_split _ [] (Tasks.archivedTasks st) archived
                (Forall_nil _) Harch Hc) as Hr.
  cbn [app] in Hf, Hr. rewrite Hf, Hr.
  cbn [Tasks.archivedTasks Tasks.tasks].
  exists l1, l2. eexists.
  split; [reflexivity|]. split; [reflexivity|]. split; [reflexivity|].
  cbn. repeat split.
Qed.

Lemma completeTask_restoreTask_witness :
  let task := Tasks.mkTask "7" "essay" None Insights.study 2 2 false None 10 0 in
  let other := Tasks.mkTask "8" "notes" None Insights.work 1 0 false None 11 1 in
  let st := {| Tasks.tasks := [task; other]; Tasks.archivedTasks := [];
               Tasks.currentTaskId := None |} in
  let st' := Tasks.restoreTask "7" (Tasks.completeTask 99 "7" st) in
  exists before after restored,
    Tasks.tasks st = before ++ task :: after
    /\ Tasks.tasks st' = (before ++ after) ++ [restored]
    /\ Tasks.archivedTasks st' = Tasks.archivedTasks st
    /\ Tasks.id restored = Tasks.id task
    /\ Tasks.title restored = Tasks.title task
    /\ Tasks.description restored = Tasks.description task
    /\ Tasks.category restored = Tasks.category task
    /\ Tasks.pomodoroEstimate restored = Tasks.pomodoroEstimate task
    /\ Tasks.createdAt restored = Tasks.createdAt task
    /\ Tasks.pomodorosCompleted restored = 0
    /\ Tasks.completed restored = false
    /\ Tasks.completedAt restored = None
    /\ Tasks.order restored = Z.of_nat (List.length (before ++ after)).
Proof.
  intros task other st.
  apply (completeTask_restoreTask 99 st task).
  - unfold Tasks.uniqueIds. cbn. repeat constructor.
    + intros [E|[]]. discriminate.
    + intros [].
  - left. reflexivity.
Defined.

(** ** Moving tasks up and down *)

Lemma orders_withOrders (l : list Tasks.Task) :
  forall k, map Tasks.order (Tasks.withOrders k l)
            = map Z.of_nat (seq k (List.length l)).
Proof.
  induction l as [|x l IH]; intros k; [reflexivity|].
  cbn [Tasks.withOrders map List.length seq]. rewrite IH. reflexivity.
Qed.

Lemma erase_withOrders (l : list Tasks.Task) :
  forall k, map (Tasks.withOrder 0) (Tasks.withOrders k l)
            = map (Tasks.withOrder 0) l.
Proof.
  induction l as [|x l IH]; intros k; [reflexivity|].
  cbn [Tasks.withOrders map]. rewrite IH. reflexivity.
Qed.

Lemma withOrders_erased (l : list Tasks.Task) :
  forall l' k,
    map (Tasks.withOrder 0) l = map (Tasks.withOrder 0) l' ->
    Tasks.withOrders k l = Tasks.withOrders k l'.
Proof.
  induction l as [|x l IH]; intros [|y l'] k H; try discriminate; [reflexivity|].
  cbn [map] in H. inversion H as [[H1 H2 H3 H4 H5 H6 H7 H8 H9 H10]] .
  cbn [Tasks.withOrders]. f_equal.
  - unfold Tasks.withOrder in *. congruence.
  - apply IH. assumption.
Qed.

Lemma swapAt_map {A B : Type} (f : A -> B) (l : list A) :
  forall i, map f (TaskManagerScreen.swapAt i l)
            = TaskManagerScreen.swapAt i (map f l).
Proof.
  induction l as [|a l IH]; intros [|j]; try reflexivity.
  - destruct l; reflexivity.
  - cbn. rewrite IH. reflexivity.
Qed.

Lemma swapAt_twice {A : Type} (l : list A) :
  forall i, TaskManagerScreen.swapAt i (TaskManagerScreen.swapAt i l) = l.
Proof.
  induction l as [|a l IH]; intros [|j]; try reflexivity.
  - destruct l; reflexivity.
  - cbn. rewrite IH. reflexivity.
Qed.

Lemma swapAt_here {A : Type} (before : list A) (a b : A) (after : list A) :
  TaskManagerScreen.swapAt (List.length before) (before ++ a :: b :: after)
  = before ++ b :: a :: after.
Proof.
  induction before as [|x l IH]; [reflexivity|].
  cbn. rewrite IH. reflexivity.
Qed.

Lemma length_withOrders (l : list Tasks.Task) :
  forall k, List.length (Tasks.withOrders k l) = List.length l.
Proof.
  induction l as [|x l IH]; intros k; [reflexivity|].
  cbn [Tasks.withOrders List.length]. rewrite IH. reflexivity.
Qed.

(** X7: moving the task at a position down swaps it with the next one:
    the tasks are the same but for their [order] fields, which are the
    positions again; archive and selection are untouched; moving the task
    back up gives the first sequence again.  The first row does not move up
    and the last row does not move down. *)
Theorem handleMoveDown_swaps (st : Tasks.State) (before : list Tasks.Task)
    (a b : Tasks.Task) (after : list Tasks.Task) :
  Tasks.tasks st = before ++ a :: b :: after ->
  let index := List.length before in
  let st' := TaskManagerScreen.handleMoveDown index st in
  map (Tasks.withOrder 0) (Tasks.tasks st')
  = map (Tasks.withOrder 0) (before ++ b :: a :: after)
  /\ map Tasks.order (Tasks.tasks st')
     = map Z.of_nat (seq 0 (List.length (Tasks.tasks st)))
  /\ Tasks.archivedTasks st' = Tasks.archivedTasks st
  /\ Tasks.currentTaskId st' = Tasks.currentTaskId st
  /\ TaskManagerScreen.handleMoveUp (S index) st'
     = Some (Tasks.reorderTasks (Tasks.tasks st) st)
  /\ TaskManagerScreen.handleMoveUp 0 st = Some st
  /\ TaskManagerScreen.handleMoveDown
       (List.length (Tasks.tasks st) - 1) st = st.
Proof.
  intros Hl index st'.
  assert (Hlen : List.length (Tasks.tasks st)
                 = (index + 2 + List.length after)%nat).
  { rewrite Hl, length_app. cbn [List.length]. subst index. lia. }
  assert (Hst' : st' = Tasks.reorderTasks
                         (TaskManagerScreen.swapAt index (Tasks.tasks st)) st).
  { subst st'. unfold TaskManagerScreen.handleMoveDown.
    destruct (_ <? _) eqn:E; [reflexivity|]. apply Z.ltb_ge in E. lia. }
  rewrite Hst'. clear Hst' st'.
  split.
  { unfold Tasks.reorderTasks. cbn [Tasks.tasks].
    rewrite erase_withOrders, Hl. subst index. rewrite swapAt_here. reflexivity. }
  split.
  { unfold Tasks.reorderTasks. cbn [Tasks.tasks].
    rewrite orders_withOrders. f_equal. f_equal.
    apply Permutation_length, swapAt_perm. }
  split; [reflexivity|]. split; [reflexivity|].
  split.
  { unfold TaskManagerScreen.handleMoveUp, Tasks.reorderTasks.
    cbn [Tasks.tasks Tasks.archivedTasks Tasks.currentTaskId].
    change (0 <? S index)%nat with true. cbv iota.
    rewrite length_withOrders,
      (Permutation_length (swapAt_perm (Tasks.tasks st) index)).
    destruct (S index <? List.length (Tasks.tasks st))%nat eqn:E;
      [|apply Nat.ltb_ge in E; lia].
    f_equal. f_equal.
    replace (S index - 1)%nat with index by lia.
    apply withOrders_erased.
    rewrite swapAt_map, erase_withOrders, <- swapAt_map, swapAt_twice.
    reflexivity. }
  split; [reflexivity|].
  unfold TaskManagerScreen.handleMoveDown.
  destruct (_ <? _) eqn:E; [|reflexivity]. apply Z.ltb_lt in E. lia.
Qed.

Lemma handleMoveDown_swaps_witness :
  let first := Tasks.mkTask "7" "essay" None Insights.study 2 0 false None 10 0 in
  let second := Tasks.mkTask "8" "notes" None Insights.work 1 0 false None 11 1 in
  let st := {| Tasks.tasks := [first; second]; Tasks.archivedTasks := [];
               Tasks.currentTaskId := None |} in
  map Tasks.title (Tasks.tasks (TaskManagerScreen.handleMoveDown 0 st))
  = ["notes"%string; "essay"%string]
  /\ map Tasks.order (Tasks.tasks (TaskManagerScreen.handleMoveDown 0 st)) = [0; 1].
Proof.
  intros first second st.
  destruct (handleMoveDown_swaps st [] first second [] eq_refl) as [_ [Ho _]].
  split; [reflexivity|exact Ho].
Defined.

(** ** Daily stats, category stats and the heat map *)

Lemma existsb_filter_other (x a : Z) (l : list Z) :
  x <> a ->
  existsb (Z.eqb x) (filter (fun y => negb (y =? a)) l) = existsb (Z.eqb x) l.
Proof.
  intros Hne. induction l as [|y l IH]; [reflexivity|]. simpl.
  destruct (y =? a) eqn:Ey; simpl; rewrite IH; [|reflexivity].
  apply Z.eqb_eq in Ey. subst y.
  destruct (x =? a) eqn:E; [apply Z.eqb_eq in E; contradiction|reflexivity].
Qed.

Lemma newSet_snoc (l : list Z) (x : Z) :
  Insights.newSet (l ++ [x])
  = if existsb (Z.eqb x) (Insights.newSet l)
    then Insights.newSet l else Insights.newSet l ++ [x].
Proof.
  induction l as [|a l IH]; [reflexivity|].
  cbn [app Insights.newSet existsb]. rewrite IH.
  destruct (x =? a) eqn:Exa.
  - apply Z.eqb_eq in Exa. subst a. cbn [orb].
    destruct (existsb (Z.eqb x) (Insights.newSet l)); [reflexivity|].
    rewrite filter_app. cbn [filter]. rewrite Z.eqb_refl. cbn [negb].
    rewrite app_nil_r. reflexivity.
  - apply Z.eqb_neq in Exa. cbn [orb].
    rewrite (existsb_filter_other x a _ Exa).
    destruct (existsb (Z.eqb x) (Insights.newSet l)); [reflexivity|].
    rewrite filter_app. cbn [filter].
    destruct (x =? a) eqn:E; [apply Z.eqb_eq in E; contradiction|].
    reflexivity.
Qed.

Lemma minutes_app (l1 l2 : list Insights.FocusSession) :
  Insights.minutes (l1 ++ l2) = Insights.minutes l1 + Insights.minutes l2.
Proof.
  unfold Insights.minutes. induction l1 as [|x l IH]; simpl; [reflexivity|].
  rewrite IH. ring.
Qed.

Lemma statsOfDay_snoc_other (ss : list Insights.FocusSession)
    (s : Insights.FocusSession) (day : Z) :
  day <> Insights.date s ->
  Insights.statsOfDay (ss ++ [s]) day = Insights.statsOfDay ss day.
Proof.
  intros Hne. unfold Insights.statsOfDay, Insights.sessionsOn.
  rewrite filter_app. cbn [filter].
  destruct (Insights.date s =? day) eqn:E; [apply Z.eqb_eq in E; congruence|].
  rewrite app_nil_r. reflexivity.
Qed.

Lemma statsOfDay_snoc_same (ss : list Insights.FocusSession)
    (s : Insights.FocusSession) :
  Insights.statsOfDay (ss ++ [s]) (Insights.date s)
  = {| Insights.Daily.date := Insights.date s;
       Insights.Daily.totalMinutes :=
         Insights.Daily.totalMinutes (Insights.statsOfDay ss (Insights.date s))
         + Insights.duration s;
       Insights.Daily.pomodorosCompleted :=
         Insights.Daily.pomodorosCompleted (Insights.statsOfDay ss (Insights.date s)) + 1;
       Insights.Daily.sessions :=
         Insights.Daily.sessions (Insights.statsOfDay ss (Insights.date s)) ++ [s] |}.
Proof.
  unfold Insights.statsOfDay, Insights.sessionsOn.
  cbn [Insights.Daily.totalMinutes Insights.Daily.pomodorosCompleted
       Insights.Daily.sessions].
  rewrite filter_app. cbn [filter]. rewrite Z.eqb_refl.
  rewrite minutes_app, length_app. cbn [List.length].
  f_equal.
  - unfold Insights.minutes at 2. cbn [fold_right]. ring.
  - lia.
Qed.

Lemma recordSession_days (ss : list Insights.FocusSession)
    (s : Insights.FocusSession) (days : list Z) :
  NoDup days ->
  (existsb (Z.eqb (Insights.date s)) days = false ->
   Insights.sessionsOn (Insights.date s) ss = []) ->
  Insights.recordSession s (map (Insights.statsOfDay ss) days)
  = map (Insights.statsOfDay (ss ++ [s]))
        (if existsb (Z.eqb (Insights.date s)) days
         then days else days ++ [Insights.date s]).
Proof.
  intros Hn. induction Hn as [|day rest Hday Hrest IH]; intros Hnone.
  - cbn [map Insights.recordSession existsb app].
    rewrite statsOfDay_snoc_same. unfold Insights.statsOfDay.
    rewrite (Hnone eq_refl). reflexivity.
  - cbn [map Insights.recordSession existsb Insights.statsOfDay Insights.Daily.date].
    rewrite (Z.eqb_sym (Insights.date s) day).
    destruct (day =? Insights.date s) eqn:E; cbn [orb].
    + apply Z.eqb_eq in E. subst day. cbn [map]. rewrite statsOfDay_snoc_same.
      f_equal. apply map_ext_in. intros d Hd. symmetry.
      apply statsOfDay_snoc_other. intros ->. contradiction.
    + rewrite IH.
      2:{ intros H. apply Hnone. cbn [existsb].
          rewrite (Z.eqb_sym (Insights.date s) day), E, H. reflexivity. }
      apply Z.eqb_neq in E.
      destruct (existsb (Z.eqb (Insights.date s)) rest); cbn [map app];
        rewrite (statsOfDay_snoc_other ss s day E); reflexivity.
Qed.

Lemma existsb_newSet (x : Z) (l : list Z) :
  existsb (Z.eqb x) (Insights.newSet l) = false -> ~ In x l.
Proof.
  intros H Hin. apply newSet_In in Hin.
  assert (existsb (Z.eqb x) (Insights.newSet l) = true).
  { apply existsb_exists. exists x. split; [assumption|apply Z.eqb_refl]. }
  congruence.
Qed.

Lemma sessionsOn_none (day : Z) (ss : list Insights.FocusSession) :
  ~ In day (map Insights.date ss) -> Insights.sessionsOn day ss = [].
Proof.
  intros H. unfold Insights.sessionsOn. induction ss as [|s ss IH]; [reflexivity|].
  cbn [filter]. destruct (Insights.date s =? day) eqn:E.
  - apply Z.eqb_eq in E. exfalso. apply H. left. assumption.
  - apply IH. intros Hin. apply H. right. assumption.
Qed.

Lemma dailyStats_days (ss : list Insights.FocusSession) :
  Insights.dailyStats ss
  = map (Insights.statsOfDay ss) (Insights.newSet (map Insights.date ss)).
Proof.
  induction ss as [|s ss IH] using rev_ind; [reflexivity|].
  unfold Insights.dailyStats in *. rewrite fold_left_app. cbn [fold_left].
  rewrite IH, map_app. cbn [map]. rewrite newSet_snoc.
  apply recordSession_days; [apply newSet_NoDup|].
  intros H. apply sessionsOn_none. apply existsb_newSet. assumption.
Qed.

Lemma getDaily_dailyStats (ss : list Insights.FocusSession) (day : Z) :
  Insights.getDaily day (Insights.dailyStats ss)
  = match Insights.sessionsOn day ss with
    | [] => None
    | _ :: _ => Some (Insights.statsOfDay ss day)
    end.
Proof.
  rewrite dailyStats_days. unfold Insights.getDaily.
  destruct (in_dec Z.eq_dec day (map Insights.date ss)) as [Hin|Hnot].
  - assert (Hs : Insights.sessionsOn day ss <> []).
    { apply in_map_iff in Hin. destruct Hin as [s [Hd Hs]].
      intros E. assert (Hx : In s (Insights.sessionsOn day ss)).
      { apply filter_In. split; [assumption|]. apply Z.eqb_eq. assumption. }
      rewrite E in Hx. destruct Hx. }
    destruct (Insights.sessionsOn day ss) eqn:E; [congruence|].
    clear E Hs.
    apply newSet_In in Hin.
    induction (Insights.newSet (map Insights.date ss)) as [|d ds IHd];
      [destruct Hin|].
    cbn [map find Insights.statsOfDay Insights.Daily.date].
    destruct (d =? day) eqn:Ed.
    + apply Z.eqb_eq in Ed. subst d. reflexivity.
    + apply IHd. destruct Hin as [->|Hin]; [|assumption].
      rewrite Z.eqb_refl in Ed. discriminate.
  - rewrite (sessionsOn_none day ss Hnot).
    assert (Hn : ~ In day (Insights.newSet (map Insights.date ss))).
    { rewrite newSet_In. assumption. }
    induction (Insights.newSet (map Insights.date ss)) as [|d ds IHd];
      [reflexivity|].
    cbn [map find Insights.statsOfDay Insights.Daily.date].
    destruct (d =? day) eqn:Ed.
    + apply Z.eqb_eq in Ed. exfalso. apply Hn. left. assumption.
    + apply IHd. intros Hin. apply Hn. right. assumption.
Qed.

(** X8: the daily stats hold one entry per distinct session date, in the
    order the dates first occur; the entry of a day holds the sessions of
    that day in order, their number and the sum of their minutes.  Looking
    up a day without a session finds nothing. *)
Theorem dailyStats_by_day (ss : list Insights.FocusSession) (day : Z) :
  Insights.dailyStats ss
  = map (Insights.statsOfDay ss) (Insights.newSet (map Insights.date ss))
  /\ Insights.getDaily day (Insights.dailyStats ss)
     = match Insights.sessionsOn day ss with
       | [] => None
       | _ :: _ => Some (Insights.statsOfDay ss day)
       end.
Proof.
  split; [apply dailyStats_days|apply getDaily_dailyStats].
Qed.

Lemma fold_left_sum {A : Type} (g : A -> Z) (l : list A) :
  forall a, fold_left (fun sum x => sum + g x) l a
            = a + fold_right (fun x total => g x + total) 0 l.
Proof.
  induction l as [|x l IH]; intros a; cbn [fold_left fold_right]; [ring|].
  rewrite IH. ring.
Qed.

Lemma recordSession_total (s : Insights.FocusSession)
    (stats : list Insights.Daily.DailyStats) :
  fold_right (fun d total => Insights.Daily.totalMinutes d + total) 0
             (Insights.recordSession s stats)
  = fold_right (fun d total => Insights.Daily.totalMinutes d + total) 0 stats
    + Insights.duration s.
Proof.
  induction stats as [|d rest IH]; cbn [Insights.recordSession fold_right].
  - cbn. ring.
  - destruct (Insights.Daily.date d =? Insights.date s); cbn [fold_right].
    + cbn [Insights.Daily.totalMinutes]. ring.
    + rewrite IH. ring.
Qed.

Lemma categoryStats_fold (c : Insights.FocusCategory)
    (ss : list Insights.FocusSession) :
  forall acc,
    Insights.minutesOf c
      (fold_left (fun stats session =>
                    Insights.addMinutes (Insights.category session)
                      (Insights.duration session) stats) ss acc)
    = Insights.minutesOf c acc + Insights.minutes (Insights.sessionsIn c ss).
Proof.
  induction ss as [|s ss IH]; intros acc; cbn [fold_left].
  - unfold Insights.sessionsIn, Insights.minutes. cbn. ring.
  - rewrite IH. unfold Insights.sessionsIn. cbn [filter].
    destruct (Insights.category s), c; cbn [Insights.sameCategory];
      unfold Insights.minutes; cbn [fold_right Insights.addMinutes Insights.minutesOf
                                     Insights.cs_work Insights.cs_study
                                     Insights.cs_personal Insights.cs_health
                                     Insights.cs_other]; ring.
Qed.

Lemma categoryStats_total (ss : list Insights.FocusSession) :
  forall acc,
    let stats :=
      fold_left (fun stats session =>
                   Insights.addMinutes (Insights.category session)
                     (Insights.duration session) stats) ss acc in
    Insights.cs_work stats + Insights.cs_study stats + Insights.cs_personal stats
    + Insights.cs_health stats + Insights.cs_other stats
    = Insights.cs_work acc + Insights.cs_study acc + Insights.cs_personal acc
      + Insights.cs_health acc + Insights.cs_other acc + Insights.minutes ss.
Proof.
  induction ss as [|s ss IH]; intros acc; cbn [fold_left]; cbv zeta.
  - unfold Insights.minutes. cbn. ring.
  - cbv zeta in IH. rewrite IH. unfold Insights.minutes. cbn [fold_right].
    destruct (Insights.category s);
      cbn [Insights.addMinutes Insights.cs_work Insights.cs_study
           Insights.cs_personal Insights.cs_health Insights.cs_other]; ring.
Qed.

(** X9: the total of the daily stats and the total of the category stats
    both are the sum of the minutes of all sessions, and the entry of a
    category is the sum of the minutes of the sessions of that category. *)
Theorem totals_agree (ss : list Insights.FocusSession) :
  InsightsScreen.totalMinutes ss = Insights.minutes ss
  /\ InsightsScreen.totalCategoryMinutes ss = Insights.minutes ss
  /\ forall c, Insights.minutesOf c (Insights.categoryStats ss)
               = Insights.minutes (Insights.sessionsIn c ss).
Proof.
  split; [|split].
  - unfold InsightsScreen.totalMinutes. rewrite fold_left_sum.
    unfold Insights.dailyStats.
    induction ss as [|s ss IH] using rev_ind; [reflexivity|].
    rewrite fold_left_app. cbn [fold_left]. rewrite recordSession_total.
    rewrite minutes_app. unfold Insights.minutes at 2. cbn [fold_right].
    lia.
  - unfold InsightsScreen.totalCategoryMinutes, Insights.categoryStats.
    cbn [fold_left].
    pose proof (categoryStats_total ss (Insights.mkCategoryStats 0 0 0 0 0)) as H.
    cbv zeta in H. cbn [Insights.cs_work Insights.cs_study Insights.cs_personal
                        Insights.cs_health Insights.cs_other] in H.
    lia.
  - intros c. unfold Insights.categoryStats. rewrite categoryStats_fold.
    destruct c; cbn; ring.
Qed.

(** Where the zone offset at the local time [i] days ago is the offset
    now, [dateDaysAgo] is the UTC date of today minus [i] days. *)
Lemma dateDaysAgo_steady (tza : Insights.LocalTZA) (now : Z) (i : nat) :
  tza (Insights.LocalTime tza now - Z.of_nat i * Insights.msPerDay) false
  = tza now true ->
  Insights.dateDaysAgo tza now i = Insights.getDateString now - Z.of_nat i.
Proof.
  intros H. unfold Insights.dateDaysAgo, Insights.UTC. rewrite H.
  unfold Insights.LocalTime, Insights.getDateString, JS.floorDiv.
  replace (now + tza now true - Z.of_nat i * Insights.msPerDay - tza now true)
    with (now + (- Z.of_nat i) * Insights.msPerDay) by ring.
  rewrite Z.div_add by (unfold Insights.msPerDay; discriminate). ring.
Qed.

(** X10: the heat map of [weeks] weeks has seven cells per week; the cell
    [i] places before the last carries the date that [setDate] and
    [toISOString] give for [i] days ago in the time zone of the host, and
    the count of a cell is the number of sessions recorded on its date.
    When the zone offset at the local times of these days is the offset
    now, the dates are the consecutive UTC days that end with today's. *)
Theorem getHeatmapData_cells (tza : Insights.LocalTZA) (now : Z)
    (ss : list Insights.FocusSession) (weeks : Z) :
  let data := Insights.getHeatmapData tza now ss weeks in
  let n := Z.to_nat (7 * weeks) in
  List.length data = n
  /\ map fst data = map (Insights.dateDaysAgo tza now) (rev (seq 0 n))
  /\ Forall (fun cell =>
               snd cell
               = Z.of_nat (List.length (Insights.sessionsOn (fst cell) ss))) data
  /\ ((forall i, (i < n)%nat ->
         tza (Insights.LocalTime tza now - Z.of_nat i * Insights.msPerDay) false
         = tza now true) ->
      map fst data
      = map (fun i => Insights.getDateString now - Z.of_nat i) (rev (seq 0 n))).
Proof.
  cbv zeta. unfold Insights.getHeatmapData.
  replace (weeks * 7) with (7 * weeks) by ring.
  split; [rewrite length_map, length_rev, length_seq; reflexivity|].
  split; [rewrite map_map; reflexivity|].
  split.
  - apply Forall_forall. intros cell Hin. apply in_map_iff in Hin.
    destruct Hin as [i [<- _]]. cbn [fst snd].
    rewrite getDaily_dailyStats.
    destruct (Insights.sessionsOn (Insights.dateDaysAgo tza now i) ss) eqn:E;
      [reflexivity|].
    unfold Insights.statsOfDay. cbn [Insights.Daily.pomodorosCompleted].
    rewrite E. reflexivity.
  - intros Hsteady. rewrite map_map. cbn [fst]. apply map_ext_in.
    intros i Hin. apply dateDaysAgo_steady, Hsteady.
    apply in_rev, in_seq in Hin. lia.
Qed.

Lemma getHeatmapData_cells_witness :
  let tza : Insights.LocalTZA := fun _ _ => 3600000 in
  map fst (Insights.getHeatmapData tza 1731198600000 [] 1)
  = [20031; 20032; 20033; 20034; 20035; 20036; 20037].
Proof.
  intros tza.
  rewrite (proj2 (proj2 (proj2 (getHeatmapData_cells tza 1731198600000 [] 1)))).
  - reflexivity.
  - intros i _. reflexivity.
Defined.

(** Central European time in the autumn of 2024: two hours ahead of UTC
    until 01:00 UTC on 27 October, that is 03:00 local time, one hour
    ahead from then on.  At 01:30 local time on 10 November (day 20037) the
    cell of 14 days ago is dated 26 October (day 20022) and the cell of 13
    days ago 28 October (day 20024): no cell carries 27 October. *)
Example getHeatmapData_skips_a_day :
  let change := 20023 * Insights.msPerDay + 3600000 in
  let tza : Insights.LocalTZA :=
    fun t isUTC =>
      if isUTC
      then (if t <? change then 7200000 else 3600000)
      else (if t <? change + 7200000 then 7200000 else 3600000) in
  let now := 20037 * Insights.msPerDay + 1800000 in
  map fst (Insights.getHeatmapData tza now [] 3)
  = [20016; 20017; 20018; 20019; 20020; 20021; 20022;
     20024; 20025; 20026; 20027; 20028; 20029; 20030;
     20031; 20032; 20033; 20034; 20035; 20036; 20037].
Proof. vm_compute. reflexivity. Qed.

(** ** What the streak counters count *)

Lemma runLengths_step (x y : Z) (r : list Z) :
  Insights.runLengths (x :: y :: r)
  = match Insights.runLengths (y :: r) with
    | n :: ns => if x - y =? 1 then (n + 1) :: ns else 1 :: n :: ns
    | [] => [1]
    end.
Proof. reflexivity. Qed.

(** The first run of a descending list starts at its head, holds every day
    down to its end and stops there. *)
Lemma first_run (l : list Z) :
  forall x, StronglySorted Z.gt (x :: l) ->
    exists n ns,
      Insights.runLengths (x :: l) = n :: ns
      /\ 1 <= n
      /\ Insights.consecutive n x (x :: l)
      /\ ~ In (x - n) (x :: l).
Proof.
  induction l as [|y r IH]; intros x Hs.
  - exists 1, []. split; [reflexivity|]. split; [lia|]. split.
    + intros i Hi. left. lia.
    + intros [E|[]]. lia.
  - inversion Hs as [|? ? Hyr Hx]; subst.
    destruct (IH y Hyr) as [n [ns [E [Hn [Hc Hend]]]]].
    assert (Hlt : forall z, In z (y :: r) -> z < x).
    { rewrite Forall_forall in Hx. intros z Hz. specialize (Hx z Hz). lia. }
    assert (Hle : forall z, In z (y :: r) -> z <= y).
    { intros z [->|Hz]; [lia|]. inversion Hyr as [|? ? _ Hy]; subst.
      rewrite Forall_forall in Hy. specialize (Hy z Hz). lia. }
    rewrite runLengths_step, E.
    destruct (x - y =? 1) eqn:Egap.
    + apply Z.eqb_eq in Egap. exists (n + 1), ns.
      split; [reflexivity|]. split; [lia|]. split.
      * intros i Hi. destruct (Z.eq_dec i 0) as [->|Hi0]; [left; lia|].
        right. replace (x - i) with (y - (i - 1)) by lia. apply Hc. lia.
      * intros [E'|Hin]; [lia|]. apply Hend.
        replace (y - n) with (x - (n + 1)) by lia. assumption.
    + apply Z.eqb_neq in Egap. exists 1, (n :: ns).
      split; [reflexivity|]. split; [lia|]. split.
      * intros i Hi. left. lia.
      * intros [E'|Hin]; [lia|].
        pose proof (Hle _ Hin). pose proof (Hlt y (or_introl eq_refl)). lia.
Qed.

Lemma longest_cons_ge (x : Z) (l : list Z) :
  Insights.longest (Insights.runLengths l)
  <= Insights.longest (Insights.runLengths (x :: l)).
Proof.
  destruct l as [|y r]; [cbn; lia|].
  rewrite runLengths_step.
  destruct (runLengths_cons y r) as [n [ns [E Hn]]]. rewrite E.
  destruct (x - y =? 1); cbn [Insights.longest fold_right]; lia.
Qed.

Lemma consecutive_tail (n d x : Z) (l : list Z) :
  1 <= n -> d < x -> Insights.consecutive n d (x :: l) -> Insights.consecutive n d l.
Proof.
  intros Hn Hd Hc i Hi. destruct (Hc i Hi) as [E|Hin]; [lia|assumption].
Qed.

(** No block of consecutive days among the dates is longer than the longest
    run. *)
Lemma longest_bounds (l : list Z) :
  StronglySorted Z.gt l ->
  forall d n, 1 <= n -> Insights.consecutive n d l ->
    n <= Insights.longest (Insights.runLengths l).
Proof.
  intros Hs. induction Hs as [|x l Hl IH Hx]; intros d n Hn Hc.
  - destruct (Hc 0 ltac:(lia)).
  - pose proof (Hc 0 ltac:(lia)) as H0. rewrite Z.sub_0_r in H0.
    destruct H0 as [E|Hin].
    + subst d.
      destruct (first_run l x (SSorted_cons x Hl Hx)) as [n1 [ns [E [H1 [_ Hend]]]]].
      rewrite E. cbn [Insights.longest fold_right].
      destruct (Z_le_gt_dec n n1) as [Hle|Hgt]; [lia|].
      exfalso. apply Hend. apply Hc. lia.
    + rewrite Forall_forall in Hx. pose proof (Hx d Hin).
      pose proof (IH d n Hn (consecutive_tail n d x l Hn ltac:(lia) Hc)).
      pose proof (longest_cons_ge x l). lia.
Qed.

(** Some block of consecutive days among the dates is as long as the
    longest run. *)
Lemma longest_reached (l : list Z) :
  StronglySorted Z.gt l ->
  exists d, Insights.consecutive (Insights.longest (Insights.runLengths l)) d l.
Proof.
  intros Hs. induction Hs as [|x l Hl IH Hx].
  - exists 0. intros i Hi. cbn in Hi. lia.
  - destruct (first_run l x (SSorted_cons x Hl Hx)) as [n1 [ns [E [H1 [Hc _]]]]].
    destruct (Z_le_gt_dec (Insights.longest (Insights.runLengths (x :: l))) n1)
      as [Hle|Hgt].
    + exists x. intros i Hi. apply Hc. lia.
    + destruct IH as [d Hd]. exists d.
      assert (Heq : Insights.longest (Insights.runLengths (x :: l))
                    = Insights.longest (Insights.runLengths l)).
      { destruct l as [|y r].
        { rewrite E in Hgt. cbn [Insights.runLengths] in E. inversion E; subst.
          cbn [Insights.longest fold_right] in Hgt. lia. }
        rewrite runLengths_step in *.
        destruct (runLengths_cons y r) as [n [ns' [E' Hn]]]. rewrite E' in *.
        destruct (x - y =? 1); inversion E; subst;
          cbn [Insights.longest fold_right] in *; lia. }
      rewrite Heq. intros i Hi. right. apply Hd. assumption.
Qed.

Lemma best_is_longest (now : Z) (ss : list Insights.FocusSession) :
  Insights.best (Insights.calculateStreaks now ss)
  = Insights.longest (Insights.runLengths (Insights.uniqueDates ss)).
Proof. rewrite calculateStreaks_refines. reflexivity. Qed.

Lemma consecutive_same_days (n d : Z) (l l' : list Z) :
  (forall x, In x l -> In x l') ->
  Insights.consecutive n d l -> Insights.consecutive n d l'.
Proof. intros H Hc i Hi. apply H, Hc, Hi. Qed.

(** X11: the best streak is the length of the longest block of
    consecutive calendar days that all have a session: some block of that
    length exists, and no block is longer. *)
Theorem best_streak_longest_block (now : Z) (ss : list Insights.FocusSession) :
  let b := Insights.best (Insights.calculateStreaks now ss) in
  let days := map Insights.date ss in
  0 <= b
  /\ (exists d, Insights.consecutive b d days)
  /\ (forall d n, Insights.consecutive n d days -> n <= b).
Proof.
  intros b days. subst b. rewrite best_is_longest.
  destruct (uniqueDates_distinct_descending ss) as [Hs Hu].
  split; [apply longest_nonneg|]. split.
  - destruct (longest_reached _ Hs) as [d Hd]. exists d.
    eapply consecutive_same_days; [|exact Hd]. intros x. apply Hu.
  - intros d n Hc.
    destruct (Z_le_gt_dec n 0) as [Hle|Hgt].
    + pose proof (longest_nonneg (Insights.runLengths (Insights.uniqueDates ss))).
      lia.
    + apply (longest_bounds _ Hs d n); [lia|].
      eapply consecutive_same_days; [|exact Hc]. intros x. apply Hu.
Qed.

Lemma best_streak_longest_block_witness :
  let session (day : Z) :=
    Insights.mkFocusSession "s" day 25 Insights.work None None 0 in
  2 <= Insights.best
         (Insights.calculateStreaks 1700000000000
            [session 10; session 3; session 11; session 7]).
Proof.
  intros session.
  apply (proj2 (proj2 (best_streak_longest_block 1700000000000
                         [session 10; session 3; session 11; session 7])) 11 2).
  intros i Hi. assert (E : i = 0 \/ i = 1) by lia.
  destruct E as [->| ->]; cbn; auto.
Defined.

Lemma head_is_latest (x m : Z) (r : list Z) :
  StronglySorted Z.gt (x :: r) -> In m (x :: r) ->
  (forall d, In d (x :: r) -> d <= m) -> x = m.
Proof.
  intros Hs Hin Hmax. pose proof (Hmax x (or_introl eq_refl)).
  destruct Hin as [E|Hin]; [assumption|].
  inversion Hs as [|? ? _ Hx]; subst. rewrite Forall_forall in Hx.
  specialize (Hx m Hin). lia.
Qed.

Lemma current_is_first_run (now : Z) (ss : list Insights.FocusSession)
    (x : Z) (r : list Z) :
  Insights.uniqueDates ss = x :: r ->
  Insights.current (Insights.calculateStreaks now ss)
  = if (x =? Insights.getDateString now) || (x =? Insights.getDateString now - 1)
    then hd 0 (Insights.runLengths (x :: r)) else 0.
Proof.
  intros E. rewrite calculateStreaks_refines, E. reflexivity.
Qed.

(** X12: let [m] be the most recent session date.  When [m] is today or
    yesterday, the current streak is the length of the block of consecutive
    session days that ends with [m]: those days all have a session and the
    day before the block has none.  Otherwise the current streak is 0. *)
Theorem current_streak_latest_block (now : Z) (ss : list Insights.FocusSession)
    (m : Z) :
  let c := Insights.current (Insights.calculateStreaks now ss) in
  let days := map Insights.date ss in
  let today := Insights.getDateString now in
  In m days ->
  (forall d, In d days -> d <= m) ->
  ((m = today \/ m = today - 1) ->
   1 <= c /\ Insights.consecutive c m days /\ ~ In (m - c) days)
  /\ (m <> today -> m <> today - 1 -> c = 0).
Proof.
  intros c days today Hin Hmax. subst c.
  destruct (uniqueDates_distinct_descending ss) as [Hs Hu].
  destruct (Insights.uniqueDates ss) as [|x r] eqn:E.
  { exfalso. apply (proj2 (Hu m)) in Hin. destruct Hin. }
  assert (Hx : x = m).
  { apply (head_is_latest x m r Hs); [apply Hu; assumption|].
    intros d Hd. apply Hmax, Hu. assumption. }
  subst x. rewrite (current_is_first_run now ss m r E). fold today.
  destruct (first_run r m Hs) as [n [ns [En [Hn [Hc Hend]]]]].
  rewrite En. cbn [hd]. split.
  - intros Hm.
    assert (Ha : (m =? today) || (m =? today - 1) = true).
    { apply orb_true_iff. rewrite !Z.eqb_eq. assumption. }
    rewrite Ha. split; [assumption|]. split.
    + eapply consecutive_same_days; [|exact Hc]. intros y. apply Hu.
    + intros Hy. apply Hend. apply Hu. assumption.
  - intros H1 H2.
    destruct (m =? today) eqn:E1; [apply Z.eqb_eq in E1; contradiction|].
    destruct (m =? today - 1) eqn:E2; [apply Z.eqb_eq in E2; contradiction|].
    reflexivity.
Qed.

Lemma current_streak_latest_block_witness :
  let now := 1700000000000 in
  let session (day : Z) :=
    Insights.mkFocusSession "s" day 25 Insights.work None None 0 in
  let today := Insights.getDateString now in
  let ss := [session (today - 1); session (today - 4); session (today - 2)] in
  ~ In (today - 1 - Insights.current (Insights.calculateStreaks now ss))
       (map Insights.date ss).
Proof.
  intros now session today ss.
  refine (proj2 (proj2 (proj1 (current_streak_latest_block now ss (today - 1) _ _)
                          (or_intror eq_refl)))).
  - left. reflexivity.
  - intros d Hd. vm_compute in Hd. vm_compute.
    destruct Hd as [<-|[<-|[<-|[]]]]; discriminate.
Defined.

Lemma runLengths_sum (l : list Z) :
  Forall (fun n => 1 <= n) (Insights.runLengths l)
  /\ fold_right Z.add 0 (Insights.runLengths l) = Z.of_nat (List.length l).
Proof.
  induction l as [|x l IH]; [split; [constructor|reflexivity]|].
  destruct l as [|y r]; [split; [repeat constructor; lia|reflexivity]|].
  rewrite runLengths_step. destruct IH as [Hf Hsum].
  destruct (runLengths_cons y r) as [n [ns [E Hn]]]. rewrite E in *.
  inversion Hf; subst.
  cbn [fold_right] in Hsum.
  change (List.length (x :: y :: r)) with (S (List.length (y :: r))).
  rewrite Nat2Z.inj_succ, <- Hsum.
  destruct (x - y =? 1); cbn [fold_right]; split;
    try (repeat constructor; try assumption; lia); lia.
Qed.

Lemma longest_le_sum (ns : list Z) :
  Forall (fun n => 1 <= n) ns -> Insights.longest ns <= fold_right Z.add 0 ns.
Proof.
  intros H. induction H as [|n ns Hn Hns IH]; cbn [Insights.longest fold_right];
    [lia|].
  fold (Insights.longest ns).
  assert (0 <= fold_right Z.add 0 ns).
  { clear IH. induction Hns; cbn [fold_right]; lia. }
  lia.
Qed.

Lemma length_insert (x : Z) (l : list Z) :
  List.length (Insights.insert x l) = S (List.length l).
Proof.
  induction l as [|y r IH]; [reflexivity|]. cbn [Insights.insert].
  destruct (x <=? y); cbn [List.length]; [reflexivity|]. rewrite IH. reflexivity.
Qed.

Lemma length_uniqueDates (ss : list Insights.FocusSession) :
  (List.length (Insights.uniqueDates ss) <= List.length ss)%nat.
Proof.
  unfold Insights.uniqueDates. rewrite length_rev.
  assert (Hsort : forall l, List.length (Insights.sort l) = List.length l).
  { unfold Insights.sort. induction l as [|x l IH]; [reflexivity|].
    cbn [fold_right]. rewrite length_insert, IH. reflexivity. }
  rewrite Hsort.
  assert (Hset : forall l, (List.length (Insights.newSet l) <= List.length l)%nat).
  { induction l as [|x l IH]; [apply Nat.le_refl|].
    cbn [Insights.newSet List.length].
    pose proof (filter_length_le (fun y => negb (y =? x)) (Insights.newSet l)).
    lia. }
  pose proof (Hset (map Insights.date ss)) as H. rewrite length_map in H.
  assumption.
Qed.

(** X13: recording more sessions never lowers the best streak: when every
    date of one history is a date of another, the best streak of the first
    is at most that of the second.  The best streak is at most the number
    of sessions, and at least 1 as soon as there is a session. *)
Theorem best_streak_grows (now now' : Z) (ss ss' : list Insights.FocusSession) :
  ((forall d, In d (map Insights.date ss) -> In d (map Insights.date ss')) ->
   Insights.best (Insights.calculateStreaks now ss)
   <= Insights.best (Insights.calculateStreaks now' ss'))
  /\ Insights.best (Insights.calculateStreaks now ss) <= Z.of_nat (List.length ss)
  /\ (ss = [] \/ 1 <= Insights.best (Insights.calculateStreaks now ss)).
Proof.
  destruct (uniqueDates_distinct_descending ss) as [Hs Hu].
  destruct (uniqueDates_distinct_descending ss') as [Hs' Hu'].
  split; [|split].
  - intros Hincl. rewrite !best_is_longest.
    destruct (longest_reached _ Hs) as [d Hd].
    destruct (Z_le_gt_dec
                (Insights.longest (Insights.runLengths (Insights.uniqueDates ss))) 0)
      as [Hle|Hgt].
    + pose proof (longest_nonneg (Insights.runLengths (Insights.uniqueDates ss'))).
      lia.
    + apply (longest_bounds _ Hs' d); [lia|].
      eapply consecutive_same_days; [|exact Hd].
      intros x Hx. apply Hu', Hincl, Hu. assumption.
  - rewrite best_is_longest.
    destruct (runLengths_sum (Insights.uniqueDates ss)) as [Hf Hsum].
    pose proof (longest_le_sum _ Hf). pose proof (length_uniqueDates ss). lia.
  - destruct ss as [|s ss0]; [left; reflexivity|right].
    rewrite best_is_longest.
    destruct (Insights.uniqueDates (s :: ss0)) as [|x r] eqn:E.
    { exfalso. apply (proj2 (Hu (Insights.date s))). left. reflexivity. }
    destruct (runLengths_cons x r) as [n [ns [En Hn]]]. rewrite En.
    cbn [Insights.longest fold_right]. lia.
Qed.

Lemma best_streak_grows_witness :
  let session (day : Z) :=
    Insights.mkFocusSession "s" day 25 Insights.work None None 0 in
  Insights.best (Insights.calculateStreaks 0 [session 3; session 5])
  <= Insights.best (Insights.calculateStreaks 0 [session 3; session 5; session 4]).
Proof.
  intros session.
  apply (proj1 (best_streak_grows 0 0 [session 3; session 5]
                  [session 3; session 5; session 4])).
  intros d Hd. cbn in Hd |- *. tauto.
Defined.

(** X14: a session recorded now, when no session is dated today or later,
    makes the current streak one more than it was if there is a session
    dated yesterday, and 1 if there is none. *)
Theorem session_today_extends (now : Z) (data : Insights.SessionData)
    (st : Insights.State) :
  let today := Insights.getDateString now in
  let days := map Insights.date (Insights.sessions st) in
  let before :=
    Insights.current (Insights.calculateStreaks now (Insights.sessions st)) in
  let after :=
    Insights.current
      (Insights.calculateStreaks now
         (Insights.sessions (Insights.addSession now data st))) in
  Insights.d_date data = today ->
  (forall d, In d days -> d < today) ->
  (In (today - 1) days -> after = before + 1)
  /\ (~ In (today - 1) days -> after = 1).
Proof.
  intros today days before after Hdate Hpast.
  destruct (uniqueDates_distinct_descending (Insights.sessions st)) as [Hs Hu].
  assert (Hall : forall d, In d (Insights.uniqueDates (Insights.sessions st)) ->
                           d < today).
  { intros d Hd. apply Hpast, Hu. assumption. }
  assert (E : Insights.uniqueDates (Insights.sessions (Insights.addSession now data st))
              = today :: Insights.uniqueDates (Insights.sessions st)).
  { apply uniqueDates_of_descending.
    - constructor; [assumption|]. apply Forall_forall. intros d Hd.
      specialize (Hall d Hd). lia.
    - intros d. unfold Insights.addSession. cbn [Insights.sessions].
      rewrite map_app, in_app_iff. cbn [map Insights.date In]. rewrite Hdate.
      rewrite (Hu d). tauto. }
  subst after.
  rewrite (current_is_first_run now _ today _ E). fold today.
  rewrite Z.eqb_refl. cbn [orb]. subst before.
  destruct (Insights.uniqueDates (Insights.sessions st)) as [|y r] eqn:EU.
  - split.
    + intros Hin. apply Hu in Hin. destruct Hin.
    + intros _. reflexivity.
  - rewrite (current_is_first_run now _ y r EU). fold today.
    rewrite runLengths_step.
    destruct (runLengths_cons y r) as [n [ns [En Hn]]]. rewrite En.
    pose proof (Hall y (or_introl eq_refl)) as Hy.
    split.
    + intros Hin.
      assert (y = today - 1).
      { apply (head_is_latest y (today - 1) r Hs); [apply Hu; assumption|].
        intros d Hd. specialize (Hall d Hd). lia. }
      subst y. replace (today - (today - 1)) with 1 by lia.
      rewrite !Z.eqb_refl, orb_true_r. reflexivity.
    + intros Hnot.
      assert (y <> today - 1).
      { intros ->. apply Hnot, Hu. left. reflexivity. }
      destruct (today - y =? 1) eqn:Eg; [apply Z.eqb_eq in Eg; lia|].
      reflexivity.
Qed.

Lemma session_today_extends_witness :
  let now := 1700000000000 in
  let today := Insights.getDateString now in
  let session (day : Z) :=
    Insights.mkFocusSession "s" day 25 Insights.work None None 0 in
  let st := {| Insights.sessions := [session (today - 2); session (today - 1)];
               Insights.selectedCategory := Insights.work |} in
  let data := Insights.mkSessionData today 25 Insights.study None None in
  Insights.current
    (Insights.calculateStreaks now
       (Insights.sessions (Insights.addSession now data st))) = 3.
Proof.
  intros now today session st data.
  refine (proj1 (session_today_extends now data st eq_refl _) _).
  - intros d Hd. vm_compute in Hd. vm_compute.
    destruct Hd as [<-|[<-|[]]]; reflexivity.
  - right. left. reflexivity.
Defined.

(** ** The countdown *)

Lemma setRemainingTime_twice (a b : Z) (st : Pomodoro.State) :
  Pomodoro.setRemainingTime a (Pomodoro.setRemainingTime b st)
  = Pomodoro.setRemainingTime a st.
Proof. reflexivity. Qed.

Lemma setRemainingTime_same (st : Pomodoro.State) :
  Pomodoro.setRemainingTime (Pomodoro.remainingTime st) st = st.
Proof. destruct st. reflexivity. Qed.

Lemma tick_counts (render : Pomodoro.State) (s : Settings.AppSettings)
    (st : Pomodoro.State) :
  Pomodoro.timerRef st = Pomodoro.Interval true ->
  1 < Pomodoro.remainingTime st ->
  Pomodoro.tick render s st
  = (Pomodoro.setRemainingTime (Pomodoro.remainingTime st - 1) st, []).
Proof.
  intros Hr H. unfold Pomodoro.tick. rewrite Hr.
  destruct (_ <=? 1) eqn:E; [apply Z.leb_le in E; lia|reflexivity].
Qed.

Lemma ticks_count_down (render : Pomodoro.State) (s : Settings.AppSettings)
    (n : nat) :
  forall st,
    Pomodoro.timerRef st = Pomodoro.Interval true ->
    Z.of_nat n < Pomodoro.remainingTime st ->
    Pomodoro.ticks render s n st
    = (Pomodoro.setRemainingTime (Pomodoro.remainingTime st - Z.of_nat n) st, []).
Proof.
  induction n as [|m IH]; intros st Hr H.
  - cbn [Pomodoro.ticks Z.of_nat]. rewrite Z.sub_0_r, setRemainingTime_same.
    reflexivity.
  - cbn [Pomodoro.ticks]. rewrite tick_counts by (assumption || lia).
    rewrite IH; [|exact Hr|cbn [Pomodoro.remainingTime Pomodoro.setRemainingTime]; lia].
    rewrite setRemainingTime_twice. cbn [app].
    do 2 f_equal. cbn [Pomodoro.remainingTime Pomodoro.setRemainingTime]. lia.
Qed.

Lemma ticks_app (render : Pomodoro.State) (s : Settings.AppSettings) (a b : nat) :
  forall st,
    Pomodoro.ticks render s (a + b) st
    = let '(st1, first) := Pomodoro.ticks render s a st in
      let '(st2, others) := Pomodoro.ticks render s b st1 in
      (st2, first ++ others).
Proof.
  induction a as [|a IH]; intros st.
  - cbn [Nat.add Pomodoro.ticks]. destruct (Pomodoro.ticks render s b st). reflexivity.
  - cbn [Nat.add Pomodoro.ticks]. destruct (Pomodoro.tick render s st) as [st1 e1].
    rewrite IH. destruct (Pomodoro.ticks render s a st1) as [st2 e2].
    destruct (Pomodoro.ticks render s b st2) as [st3 e3].
    rewrite app_assoc. reflexivity.
Qed.

Lemma ticks_cleared (render : Pomodoro.State) (s : Settings.AppSettings) (m : nat)
    (st : Pomodoro.State) :
  Pomodoro.timerRef st <> Pomodoro.Interval true ->
  Pomodoro.ticks render s m st = (st, []).
Proof.
  intros H. induction m as [|m IH]; [reflexivity|].
  cbn [Pomodoro.ticks]. unfold Pomodoro.tick.
  destruct (Pomodoro.timerRef st) as [|[|]] eqn:E; try congruence;
    rewrite IH; reflexivity.
Qed.

Lemma cancelScheduled_fields (st : Pomodoro.State) :
  let st' := fst (Pomodoro.cancelScheduled st) in
  Pomodoro.isPlaying st' = Pomodoro.isPlaying st
  /\ Pomodoro.timerKey st' = Pomodoro.timerKey st
  /\ Pomodoro.mode st' = Pomodoro.mode st
  /\ Pomodoro.completedPomodoros st' = Pomodoro.completedPomodoros st
  /\ Pomodoro.remainingTime st' = Pomodoro.remainingTime st
  /\ Pomodoro.isAmbientPlaying st' = Pomodoro.isAmbientPlaying st
  /\ Pomodoro.timerRef st' = Pomodoro.timerRef st
  /\ Pomodoro.startTimeRef st' = Pomodoro.startTimeRef st
  /\ Pomodoro.userWantsAmbientRef st' = Pomodoro.userWantsAmbientRef st.
Proof.
  unfold Pomodoro.cancelScheduled.
  destruct (Pomodoro.notificationIdRef st) as [i|];
    [destruct (String.eqb i EmptyString)|]; cbn; repeat split.
Qed.

(** What a completion leaves in the provider, whatever was pending. *)
Lemma handleTimerCompleteIn_fields (render live : Pomodoro.State)
    (s : Settings.AppSettings) :
  let st' := fst (Pomodoro.handleTimerCompleteIn render s live) in
  Pomodoro.isPlaying st' = false
  /\ Pomodoro.isAmbientPlaying st' = false
  /\ Pomodoro.startTimeRef st' = None
  /\ Pomodoro.timerRef st' = Pomodoro.timerRef live
  /\ Pomodoro.timerKey st' = Pomodoro.timerKey live + 1
  /\ Pomodoro.mode st'
     = match Pomodoro.mode render with
       | Pomodoro.focus =>
           if JS.isZero (JS.rem (Pomodoro.completedPomodoros render + 1)
                                (Settings.pomodorosUntilLongBreak (Settings.timer s)))
           then Pomodoro.longBreak else Pomodoro.shortBreak
       | _ => Pomodoro.focus
       end
  /\ Pomodoro.completedPomodoros st'
     = match Pomodoro.mode render with
       | Pomodoro.focus => Pomodoro.completedPomodoros render + 1
       | _ => Pomodoro.completedPomodoros live
       end
  /\ Pomodoro.remainingTime st' = Pomodoro.getDuration s (Pomodoro.mode st').
Proof.
  unfold Pomodoro.handleTimerCompleteIn.
  pose proof (cancelScheduled_fields
                (Pomodoro.setStartTimeRef None (Pomodoro.setIsPlaying false live)))
    as H.
  destruct (Pomodoro.cancelScheduled _) as [st1 cancelled].
  cbv zeta in H. cbn [fst] in H.
  destruct H as (H1 & H2 & H3 & H4 & H5 & H6 & H7 & H8 & H9).
  cbn in H1, H2, H3, H4, H5, H6, H7, H8, H9.
  destruct (Pomodoro.mode render); cbn; rewrite ?H2, ?H4, ?H7;
    repeat split; assumption.
Qed.

(** X15: an interval held since the render [render], on a timer with
    [r >= 1] seconds left, counts down one second per tick without any
    other change or call; the [r]-th tick completes with the handler of
    [render]: not playing, and from the mode and count of [render] the next
    mode (after focus one more pomodoro than [render] had, the long break
    when that number is a multiple of [pomodorosUntilLongBreak]; after a
    break focus and the count kept), with its full duration; ticks after
    that change nothing and make no call.  When [render] has the mode and
    the count of the running timer, these are the next mode and count of
    the timer itself. *)
Theorem ticks_complete_once (render : Pomodoro.State) (s : Settings.AppSettings)
    (st : Pomodoro.State) :
  Pomodoro.timerRef st = Pomodoro.Interval true ->
  1 <= Pomodoro.remainingTime st ->
  let r := Pomodoro.remainingTime st in
  let n := Z.to_nat r in
  let done := fst (Pomodoro.ticks render s n st) in
  (forall k, (k < n)%nat ->
     Pomodoro.ticks render s k st
     = (Pomodoro.setRemainingTime (r - Z.of_nat k) st, []))
  /\ Pomodoro.isPlaying done = false
  /\ Pomodoro.mode done
     = match Pomodoro.mode render with
       | Pomodoro.focus =>
           if JS.isZero (JS.rem (Pomodoro.completedPomodoros render + 1)
                                (Settings.pomodorosUntilLongBreak (Settings.timer s)))
           then Pomodoro.longBreak else Pomodoro.shortBreak
       | _ => Pomodoro.focus
       end
  /\ Pomodoro.completedPomodoros done
     = match Pomodoro.mode render with
       | Pomodoro.focus => Pomodoro.completedPomodoros render + 1
       | _ => Pomodoro.completedPomodoros st
       end
  /\ Pomodoro.remainingTime done = Pomodoro.getDuration s (Pomodoro.mode done)
  /\ (forall m, Pomodoro.ticks render s (n + m) st = Pomodoro.ticks render s n st)
  /\ (Pomodoro.mode render = Pomodoro.mode st ->
      Pomodoro.completedPomodoros render = Pomodoro.completedPomodoros st ->
      Pomodoro.mode done
      = match Pomodoro.mode st with
        | Pomodoro.focus =>
            if JS.isZero (JS.rem (Pomodoro.completedPomodoros st + 1)
                                 (Settings.pomodorosUntilLongBreak (Settings.timer s)))
            then Pomodoro.longBreak else Pomodoro.shortBreak
        | _ => Pomodoro.focus
        end
      /\ Pomodoro.completedPomodoros done
         = match Pomodoro.mode st with
           | Pomodoro.focus => Pomodoro.completedPomodoros st + 1
           | _ => Pomodoro.completedPomodoros st
           end).
Proof.
  intros Hr H1 r n done.
  assert (Hk : forall k, (k < n)%nat ->
             Pomodoro.ticks render s k st
             = (Pomodoro.setRemainingTime (r - Z.of_nat k) st, [])).
  { intros k Hk. apply ticks_count_down; [assumption|]. subst n r. lia. }
  assert (Hn : n = (Nat.pred n + 1)%nat) by (subst n r; lia).
  assert (Hlast : Pomodoro.ticks render s n st
                  = Pomodoro.handleTimerCompleteIn render s
                      (Pomodoro.setRemainingTime 0
                         (Pomodoro.setTimerRef (Pomodoro.Interval false)
                            (Pomodoro.setRemainingTime 1 st)))).
  { rewrite Hn, ticks_app, (Hk (Nat.pred n)) by lia.
    replace (r - Z.of_nat (Nat.pred n)) with 1 by (subst n r; lia).
    cbn [Pomodoro.ticks]. unfold Pomodoro.tick.
    cbn [Pomodoro.timerRef Pomodoro.setRemainingTime Pomodoro.remainingTime].
    rewrite Hr. change (1 <=? 1) with true. cbv iota.
    destruct (Pomodoro.handleTimerCompleteIn _ _ _) as [p e].
    rewrite app_nil_r. reflexivity. }
  pose proof (handleTimerCompleteIn_fields render
                (Pomodoro.setRemainingTime 0
                   (Pomodoro.setTimerRef (Pomodoro.Interval false)
                      (Pomodoro.setRemainingTime 1 st))) s) as Hf.
  cbv zeta in Hf. rewrite <- Hlast in Hf. fold done in Hf.
  destruct Hf as (F1 & _ & _ & F4 & _ & F6 & F7 & F8).
  cbn [Pomodoro.mode Pomodoro.completedPomodoros Pomodoro.timerRef
       Pomodoro.setRemainingTime Pomodoro.setTimerRef] in F4, F6, F7.
  split; [exact Hk|]. split; [exact F1|]. split; [exact F6|].
  split; [exact F7|]. split; [exact F8|].
  split; [|intros Em Ec; rewrite <- Em, <- Ec; split; [exact F6|];
           rewrite F7, Ec; reflexivity].
  intros m. rewrite ticks_app.
  destruct (Pomodoro.ticks render s n st) as [p e] eqn:E. cbn [fst] in done.
  subst done.
  rewrite ticks_cleared; [rewrite app_nil_r; reflexivity|].
  rewrite F4. discriminate.
Qed.

(** The break started by [autoStartNext] after the first focus interval:
    its interval holds the closure of the focus render, so when it runs
    out the handler of that render runs again. *)
Lemma ticks_complete_once_witness :
  let s :=
    Settings.updateTimerSettings
      {| Settings.u_workDuration := None;
         Settings.u_shortBreakDuration := None;
         Settings.u_longBreakDuration := None;
         Settings.u_autoStartNext := Some true;
         Settings.u_pomodorosUntilLongBreak := None |}
      Settings.defaultSettings in
  let render := Pomodoro.initialState s in
  let completed := fst (Pomodoro.handleTimerCompleteIn render s render) in
  let break :=
    Pomodoro.startTimerInternalIn (Pomodoro.mode render)
      (Pomodoro.remainingTime render) s 1700001500100 completed in
  let done := fst (Pomodoro.ticks render s 300 break) in
  Pomodoro.mode break = Pomodoro.shortBreak
  /\ Pomodoro.mode done = Pomodoro.shortBreak
  /\ Pomodoro.completedPomodoros done = 1
  /\ Pomodoro.remainingTime done = 300.
Proof.
  intros s render completed break.
  destruct (ticks_complete_once render s break eq_refl ltac:(discriminate))
    as (_ & _ & Hm & Hc & Hd & _).
  change (Z.to_nat (Pomodoro.remainingTime break)) with 300%nat in Hm, Hc, Hd.
  cbv zeta. split; [reflexivity|]. split; [exact Hm|]. split; [exact Hc|].
  rewrite Hd, Hm. reflexivity.
Defined.

(** ** Saving and loading the timer *)

(** X16: a paused timer survives a restart: the snapshot saved while not
    playing loads, at any later time, with the same mode and count and not
    playing; the remaining time is the stored one, or the full duration of
    the mode when the stored one is 0. *)
Theorem save_load_paused (s : Settings.AppSettings) (now later : Z)
    (st : Pomodoro.State) :
  Pomodoro.isPlaying st = false ->
  let st' :=
    Pomodoro.loadTimerState s later (Some (Pomodoro.saveTimerState now st))
      (Pomodoro.initialState s) in
  Pomodoro.mode st' = Pomodoro.mode st
  /\ Pomodoro.completedPomodoros st' = Pomodoro.completedPomodoros st
  /\ Pomodoro.isPlaying st' = false
  /\ Pomodoro.remainingTime st'
     = (if Pomodoro.remainingTime st =? 0
        then Pomodoro.getDuration s (Pomodoro.mode st)
        else Pomodoro.remainingTime st).
Proof.
  intros Hp. unfold Pomodoro.loadTimerState, Pomodoro.saveTimerState.
  cbn [Pomodoro.Snapshot.isPlaying Pomodoro.Snapshot.startedAt
       Pomodoro.Snapshot.mode Pomodoro.Snapshot.remainingTime
       Pomodoro.Snapshot.completedPomodoros].
  rewrite Hp. unfold Pomodoro.truthy.
  destruct (Pomodoro.remainingTime st =? 0); repeat split.
Qed.

Lemma save_load_paused_witness :
  let s := Settings.defaultSettings in
  let st :=
    fst (Pomodoro.pauseTimer
           (Pomodoro.setRemainingTime 700
              (Pomodoro.startTimerInternal s 1700000000000
                 (Pomodoro.initialState s)))) in
  Pomodoro.remainingTime
    (Pomodoro.loadTimerState s 1700009999000
       (Some (Pomodoro.saveTimerState 1700000800000 st))
       (Pomodoro.initialState s)) = 700.
Proof.
  intros s st.
  exact (proj2 (proj2 (proj2
           (save_load_paused s 1700000800000 1700009999000 st eq_refl)))).
Defined.

(** X17: whatever the store holds, loading on a cold start never resumes
    playback and never leaves an interval or a notification behind; with a
    snapshot, mode and count are the stored ones, and the remaining time is
    not negative when the stored time and the durations are not; without
    one, the timer stays as it was created. *)
Theorem loadTimerState_never_resumes (s : Settings.AppSettings) (now : Z)
    (data : option Pomodoro.Snapshot.TimerState) :
  let st' := Pomodoro.loadTimerState s now data (Pomodoro.initialState s) in
  Pomodoro.isPlaying st' = false
  /\ Pomodoro.isLoaded st' = true
  /\ Pomodoro.timerRef st' = Pomodoro.NoInterval
  /\ Pomodoro.notificationIdRef st' = None
  /\ match data with
     | Some snap =>
         Pomodoro.mode st' = Pomodoro.Snapshot.mode snap
         /\ Pomodoro.completedPomodoros st'
            = Pomodoro.Snapshot.completedPomodoros snap
         /\ (0 <= Pomodoro.Snapshot.remainingTime snap ->
             0 <= Pomodoro.getDuration s (Pomodoro.Snapshot.mode snap) ->
             0 <= Pomodoro.remainingTime st')
     | None =>
         st' = Pomodoro.setIsLoaded true (Pomodoro.initialState s)
     end.
Proof.
  cbv zeta. unfold Pomodoro.loadTimerState.
  destruct data as [snap|]; [|repeat split].
  destruct (if Pomodoro.Snapshot.isPlaying snap
            then Pomodoro.truthy (Pomodoro.Snapshot.startedAt snap) else None)
    as [startedAt|].
  - destruct (0 <? _) eqn:E; cbn; repeat split; intros; lia.
  - unfold Pomodoro.truthy.
    destruct (Pomodoro.Snapshot.remainingTime snap =? 0) eqn:E;
      cbn; repeat split; intros; assumption.
Qed.

Lemma loadTimerState_never_resumes_witness :
  let s := Settings.defaultSettings in
  let snap :=
    {| Pomodoro.Snapshot.mode := Pomodoro.longBreak;
       Pomodoro.Snapshot.remainingTime := 60;
       Pomodoro.Snapshot.isPlaying := true;
       Pomodoro.Snapshot.completedPomodoros := 4;
       Pomodoro.Snapshot.startedAt := Some 1700000000000;
       Pomodoro.Snapshot.pausedAt := None |} in
  0 <= Pomodoro.remainingTime
         (Pomodoro.loadTimerState s 1700000020000 (Some snap)
            (Pomodoro.initialState s)).
Proof.
  intros s snap.
  destruct (loadTimerState_never_resumes s 1700000020000 (Some snap))
    as (_ & _ & _ & _ & _ & _ & H).
  apply H; discriminate.
Defined.

(** X18: a timer started with the full duration [D] of its mode at time
    [t0], saved after [e] ticks of its interval, whatever render holds it,
    and loaded [d] seconds after the save, shows [max 0 (D - 2e - d)]
    seconds: the stored remaining time already lacks the [e] seconds, and
    the seconds since [startedAt], which include them, are subtracted from
    it. *)
Theorem save_load_running (render : Pomodoro.State) (s : Settings.AppSettings)
    (t0 : Z) (st : Pomodoro.State) (e : nat) (d : Z) :
  Pomodoro.remainingTime st = Pomodoro.getDuration s (Pomodoro.mode st) ->
  t0 <> 0 ->
  Z.of_nat e < Pomodoro.getDuration s (Pomodoro.mode st) ->
  0 <= d ->
  let D := Pomodoro.getDuration s (Pomodoro.mode st) in
  let running := fst (Pomodoro.ticks render s e (Pomodoro.startTimerInternal s t0 st)) in
  let snap := Pomodoro.saveTimerState (t0 + 1000 * Z.of_nat e) running in
  let loaded :=
    Pomodoro.loadTimerState s (t0 + 1000 * (Z.of_nat e + d)) (Some snap)
      (Pomodoro.initialState s) in
  Pomodoro.Snapshot.remainingTime snap = D - Z.of_nat e
  /\ Pomodoro.Snapshot.startedAt snap = Some t0
  /\ Pomodoro.remainingTime loaded = Z.max 0 (D - 2 * Z.of_nat e - d)
  /\ Pomodoro.mode loaded = Pomodoro.mode st
  /\ Pomodoro.isPlaying loaded = false.
Proof.
  intros Hfull Ht0 He Hd D running snap loaded.
  assert (Hrun : running
                 = Pomodoro.setRemainingTime (D - Z.of_nat e)
                     (Pomodoro.startTimerInternal s t0 st)).
  { subst running. rewrite ticks_count_down.
    - cbn [fst]. unfold Pomodoro.startTimerInternal, Pomodoro.startTimerInternalIn.
      cbn [Pomodoro.remainingTime Pomodoro.setTimerRef Pomodoro.setIsPlaying
           Pomodoro.setStartTimeRef]. rewrite Hfull. reflexivity.
    - reflexivity.
    - unfold Pomodoro.startTimerInternal, Pomodoro.startTimerInternalIn.
      cbn [Pomodoro.remainingTime Pomodoro.setTimerRef Pomodoro.setIsPlaying
           Pomodoro.setStartTimeRef]. rewrite Hfull. exact He. }
  assert (Hsnap : snap
                  = {| Pomodoro.Snapshot.mode := Pomodoro.mode st;
                       Pomodoro.Snapshot.remainingTime := D - Z.of_nat e;
                       Pomodoro.Snapshot.isPlaying := true;
                       Pomodoro.Snapshot.completedPomodoros :=
                         Pomodoro.completedPomodoros st;
                       Pomodoro.Snapshot.startedAt := Some t0;
                       Pomodoro.Snapshot.pausedAt := None |}).
  { subst snap. rewrite Hrun. unfold Pomodoro.saveTimerState,
      Pomodoro.startTimerInternal, Pomodoro.startTimerInternalIn.
    cbn. rewrite Hfull. f_equal. f_equal. fold D. lia. }
  subst loaded. rewrite Hsnap. cbn [Pomodoro.Snapshot.remainingTime
                                     Pomodoro.Snapshot.startedAt].
  split; [reflexivity|]. split; [reflexivity|].
  unfold Pomodoro.loadTimerState.
  cbn [Pomodoro.Snapshot.isPlaying Pomodoro.Snapshot.startedAt
       Pomodoro.Snapshot.mode Pomodoro.Snapshot.remainingTime
       Pomodoro.Snapshot.completedPomodoros].
  unfold Pomodoro.truthy.
  destruct (t0 =? 0) eqn:E0; [apply Z.eqb_eq in E0; contradiction|].
  assert (Hel : JS.floorDiv (t0 + 1000 * (Z.of_nat e + d) - t0) 1000
                = Z.of_nat e + d).
  { unfold JS.floorDiv.
    replace (t0 + 1000 * (Z.of_nat e + d) - t0) with ((Z.of_nat e + d) * 1000)
      by ring.
    apply Z.div_mul. discriminate. }
  rewrite Hel.
  replace (D - Z.of_nat e - (Z.of_nat e + d)) with (D - 2 * Z.of_nat e - d) by ring.
  remember (Z.max 0 (D - 2 * Z.of_nat e - d)) as m eqn:Hm.
  assert (0 <= m) by lia.
  destruct (0 <? m) eqn:E; cbn; repeat split.
  apply Z.ltb_ge in E. lia.
Qed.

Lemma save_load_running_witness :
  let s := Settings.defaultSettings in
  let running :=
    fst (Pomodoro.ticks (Pomodoro.initialState s) s 600
           (Pomodoro.startTimerInternal s 1700000000000 (Pomodoro.initialState s))) in
  let snap := Pomodoro.saveTimerState (1700000000000 + 1000 * 600) running in
  Pomodoro.remainingTime
    (Pomodoro.loadTimerState s (1700000000000 + 1000 * (600 + 100)) (Some snap)
       (Pomodoro.initialState s)) = 200.
Proof.
  intros s.
  exact (proj1 (proj2 (proj2
           (save_load_running (Pomodoro.initialState s) s 1700000000000
              (Pomodoro.initialState s) 600 100
              eq_refl ltac:(discriminate) eq_refl ltac:(discriminate))))).
Defined.

(** ** Starting, pausing and the notification actions *)

(** X19: pausing a timer that was just started, with a notification
    scheduled under a non-empty identifier: mode, remaining time and count
    are those before the start, nothing plays, the interval is cleared, the
    notification is cancelled (the pause calls the audio service, then
    cancels that identifier) and the start anchor stays where the start
    put it. *)
Theorem startTimer_pauseTimer (s : Settings.AppSettings) (now : Z) (playing : bool)
    (identifier : string) (st : Pomodoro.State) :
  identifier <> EmptyString ->
  let started := fst (Pomodoro.startTimer s now playing (Some identifier) st) in
  let paused := fst (Pomodoro.pauseTimer started) in
  snd (Pomodoro.pauseTimer started)
  = [Pomodoro.PauseAmbientSound; Pomodoro.CancelNotification identifier]
  /\ Pomodoro.isPlaying started = true
  /\ Pomodoro.isPlaying paused = false
  /\ Pomodoro.isAmbientPlaying paused = false
  /\ Pomodoro.timerRef paused = Pomodoro.NoInterval
  /\ Pomodoro.notificationIdRef paused = None
  /\ Pomodoro.mode paused = Pomodoro.mode st
  /\ Pomodoro.remainingTime paused = Pomodoro.remainingTime st
  /\ Pomodoro.completedPomodoros paused = Pomodoro.completedPomodoros st
  /\ Pomodoro.startTimeRef paused
     = Some (now - (Pomodoro.getDuration s (Pomodoro.mode st)
                    - Pomodoro.remainingTime st) * 1000).
Proof.
  intros Hid. apply String.eqb_neq in Hid.
  unfold Pomodoro.startTimer, Pomodoro.pauseTimer, Pomodoro.cancelScheduled,
    Pomodoro.clearTimerRef, Pomodoro.startTimerInternal,
    Pomodoro.startTimerInternalIn.
  destruct (_ && _ && _); cbn; rewrite Hid; cbn; repeat split.
Qed.

Lemma startTimer_pauseTimer_witness :
  let s := Settings.defaultSettings in
  let started :=
    fst (Pomodoro.startTimer s 1700000000000 false (Some "n1"%string)
           (Pomodoro.initialState s)) in
  snd (Pomodoro.pauseTimer started)
  = [Pomodoro.PauseAmbientSound; Pomodoro.CancelNotification "n1"%string].
Proof.
  intros s.
  exact (proj1 (startTimer_pauseTimer s 1700000000000 false "n1"%string
                  (Pomodoro.initialState s) ltac:(discriminate))).
Defined.

(** X20: the START_BREAK action of the notification shown after a focus
    interval, handled by the render that follows the completion, starts the
    break the completion chose: same mode, full duration, playing, the
    interval running, anchored at the time of the tap, the count kept. *)
Theorem start_break_after_focus (s : Settings.AppSettings) (now : Z)
    (st : Pomodoro.State) :
  Pomodoro.mode st = Pomodoro.focus ->
  let done := fst (Pomodoro.handleTimerComplete s st) in
  let st' := Pomodoro.actionListenerIn done s now Pomodoro.START_BREAK done in
  Pomodoro.mode st' = Pomodoro.mode done
  /\ Pomodoro.mode st' <> Pomodoro.focus
  /\ Pomodoro.remainingTime st' = Pomodoro.getDuration s (Pomodoro.mode done)
  /\ Pomodoro.completedPomodoros st' = Pomodoro.completedPomodoros st + 1
  /\ Pomodoro.isPlaying st' = true
  /\ Pomodoro.timerRef st' = Pomodoro.Interval true
  /\ Pomodoro.startTimeRef st' = Some now.
Proof.
  intros Hm done st'.
  destruct (handleTimerCompleteIn_fields st st s)
    as (_ & _ & _ & _ & _ & Hmode & Hcount & Hrem).
  fold (Pomodoro.handleTimerComplete s st) in Hmode, Hcount, Hrem.
  fold done in Hmode, Hcount, Hrem. rewrite Hm in Hmode, Hcount.
  subst st'. unfold Pomodoro.actionListenerIn, Pomodoro.startTimerInternalIn.
  rewrite Hcount, Hrem.
  cbn [Pomodoro.mode Pomodoro.remainingTime Pomodoro.completedPomodoros
       Pomodoro.isPlaying Pomodoro.timerRef Pomodoro.startTimeRef
       Pomodoro.setMode Pomodoro.setRemainingTime Pomodoro.setTimerKey
       Pomodoro.setStartTimeRef Pomodoro.setIsPlaying Pomodoro.setTimerRef].
  rewrite Hmode, Hcount.
  replace (now - (_ - _) * 1000) with now by lia.
  destruct (JS.isZero _); repeat split; discriminate.
Qed.

Lemma start_break_after_focus_witness :
  let s := Settings.defaultSettings in
  let done := fst (Pomodoro.handleTimerComplete s (Pomodoro.initialState s)) in
  Pomodoro.mode
    (Pomodoro.actionListenerIn done s 1700000000000 Pomodoro.START_BREAK done)
  = Pomodoro.mode done.
Proof.
  intros s.
  exact (proj1 (start_break_after_focus s 1700000000000
                  (Pomodoro.initialState s) eq_refl)).
Defined.

(** X22: [sessionStarted], which hides the pickers of the focus screen: true
    once the timer was started; after [resetTimer] it is true exactly when a
    pomodoro was completed; after [resetSession] it is false. *)
Theorem sessionStarted_resets (s : Settings.AppSettings) (now : Z) (playing : bool)
    (scheduled : option string) (st : Pomodoro.State) :
  FocusScreen.sessionStarted s (fst (Pomodoro.startTimer s now playing scheduled st))
  = true
  /\ FocusScreen.sessionStarted s (fst (Pomodoro.resetTimer s st))
     = (0 <? Pomodoro.completedPomodoros st)
  /\ FocusScreen.sessionStarted s (fst (Pomodoro.resetSession s st)) = false.
Proof.
  unfold FocusScreen.sessionStarted. repeat split.
  - unfold Pomodoro.startTimer, Pomodoro.startTimerInternal,
      Pomodoro.startTimerInternalIn.
    destruct (_ && _ && _); reflexivity.
  - pose proof (cancelScheduled_fields
                  (Pomodoro.setIsAmbientPlaying false
                     (Pomodoro.setUserWantsAmbientRef false
                        (Pomodoro.setStartTimeRef None
                           (Pomodoro.setTimerKey
                              (Pomodoro.timerKey
                                 (Pomodoro.setRemainingTime
                                    (Pomodoro.getDuration s (Pomodoro.mode st))
                                    (Pomodoro.setIsPlaying false
                                       (Pomodoro.clearTimerRef st))) + 1)
                              (Pomodoro.setRemainingTime
                                 (Pomodoro.getDuration s (Pomodoro.mode st))
                                 (Pomodoro.setIsPlaying false
                                    (Pomodoro.clearTimerRef st))))))))
      as H.
    unfold Pomodoro.resetTimer.
    destruct (Pomodoro.cancelScheduled _) as [st1 cancelled].
    cbv zeta in H. cbn [fst] in *.
    destruct H as (H1 & _ & H3 & H4 & H5 & _).
    rewrite H1, H3, H4, H5. unfold Pomodoro.clearTimerRef.
    destruct (Pomodoro.timerRef st); cbn;
      rewrite Z.ltb_irrefl, orb_false_r; reflexivity.
  - unfold Pomodoro.resetSession. cbn. apply Z.ltb_irrefl.
Qed.

(** ** The clock of the focus screen *)

Lemma formatTime_table :
  forallb
    (fun n =>
       let seconds := Z.of_nat n in
       let text := FocusScreen.formatTime seconds in
       (String.length text =? 5)%nat
       && String.eqb (substring 2 1 text) ":"
       && match JS.parseInt (substring 0 2 text), JS.parseInt (substring 3 2 text) with
          | Some m, Some r => (m =? seconds / 60) && (r =? seconds mod 60)
          | _, _ => false
          end)
    (seq 0 (Z.to_nat 6000)) = true.
Proof. vm_compute. reflexivity. Qed.

(** X23: for a time below 100 minutes [formatTime] gives five characters,
    two digits, a colon and two digits, that read back as the minutes and
    the seconds of the minute. *)
Theorem formatTime_reads_back (seconds : Z) :
  0 <= seconds < 6000 ->
  let text := FocusScreen.formatTime seconds in
  String.length text = 5%nat
  /\ substring 2 1 text = ":"%string
  /\ JS.parseInt (substring 0 2 text) = Some (seconds / 60)
  /\ JS.parseInt (substring 3 2 text) = Some (seconds mod 60).
Proof.
  intros Hs. pose proof formatTime_table as H.
  rewrite forallb_forall in H.
  specialize (H (Z.to_nat seconds)).
  rewrite Z2Nat.id in H by lia.
  assert (Hin : In (Z.to_nat seconds) (seq 0 (Z.to_nat 6000)))
    by (apply in_seq; lia).
  specialize (H Hin). cbv zeta in H. cbv zeta.
  apply andb_prop in H. destruct H as [H H3].
  apply andb_prop in H. destruct H as [H1 H2].
  apply Nat.eqb_eq in H1. apply String.eqb_eq in H2.
  destruct (JS.parseInt (substring 0 2 _)) as [m|]; [|discriminate].
  destruct (JS.parseInt (substring 3 2 _)) as [r|]; [|discriminate].
  apply andb_prop in H3. destruct H3 as [Hm Hr].
  apply Z.eqb_eq in Hm. apply Z.eqb_eq in Hr. subst. auto.
Qed.

Lemma formatTime_reads_back_witness :
  JS.parseInt (substring 0 2 (FocusScreen.formatTime 1500)) = Some (1500 / 60).
Proof.
  exact (proj1 (proj2 (proj2 (formatTime_reads_back 1500 ltac:(lia))))).
Defined.

(** ** Starting the next interval automatically *)

Lemma perform_settings (now : Z) (effects : list Pomodoro.Effect)
    (w : FocusScreen.World) :
  FocusScreen.settings (fold_left (FocusScreen.perform now) effects w)
  = FocusScreen.settings w.
Proof.
  revert w. induction effects as [|e es IH]; intros w; [reflexivity|].
  cbn [fold_left]. rewrite IH.
  destruct e; try reflexivity.
  unfold FocusScreen.perform, FocusScreen.runCallback.
  destruct (Pomodoro.cb_currentTask callback); [|reflexivity].
  destruct (Tasks.incrementPomodoro _ _). reflexivity.
Qed.

(** The calls made to the services are those asked for. *)
Lemma perform_calls (now : Z) (effects : list Pomodoro.Effect)
    (w : FocusScreen.World) (e : Pomodoro.Effect) :
  In e (FocusScreen.serviceCalls (fold_left (FocusScreen.perform now) effects w)) ->
  In e (FocusScreen.serviceCalls w) \/ In e effects.
Proof.
  revert w. induction effects as [|a es IH]; intros w H; [left; exact H|].
  cbn [fold_left] in H. apply IH in H. destruct H as [H|H].
  - assert (Hs : In e (FocusScreen.serviceCalls w) \/ e = a).
    { destruct a; cbn [FocusScreen.perform FocusScreen.setServiceCalls
                       FocusScreen.serviceCalls FocusScreen.setTimeouts] in H;
        try (apply in_app_or in H; destruct H as [H|[H|[]]]; auto; fail);
        try (left; exact H).
      unfold FocusScreen.runCallback in H.
      destruct (Pomodoro.cb_currentTask callback);
        [destruct (Tasks.incrementPomodoro _ _)|]; left; exact H. }
    destruct Hs as [Hs|Hs]; [left; exact Hs|right; left; symmetry; exact Hs].
  - right; right; exact H.
Qed.

(** A time-out that fires touches the interval, the playing flag and the
    start anchor of the timer, or the task lists, and nothing else. *)
Lemma runTimeout_fold (now : Z) (q : list FocusScreen.Timeout)
    (w : FocusScreen.World) :
  let w' := fold_left (FocusScreen.runTimeout now) q w in
  FocusScreen.settings w' = FocusScreen.settings w
  /\ FocusScreen.serviceCalls w' = FocusScreen.serviceCalls w
  /\ FocusScreen.timeouts w' = FocusScreen.timeouts w
  /\ Pomodoro.mode (FocusScreen.pomodoro w') = Pomodoro.mode (FocusScreen.pomodoro w)
  /\ Pomodoro.remainingTime (FocusScreen.pomodoro w')
     = Pomodoro.remainingTime (FocusScreen.pomodoro w)
  /\ Pomodoro.completedPomodoros (FocusScreen.pomodoro w')
     = Pomodoro.completedPomodoros (FocusScreen.pomodoro w).
Proof.
  revert w. induction q as [|t q IH]; intros w; [cbn; repeat split|].
  cbn [fold_left]. cbv zeta.
  destruct (IH (FocusScreen.runTimeout now w t)) as (H1 & H2 & H3 & H4 & H5 & H6).
  rewrite H1, H2, H3, H4, H5, H6. destruct t; cbn; repeat split.
Qed.

(** With [autoStartNext] a completion ends by asking for the restart, with
    the mode and the remaining time of the render that completed, and
    schedules no notification. *)
Lemma handleTimerCompleteIn_restart (render live : Pomodoro.State)
    (s : Settings.AppSettings) :
  Settings.autoStartNext (Settings.timer s) = true ->
  exists body,
    snd (Pomodoro.handleTimerCompleteIn render s live)
    = body ++ [Pomodoro.SetTimeoutStartTimerInternal
                 (Pomodoro.mode render) (Pomodoro.remainingTime render)]
    /\ forall m r, ~ In (Pomodoro.ScheduleTimerCompleteNotification m r) body.
Proof.
  intros Ha. unfold Pomodoro.handleTimerCompleteIn. rewrite Ha.
  destruct (Pomodoro.cancelScheduled _) as [st1 cancelled] eqn:E.
  assert (Hc : forall m r,
             ~ In (Pomodoro.ScheduleTimerCompleteNotification m r) cancelled).
  { unfold Pomodoro.cancelScheduled in E.
    destruct (Pomodoro.notificationIdRef _) as [i|];
      [destruct (String.eqb i EmptyString)|]; inversion E; subst;
      intros m r H; cbn in H; intuition discriminate. }
  destruct (Pomodoro.mode render); cbn [snd].
  - destruct (Pomodoro.onPomodoroComplete render) as [c|].
    + eexists. split.
      * rewrite !app_assoc. reflexivity.
      * intros m r H. repeat (apply in_app_or in H; destruct H as [H|H]);
          try (eapply Hc; exact H);
          repeat (destruct H as [H|H]; [discriminate|]); exact H.
    + eexists. split.
      * rewrite !app_assoc. reflexivity.
      * intros m r H. repeat (apply in_app_or in H; destruct H as [H|H]);
          try (eapply Hc; exact H);
          repeat (destruct H as [H|H]; [discriminate|]); exact H.
  - eexists. split.
    + rewrite !app_assoc. reflexivity.
    + intros m r H. repeat (apply in_app_or in H; destruct H as [H|H]);
        try (eapply Hc; exact H);
        repeat (destruct H as [H|H]; [discriminate|]); exact H.
  - eexists. split.
    + rewrite !app_assoc. reflexivity.
    + intros m r H. repeat (apply in_app_or in H; destruct H as [H|H]);
        try (eapply Hc; exact H);
        repeat (destruct H as [H|H]; [discriminate|]); exact H.
Qed.

(** X21: with [autoStartNext], once the time-outs queued by a completion
    have fired the timer runs again: playing, the interval set, in the mode
    the completion chose and with its full duration.  The start anchor is
    computed from the mode and the remaining time of the render that
    completed, and the restart schedules no completion notification. *)
Theorem autoStartNext_restarts (render : Pomodoro.State) (now later : Z)
    (w : FocusScreen.World) :
  Settings.autoStartNext (Settings.timer (FocusScreen.settings w)) = true ->
  let s := FocusScreen.settings w in
  let w1 := FocusScreen.dispatch now (Pomodoro.handleTimerCompleteIn render) w in
  let w2 := FocusScreen.flushTimeouts later w1 in
  Pomodoro.isPlaying (FocusScreen.pomodoro w1) = false
  /\ Pomodoro.isPlaying (FocusScreen.pomodoro w2) = true
  /\ Pomodoro.timerRef (FocusScreen.pomodoro w2) = Pomodoro.Interval true
  /\ Pomodoro.mode (FocusScreen.pomodoro w2) = Pomodoro.mode (FocusScreen.pomodoro w1)
  /\ Pomodoro.remainingTime (FocusScreen.pomodoro w2)
     = Pomodoro.getDuration s (Pomodoro.mode (FocusScreen.pomodoro w2))
  /\ Pomodoro.startTimeRef (FocusScreen.pomodoro w2)
     = Some (later - (Pomodoro.getDuration s (Pomodoro.mode render)
                      - Pomodoro.remainingTime render) * 1000)
  /\ FocusScreen.timeouts w2 = []
  /\ (forall m r,
         In (Pomodoro.ScheduleTimerCompleteNotification m r)
            (FocusScreen.serviceCalls w2) ->
         In (Pomodoro.ScheduleTimerCompleteNotification m r)
            (FocusScreen.serviceCalls w)).
Proof.
  intros Ha s w1 w2.
  destruct (handleTimerCompleteIn_restart render (FocusScreen.pomodoro w) s Ha)
    as (body & Hbody & Hno).
  destruct (handleTimerCompleteIn_fields render (FocusScreen.pomodoro w) s)
    as (Hplay & _ & _ & _ & _ & _ & _ & Hrem).
  set (p := fst (Pomodoro.handleTimerCompleteIn render s (FocusScreen.pomodoro w)))
    in *.
  set (W := fold_left (FocusScreen.perform now) body (FocusScreen.setPomodoro p w)).
  assert (Hw1 : w1
                = FocusScreen.setTimeouts
                    (FocusScreen.timeouts W
                     ++ [FocusScreen.StartTimerInternal
                           (Pomodoro.mode render) (Pomodoro.remainingTime render)])
                    W).
  { subst w1 W p. unfold FocusScreen.dispatch. fold s.
    destruct (Pomodoro.handleTimerCompleteIn render s (FocusScreen.pomodoro w))
      as [p0 effects].
    cbn [fst snd] in *. rewrite Hbody, fold_left_app. reflexivity. }
  assert (HpW : FocusScreen.pomodoro W = p)
    by (subst W; rewrite perform_pomodoro; reflexivity).
  assert (HsW : FocusScreen.settings W = s)
    by (subst W; rewrite perform_settings; reflexivity).
  assert (Hp1 : FocusScreen.pomodoro w1 = p) by (rewrite Hw1; exact HpW).
  set (W2 := fold_left (FocusScreen.runTimeout later) (FocusScreen.timeouts W)
               (FocusScreen.setTimeouts [] w1)).
  assert (Hw2 : w2
                = FocusScreen.setPomodoro
                    (Pomodoro.startTimerInternalIn (Pomodoro.mode render)
                       (Pomodoro.remainingTime render) (FocusScreen.settings W2)
                       later (FocusScreen.pomodoro W2)) W2).
  { subst w2 W2. unfold FocusScreen.flushTimeouts.
    rewrite Hw1 at 1. cbn [FocusScreen.timeouts FocusScreen.setTimeouts].
    rewrite fold_left_app. reflexivity. }
  destruct (runTimeout_fold later (FocusScreen.timeouts W)
              (FocusScreen.setTimeouts [] w1))
    as (H1 & H2 & H3 & H4 & H5 & _).
  fold W2 in H1, H2, H3, H4, H5.
  cbn [FocusScreen.settings FocusScreen.serviceCalls FocusScreen.timeouts
       FocusScreen.pomodoro FocusScreen.setTimeouts] in H1, H2, H3, H4, H5.
  assert (Hs1 : FocusScreen.settings w1 = s) by (rewrite Hw1; exact HsW).
  rewrite Hp1 in H4, H5. rewrite Hs1 in H1.
  rewrite Hp1, Hw2, H1.
  unfold Pomodoro.startTimerInternalIn.
  cbn [FocusScreen.pomodoro FocusScreen.setPomodoro FocusScreen.timeouts
       FocusScreen.serviceCalls
       Pomodoro.isPlaying Pomodoro.timerRef Pomodoro.mode Pomodoro.remainingTime
       Pomodoro.startTimeRef Pomodoro.setStartTimeRef Pomodoro.setIsPlaying
       Pomodoro.setTimerRef].
  rewrite H4, H5.
  repeat split; try assumption.
  intros m r Hin. rewrite H2, Hw1 in Hin.
  cbn [FocusScreen.serviceCalls FocusScreen.setTimeouts] in Hin.
  subst W. apply perform_calls in Hin. destruct Hin as [Hin|Hin].
  - exact Hin.
  - exfalso. exact (Hno m r Hin).
Qed.

Lemma autoStartNext_restarts_witness :
  let s :=
    Settings.updateTimerSettings
      {| Settings.u_workDuration := None;
         Settings.u_shortBreakDuration := None;
         Settings.u_longBreakDuration := None;
         Settings.u_autoStartNext := Some true;
         Settings.u_pomodorosUntilLongBreak := None |}
      Settings.defaultSettings in
  let w := FocusScreen.initialWorld s in
  let w1 :=
    FocusScreen.dispatch 1700000000000
      (Pomodoro.handleTimerCompleteIn (FocusScreen.pomodoro w)) w in
  Pomodoro.isPlaying
    (FocusScreen.pomodoro (FocusScreen.flushTimeouts 1700000000100 w1)) = true.
Proof.
  intros s w.
  exact (proj1 (proj2 (autoStartNext_restarts (FocusScreen.pomodoro w)
                         1700000000000 1700000000100 w eq_refl))).
Defined.

(** ** The duration rows of the settings screen *)

Lemma value_onChange_other (f g : SettingsScreen.DurationField) (v : Z)
    (s : Settings.AppSettings) :
  f <> g ->
  SettingsScreen.value g (SettingsScreen.onChange f v s) = SettingsScreen.value g s.
Proof. destruct f, g; intros H; try contradiction; reflexivity. Qed.

Lemma onChange_rest (f : SettingsScreen.DurationField) (v : Z)
    (s : Settings.AppSettings) :
  let s' := SettingsScreen.onChange f v s in
  Settings.autoStartNext (Settings.timer s') = Settings.autoStartNext (Settings.timer s)
  /\ Settings.pomodorosUntilLongBreak (Settings.timer s')
     = Settings.pomodorosUntilLongBreak (Settings.timer s)
  /\ Settings.alarmSound s' = Settings.alarmSound s
  /\ Settings.ambientSound s' = Settings.ambientSound s.
Proof. destruct f; cbn; repeat split. Qed.

Lemma field_eq_dec (f g : SettingsScreen.DurationField) : {f = g} + {f <> g}.
Proof. decide equality. Qed.

(** One step writes only the duration of its row, and writes a value in
    1..90 when the duration was in that range. *)
Lemma act_step (r : SettingsScreen.Rows)
    (step : SettingsScreen.DurationField * SettingsScreen.RowAction) :
  let r' := SettingsScreen.act r step in
  (forall g, 1 <= SettingsScreen.value g (SettingsScreen.settings r) <= 90 ->
             1 <= SettingsScreen.value g (SettingsScreen.settings r') <= 90)
  /\ (forall g, g <> fst step ->
        SettingsScreen.value g (SettingsScreen.settings r')
        = SettingsScreen.value g (SettingsScreen.settings r))
  /\ Settings.autoStartNext (Settings.timer (SettingsScreen.settings r'))
     = Settings.autoStartNext (Settings.timer (SettingsScreen.settings r))
  /\ Settings.pomodorosUntilLongBreak (Settings.timer (SettingsScreen.settings r'))
     = Settings.pomodorosUntilLongBreak (Settings.timer (SettingsScreen.settings r))
  /\ Settings.alarmSound (SettingsScreen.settings r')
     = Settings.alarmSound (SettingsScreen.settings r)
  /\ Settings.ambientSound (SettingsScreen.settings r')
     = Settings.ambientSound (SettingsScreen.settings r).
Proof.
  destruct step as [f a]. cbv zeta. cbn [fst].
  assert (Hset : forall text,
             SettingsScreen.settings (SettingsScreen.setInputValue f text r)
             = SettingsScreen.settings r) by (intros; destruct f; reflexivity).
  destruct a as [text| | |]; cbn [SettingsScreen.act].
  - rewrite Hset. split; [auto|repeat split].
  - unfold SettingsScreen.commit, SettingsScreen.handleBlur.
    cbn [fst snd SettingsScreen.settings].
    split; [|split; [|apply onChange_rest]].
    + intros g Hg. destruct (field_eq_dec f g) as [<-|Hn].
      * rewrite value_onChange. apply handleBlurNum_range.
      * rewrite value_onChange_other by exact Hn. exact Hg.
    + intros g Hn. apply value_onChange_other. congruence.
  - unfold SettingsScreen.commit, SettingsScreen.pressMinus.
    cbn [fst snd SettingsScreen.settings].
    split; [|split; [|apply onChange_rest]].
    + intros g Hg. destruct (field_eq_dec f g) as [<-|Hn].
      * rewrite value_onChange. lia.
      * rewrite value_onChange_other by exact Hn. exact Hg.
    + intros g Hn. apply value_onChange_other. congruence.
  - unfold SettingsScreen.commit, SettingsScreen.pressPlus.
    cbn [fst snd SettingsScreen.settings].
    split; [|split; [|apply onChange_rest]].
    + intros g Hg. destruct (field_eq_dec f g) as [<-|Hn].
      * rewrite value_onChange. lia.
      * rewrite value_onChange_other by exact Hn. exact Hg.
    + intros g Hn. apply value_onChange_other. congruence.
Qed.

(** X24: whatever is typed, blurred and pressed in the three duration rows,
    in any order, a duration that was in 1..90 stays in 1..90, a row that
    was not touched keeps its duration, and the other settings
    ([autoStartNext], [pomodorosUntilLongBreak], the sounds) are never
    written. *)
Theorem rows_keep_range
    (steps : list (SettingsScreen.DurationField * SettingsScreen.RowAction))
    (r : SettingsScreen.Rows) :
  let r' := SettingsScreen.run steps r in
  (forall g, 1 <= SettingsScreen.value g (SettingsScreen.settings r) <= 90 ->
             1 <= SettingsScreen.value g (SettingsScreen.settings r') <= 90)
  /\ (forall g, ~ In g (map fst steps) ->
        SettingsScreen.value g (SettingsScreen.settings r')
        = SettingsScreen.value g (SettingsScreen.settings r))
  /\ Settings.autoStartNext (Settings.timer (SettingsScreen.settings r'))
     = Settings.autoStartNext (Settings.timer (SettingsScreen.settings r))
  /\ Settings.pomodorosUntilLongBreak (Settings.timer (SettingsScreen.settings r'))
     = Settings.pomodorosUntilLongBreak (Settings.timer (SettingsScreen.settings r))
  /\ Settings.alarmSound (SettingsScreen.settings r')
     = Settings.alarmSound (SettingsScreen.settings r)
  /\ Settings.ambientSound (SettingsScreen.settings r')
     = Settings.ambientSound (SettingsScreen.settings r).
Proof.
  unfold SettingsScreen.run. revert r.
  induction steps as [|step steps IH]; intros r; cbv zeta.
  - cbn. split; [auto|repeat split].
  - cbn [fold_left map].
    destruct (IH (SettingsScreen.act r step)) as (I1 & I2 & I3 & I4 & I5 & I6).
    destruct (act_step r step) as (A1 & A2 & A3 & A4 & A5 & A6).
    cbv zeta in *.
    rewrite I3, I4, I5, I6, A3, A4, A5, A6.
    split; [|split; [|repeat split]].
    + intros g Hg. apply I1, A1, Hg.
    + intros g Hn. rewrite I2.
      * apply A2. intros ->. apply Hn. left. reflexivity.
      * intros Hin. apply Hn. right. exact Hin.
Qed.

Lemma rows_keep_range_witness :
  let steps :=
    [(SettingsScreen.WorkDuration, SettingsScreen.TypeText "200");
     (SettingsScreen.WorkDuration, SettingsScreen.Blur);
     (SettingsScreen.WorkDuration, SettingsScreen.Plus);
     (SettingsScreen.ShortBreak, SettingsScreen.Minus)] in
  let r := SettingsScreen.mount Settings.defaultSettings in
  1 <= SettingsScreen.value SettingsScreen.WorkDuration
         (SettingsScreen.settings (SettingsScreen.run steps r)) <= 90.
Proof.
  intros steps r.
  apply (proj1 (rows_keep_range steps r)). cbn. lia.
Defined.

Lemma parseInt_toString_table :
  forallb (fun n => match JS.parseInt (JS.toString (Z.of_nat n)) with
                    | Some v => v =? Z.of_nat n
                    | None => false
                    end) (seq 0 91) = true.
Proof. vm_compute. reflexivity. Qed.

Lemma parseInt_toString (n : Z) :
  0 <= n <= 90 -> JS.parseInt (JS.toString n) = Some n.
Proof.
  intros Hn. pose proof parseInt_toString_table as H.
  rewrite forallb_forall in H. specialize (H (Z.to_nat n)).
  rewrite Z2Nat.id in H by lia.
  assert (Hin : In (Z.to_nat n) (seq 0 91)) by (apply in_seq; lia).
  specialize (H Hin).
  destruct (JS.parseInt (JS.toString n)) as [v|]; [|discriminate].
  apply Z.eqb_eq in H. congruence.
Qed.

(** X25: after a blur, a minus or a plus the text of the input reads back
    as the duration stored for its row, and a further blur without typing
    changes nothing. *)
Theorem blur_settles (f : SettingsScreen.DurationField)
    (a : SettingsScreen.RowAction) (r : SettingsScreen.Rows) :
  (forall text, a <> SettingsScreen.TypeText text) ->
  1 <= SettingsScreen.value f (SettingsScreen.settings r) <= 90 ->
  let r' := SettingsScreen.act r (f, a) in
  JS.parseInt (SettingsScreen.inputValue f r')
  = Some (SettingsScreen.value f (SettingsScreen.settings r'))
  /\ SettingsScreen.act r' (f, SettingsScreen.Blur) = r'.
Proof.
  intros Ha Hv.
  assert (Hin : forall text res,
             SettingsScreen.inputValue f (SettingsScreen.commit f (text, res) r)
             = text) by (intros; destruct f; reflexivity).
  assert (Hblur : forall v,
             1 <= v <= 90 ->
             let r' := SettingsScreen.commit f
                         (JS.toString v, SettingsScreen.onChange f v (SettingsScreen.settings r))
                         r in
             JS.parseInt (SettingsScreen.inputValue f r')
             = Some (SettingsScreen.value f (SettingsScreen.settings r'))
             /\ SettingsScreen.act r' (f, SettingsScreen.Blur) = r').
  { intros v Hr r'. subst r'. rewrite Hin.
    unfold SettingsScreen.commit at 1. cbn [SettingsScreen.settings snd].
    rewrite value_onChange, parseInt_toString by lia. split; [reflexivity|].
    cbn [SettingsScreen.act]. rewrite Hin.
    unfold SettingsScreen.handleBlur, SettingsScreen.handleBlurNum.
    rewrite parseInt_toString by lia.
    replace (Z.max 1 (Z.min 90 v)) with v by lia.
    unfold SettingsScreen.commit. cbn [fst snd SettingsScreen.settings].
    destruct f; reflexivity. }
  destruct a as [text| | |]; [exfalso; exact (Ha text eq_refl)| | |];
    cbv zeta; cbn [SettingsScreen.act].
  - apply Hblur, handleBlurNum_range.
  - apply Hblur. lia.
  - apply Hblur. lia.
Qed.

Lemma blur_settles_witness :
  let r :=
    SettingsScreen.setInputValue SettingsScreen.LongBreak "  12 min"
      (SettingsScreen.mount Settings.defaultSettings) in
  let r' := SettingsScreen.act r (SettingsScreen.LongBreak, SettingsScreen.Blur) in
  SettingsScreen.act r' (SettingsScreen.LongBreak, SettingsScreen.Blur) = r'.
Proof.
  intros r.
  refine (proj2 (blur_settles SettingsScreen.LongBreak SettingsScreen.Blur r _ _)).
  - intros text. discriminate.
  - cbn. lia.
Defined.

(** ** The audio service *)

(** Whenever the service says that the ambient sound plays, a sound is
    loaded. *)
Lemma call_loaded (st : AudioService.State) (c : AudioService.Call) :
  (AudioService.isAmbientPlaying st = true -> AudioService.ambientSound st <> None) ->
  AudioService.isAmbientPlaying (AudioService.call st c) = true ->
  AudioService.ambientSound (AudioService.call st c) <> None.
Proof.
  destruct st as [amb alarm playing kind]. cbn [AudioService.isAmbientPlaying
                                                 AudioService.ambientSound].
  intros Inv.
  destruct c as [type created| |isLoaded|paused|resumed|type unloaded created
                |isLoaded didJustFinish|];
    cbn [AudioService.call];
    unfold AudioService.playAmbientSound, AudioService.stopAmbientSound,
      AudioService.onAmbientPlaybackStatusUpdate, AudioService.pauseAmbientSound,
      AudioService.resumeAmbientSound, AudioService.playAlarmSound,
      AudioService.onAlarmPlaybackStatusUpdate, AudioService.cleanup,
      AudioService.stopAmbientSound.
  - destruct type, amb, created; cbn; intros H; try discriminate; auto.
  - destruct amb; cbn; auto. discriminate.
  - destruct isLoaded; cbn; auto. discriminate.
  - destruct amb; cbn; auto. destruct playing, paused; cbn; auto; discriminate.
  - destruct amb; cbn; auto. destruct playing, resumed; cbn; auto; discriminate.
  - destruct type, alarm, unloaded, created; cbn; auto.
  - destruct (isLoaded && didJustFinish); cbn; auto.
  - destruct amb, alarm; cbn; auto; discriminate.
Qed.

Lemma after_loaded (cs : list AudioService.Call) :
  AudioService.isAmbientPlaying (AudioService.after cs) = true ->
  AudioService.ambientSound (AudioService.after cs) <> None.
Proof.
  unfold AudioService.after.
  induction cs as [|c cs IH] using rev_ind; [discriminate|].
  rewrite fold_left_app. cbn [fold_left]. apply call_loaded. exact IH.
Qed.

(** X26: after any calls on the fresh service, with any answers of the
    player: if the service says the ambient sound plays, a sound is loaded;
    and [playAmbientSound] answers true exactly when a sound other than
    "none" was asked for and created, its answer is the playing flag it
    leaves, and after the answer false nothing is loaded, whatever played
    before. *)
Theorem playAmbientSound_answer (cs : list AudioService.Call)
    (type : Settings.AmbientSound) (created : option AudioService.Sound) :
  let st := AudioService.after cs in
  let st' := fst (AudioService.playAmbientSound type created st) in
  let answer := snd (AudioService.playAmbientSound type created st) in
  (AudioService.isAmbientPlaying st = true -> AudioService.ambientSound st <> None)
  /\ (answer = true <-> type <> Settings.noAmbient /\ created <> None)
  /\ AudioService.isAmbientPlaying st' = answer
  /\ (if answer
      then AudioService.ambientSound st' = created
           /\ AudioService.currentAmbientType st' = type
      else AudioService.ambientSound st' = None).
Proof.
  cbv zeta. pose proof (after_loaded cs) as Inv.
  destruct (AudioService.after cs) as [amb alarm playing kind].
  cbn [AudioService.isAmbientPlaying AudioService.ambientSound] in Inv.
  split; [exact Inv|].
  assert (Hp : amb = None -> playing = false).
  { intros ->. destruct playing; [exfalso; apply Inv; reflexivity|reflexivity]. }
  destruct type, amb, created; cbn; rewrite ?Hp by reflexivity;
    (split; [split; [intros H; try discriminate H; split; discriminate
                    |intros [H1 H2]; try reflexivity;
                     try (exfalso; apply H1; reflexivity);
                     try (exfalso; apply H2; reflexivity)]
            |auto]).
Qed.

Lemma playAmbientSound_answer_witness :
  let cs :=
    [AudioService.PlayAmbientSound Settings.rain (Some 1%nat);
     AudioService.PauseAmbientSound true;
     AudioService.ResumeAmbientSound true] in
  AudioService.ambientSound (AudioService.after cs) <> None.
Proof.
  intros cs.
  exact (proj1 (playAmbientSound_answer cs Settings.rain None) eq_refl).
Defined.

(** X27: on the service reached by any calls, a pause that the player
    refuses changes nothing, a pause while nothing plays changes nothing,
    and a pause the player accepts followed by a resume it accepts gives
    the service back as it was. *)
Theorem pause_resume_ambient (cs : list AudioService.Call) :
  let st := AudioService.after cs in
  AudioService.pauseAmbientSound false st = st
  /\ (AudioService.isAmbientPlaying st = false ->
      forall paused, AudioService.pauseAmbientSound paused st = st)
  /\ AudioService.isAmbientPlaying (AudioService.pauseAmbientSound true st) = false
  /\ (AudioService.isAmbientPlaying st = true ->
      AudioService.resumeAmbientSound true (AudioService.pauseAmbientSound true st)
      = st).
Proof.
  cbv zeta. pose proof (after_loaded cs) as Inv.
  destruct (AudioService.after cs) as [amb alarm playing kind].
  cbn [AudioService.isAmbientPlaying AudioService.ambientSound] in Inv.
  unfold AudioService.pauseAmbientSound, AudioService.resumeAmbientSound.
  destruct amb as [sound|], playing; cbn; repeat split;
    try discriminate; try (intros _ []; reflexivity).
  exfalso. apply Inv; reflexivity.
Qed.

Lemma pause_resume_ambient_witness :
  let st := AudioService.after [AudioService.PlayAmbientSound Settings.forest (Some 7%nat)] in
  AudioService.resumeAmbientSound true (AudioService.pauseAmbientSound true st) = st.
Proof.
  intros st.
  exact (proj2 (proj2 (proj2
           (pause_resume_ambient
              [AudioService.PlayAmbientSound Settings.forest (Some 7%nat)])))
           eq_refl).
Defined.

(** X28: [cleanup], after any calls with any answers of the player, leaves
    no ambient sound and no alarm loaded and nothing playing; a second
    [cleanup] changes nothing, and neither do the ambient methods other
    than [playAmbientSound]. *)
Theorem cleanup_unloads (cs : list AudioService.Call) :
  let st := AudioService.cleanup (AudioService.after cs) in
  AudioService.ambientSound st = None
  /\ AudioService.alarmSound st = None
  /\ AudioService.isAmbientPlaying st = false
  /\ AudioService.cleanup st = st
  /\ AudioService.stopAmbientSound st = st
  /\ (forall b, AudioService.pauseAmbientSound b st = st)
  /\ (forall b, AudioService.resumeAmbientSound b st = st).
Proof.
  cbv zeta. pose proof (after_loaded cs) as Inv.
  destruct (AudioService.after cs) as [amb alarm playing kind].
  cbn [AudioService.isAmbientPlaying AudioService.ambientSound] in Inv.
  assert (Hp : amb = None -> playing = false).
  { intros ->. destruct playing; [exfalso; apply Inv; reflexivity|reflexivity]. }
  destruct amb, alarm; cbn; rewrite ?Hp by reflexivity; repeat split.
Qed.

(** ** Purchases and the premium provider *)

Ltac premium_unfold :=
  unfold Premium.call, Premium.purchase, Premium.restore, Premium.purchaseProduct,
    Premium.restorePurchases, Premium.toggleMockPremium, Premium.notifyListeners,
    Premium.saveMockStatus, Premium.mount, Premium.initialize,
    Premium.loadMockStatus, Premium.addPurchaserInfoListener,
    PurchaseService.isPremium, PurchaseService.MOCK_PRODUCTS.

Lemma find_product (productId : string) :
  find (fun p => String.eqb (PurchaseService.identifier p) productId)
       PurchaseService.MOCK_PRODUCTS
  = if String.eqb PurchaseService.MONTHLY productId
    then nth_error PurchaseService.MOCK_PRODUCTS 0
    else if String.eqb PurchaseService.ANNUAL productId
         then nth_error PurchaseService.MOCK_PRODUCTS 1
         else None.
Proof. reflexivity. Qed.

Lemma mount_mirrors (i : option PurchaseService.Info.PurchaserInfo) (readFails : bool) :
  Premium.mirrors (Premium.mount readFails (Premium.initialWorld i))
  /\ (readFails = false ->
      Premium.purchaserInfo (Premium.provider (Premium.mount readFails (Premium.initialWorld i)))
      = PurchaseService.purchaserInfo
          (Premium.service (Premium.mount readFails (Premium.initialWorld i)))).
Proof.
  unfold Premium.mirrors. premium_unfold.
  destruct readFails, i as [data|]; cbn; repeat split; eauto; discriminate.
Qed.

Lemma call_mirrors (w : Premium.World) (c : Premium.Call) :
  Premium.mirrors w ->
  Premium.mirrors (Premium.call w c)
  /\ (Premium.purchaserInfo (Premium.provider w)
      = PurchaseService.purchaserInfo (Premium.service w) ->
      Premium.purchaserInfo (Premium.provider (Premium.call w c))
      = PurchaseService.purchaserInfo (Premium.service (Premium.call w c))).
Proof.
  unfold Premium.mirrors.
  destruct w as [[init sinfo] i l [prem load pinfo prods]]. cbn.
  intros (-> & -> & -> & info & -> & ->).
  destruct c as [productId inAMonth inAYear now writeFails| |inAMonth now writeFails].
  - unfold Premium.call, Premium.purchase, Premium.purchaseProduct.
    rewrite find_product.
    destruct (String.eqb PurchaseService.MONTHLY productId);
      [|destruct (String.eqb PurchaseService.ANNUAL productId)];
      destruct writeFails; premium_unfold; cbn; repeat split; eauto.
  - premium_unfold; cbn. repeat split; eauto.
  - premium_unfold; cbn.
    destruct (PurchaseService.Info.isPremium info), writeFails; cbn;
      repeat split; eauto.
Qed.

Lemma after_mirrors (i : option PurchaseService.Info.PurchaserInfo) (readFails : bool)
    (cs : list Premium.Call) :
  Premium.mirrors (Premium.after i readFails cs)
  /\ (readFails = false ->
      Premium.purchaserInfo (Premium.provider (Premium.after i readFails cs))
      = PurchaseService.purchaserInfo (Premium.service (Premium.after i readFails cs))).
Proof.
  unfold Premium.after.
  induction cs as [|c cs IH] using rev_ind; [apply mount_mirrors|].
  rewrite fold_left_app. cbn [fold_left].
  destruct IH as [IH1 IH2]. destruct (call_mirrors _ c IH1) as [H1 H2].
  split; [exact H1|]. intros Hr. apply H2, IH2, Hr.
Qed.

(** X29: after the provider mounted on any store, and after any purchases,
    restores and toggles, whether or not the store fails, the premium flag
    of the provider is the one of the service, the provider is not loading,
    and, when the first read of the store did not fail, the provider holds
    the record of the service. *)
Theorem provider_mirrors_service (i : option PurchaseService.Info.PurchaserInfo)
    (readFails : bool) (cs : list Premium.Call) :
  let w := Premium.after i readFails cs in
  Premium.isPremium (Premium.provider w) = PurchaseService.isPremium (Premium.service w)
  /\ Premium.isLoading (Premium.provider w) = false
  /\ (readFails = false ->
      Premium.purchaserInfo (Premium.provider w)
      = PurchaseService.purchaserInfo (Premium.service w)).
Proof.
  cbv zeta. destruct (after_mirrors i readFails cs) as [(_ & Hl & _ & info & Hs & Hp) H].
  split; [|split; [exact Hl|exact H]].
  unfold PurchaseService.isPremium. rewrite Hs. exact Hp.
Qed.

Lemma provider_mirrors_service_witness :
  let w :=
    Premium.after None false
      [Premium.Purchase "premium_annual" "2026-12-02" "2027-11-02" "2026-11-02" true;
       Premium.Restore] in
  Premium.purchaserInfo (Premium.provider w)
  = PurchaseService.purchaserInfo (Premium.service w).
Proof.
  intros w.
  exact (proj2 (proj2
           (provider_mirrors_service None false
              [Premium.Purchase "premium_annual" "2026-12-02" "2027-11-02"
                 "2026-11-02" true;
               Premium.Restore])) eq_refl).
Defined.

(** X30: [purchaseProduct] with an identifier that is not one of the two
    products answers "Product not found" and changes nothing.  With one of
    them it answers success, the service is premium with that one
    subscription, a provider that listens is premium and may use every
    ambient sound; and the application started again on the store is
    premium when the write went through, and otherwise what the store said
    before. *)
Theorem purchaseProduct_outcome (productId inAMonth inAYear now : string)
    (writeFails : bool) (w : Premium.World) :
  let w' := fst (Premium.purchaseProduct productId inAMonth inAYear now writeFails w) in
  let result := snd (Premium.purchaseProduct productId inAMonth inAYear now writeFails w) in
  (productId <> PurchaseService.MONTHLY /\ productId <> PurchaseService.ANNUAL ->
   w' = w
   /\ result = {| PurchaseService.success := false;
                  PurchaseService.error := Some "Product not found"%string |})
  /\ (productId = PurchaseService.MONTHLY \/ productId = PurchaseService.ANNUAL ->
      result = {| PurchaseService.success := true; PurchaseService.error := None |}
      /\ PurchaseService.isPremium (Premium.service w') = true
      /\ option_map PurchaseService.Info.activeSubscriptions
           (PurchaseService.purchaserInfo (Premium.service w')) = Some [productId]
      /\ (Premium.listening w = true ->
          Premium.isPremium (Premium.provider w') = true
          /\ forall soundId,
               Premium.canUseAmbientSound (Premium.provider w') soundId = true)
      /\ Premium.isPremium
           (Premium.provider (Premium.mount false (Premium.initialWorld (Premium.item w'))))
         = if writeFails
           then match Premium.item w with
                | Some data => PurchaseService.Info.isPremium data
                | None => false
                end
           else true).
Proof.
  cbv zeta. unfold Premium.purchaseProduct. rewrite find_product.
  destruct (String.eqb PurchaseService.MONTHLY productId) eqn:Em;
    [|destruct (String.eqb PurchaseService.ANNUAL productId) eqn:Ea].
  - apply String.eqb_eq in Em. split.
    + intros [H _]. exfalso. apply H. symmetry. exact Em.
    + intros _. destruct w as [[init sinfo] i l p]. premium_unfold.
      unfold Premium.canUseAmbientSound.
      destruct writeFails, l, i as [data|]; cbn; repeat split; discriminate.
  - apply String.eqb_eq in Ea. split.
    + intros [_ H]. exfalso. apply H. symmetry. exact Ea.
    + intros _. destruct w as [[init sinfo] i l p]. premium_unfold.
      unfold Premium.canUseAmbientSound.
      destruct writeFails, l, i as [data|]; cbn; repeat split; discriminate.
  - apply String.eqb_neq in Em. apply String.eqb_neq in Ea. split.
    + intros _. split; reflexivity.
    + intros [H|H]; exfalso; [apply Em|apply Ea]; symmetry; exact H.
Qed.

Lemma purchaseProduct_outcome_witness :
  let w := Premium.after None false [] in
  let w' :=
    fst (Premium.purchaseProduct "premium_monthly" "2026-12-02" "2027-11-02"
           "2026-11-02" false w) in
  Premium.isPremium (Premium.provider w') = true.
Proof.
  intros w.
  exact (proj1 (proj1 (proj2 (proj2 (proj2
           (proj2 (purchaseProduct_outcome "premium_monthly" "2026-12-02"
                     "2027-11-02" "2026-11-02" false w)
                  (or_introl eq_refl))))) eq_refl)).
Defined.
